(** * Gemini-HFT-System: the decision-and-execution pipeline

    A shallow embedding of the three services of the repository whose
    behaviour the specification describes:

    - [services/execution_engine.py]  (modules [ExecutionEngine] and
      [ExecutionPass]),
    - [services/gemini_manager.py]    (modules [Json], [GeminiManager]),
    - [services/quant_engine.py]      (module [QuantEngine]),

    and of what they stand on:

    - [db_client.py]                  (module [DbClient]),
    - the data loading of [services/quant_engine.py] (module [QuantData]),
    - [services/market_feeder.py]     (module [MarketFeeder]).

    Conventions of the embedding.

    - Python [int] is [Z].  Python [float] (the [REAL] columns [balance]
      and [price]) is kept abstract behind the class [PyNum], which lists
      the operations the services apply to such values.  Two instances are
      given: [Exact.PyNum_Qc], exact rational arithmetic (what the
      specification calls "money"), and [Binary64.PyNum_binary64], IEEE-754
      double precision as CPython implements it, built on the Standard
      Library's [SpecFloat].
    - A Python exception is a value of [exn]; code that can raise returns
      [result].  Code that writes to the database threads the database
      through the monad [M].
    - Python [str] is [string], a sequence of bytes holding the UTF-8
      encoding.  [str.upper] maps the ASCII letters and the ten code
      points beyond ASCII whose upper case is made of ASCII letters;
      [str.lower] maps the ASCII letters.  The services only look for
      ASCII words in the results, and for that this is what Python
      computes: see module [PyStr].
    - Console output is not part of the model, except where formatting
      it can raise.  Module [ExecutionEngine] is the trading pass when the
      store answers every statement and the signal file holds the
      dictionary [save_signal] writes; it leaves out the wall-clock time
      stamps written by [db_client.py].  Module [ExecutionPass] is the
      pass in full: the [except] branches of the client, whatever JSON
      value the signal file holds, the status line, and the driver of
      the store as a parameter.  Module [DbClient] takes the clock
      reading as an argument.
    - The interpreter's recursion limit is not modelled: [json.loads]
      decodes a nesting of any depth. *)

From Stdlib Require Import ZArith QArith Qcanon Qround.
From Stdlib Require Import Bool List String Ascii Lia Sorted.
From Stdlib Require Import SpecFloat.
Import ListNotations.

Local Open Scope string_scope.
Local Open Scope Z_scope.

(** ** Exceptions *)

Inductive exn : Type :=
| ZeroDivisionError
| ValueError
| OverflowError
| IndexError
| JSONDecodeError
| AttributeError
| TypeError.

Inductive result (A : Type) : Type :=
| Ok (a : A)
| Raise (e : exn).
Arguments Ok {A} a.
Arguments Raise {A} e.

Definition rbind {A B : Type} (r : result A) (k : A -> result B) : result B :=
  match r with
  | Ok a => k a
  | Raise e => Raise e
  end.

(** ** Numbers as the services use them *)

Class PyNum (num : Type) : Type := {
  (** [0.0] *)
  num_zero : num;
  (** [x <= y] *)
  num_le : num -> num -> bool;
  (** [x < y]; [x > y] is [num_lt y x] *)
  num_lt : num -> num -> bool;
  (** [bool(x)]: a number is falsy exactly when it equals zero *)
  num_truthy : num -> bool;
  num_add : num -> num -> num;
  num_sub : num -> num -> num;
  num_mul : num -> num -> num;
  (** [x // y]; raises [ZeroDivisionError] on a zero divisor *)
  num_floordiv : num -> num -> result num;
  (** [int(x)] *)
  num_int : num -> result Z;
  (** the implicit conversion of an [int] operand in [n * x] *)
  num_of_int : Z -> result num
}.

(** *** Exact rational arithmetic *)

Module Exact.

Definition Qc_leb (x y : Qc) : bool := Qle_bool x y.
Definition Qc_ltb (x y : Qc) : bool := negb (Qle_bool y x).

Definition Qc_of_Z (z : Z) : Qc := Q2Qc (inject_Z z).

(** [int()] truncates toward zero. *)
Definition Qc_trunc (x : Qc) : Z := Z.quot (Qnum x) (Z.pos (Qden x)).

Definition Qc_floordiv (x y : Qc) : result Qc :=
  if Qc_eq_bool y 0 then Raise ZeroDivisionError
  else Ok (Qc_of_Z (Qfloor (x / y)%Qc)).

#[export] Instance PyNum_Qc : PyNum Qc := {|
  num_zero := 0%Qc;
  num_le := Qc_leb;
  num_lt := Qc_ltb;
  num_truthy := fun x => negb (Qc_eq_bool x 0);
  num_add := Qcplus;
  num_sub := Qcminus;
  num_mul := Qcmult;
  num_floordiv := Qc_floordiv;
  num_int := fun x => Ok (Qc_trunc x);
  num_of_int := fun z => Ok (Qc_of_Z z)
|}.

End Exact.

(** *** IEEE-754 binary64, as CPython's [float] *)

Module Binary64.

Definition prec : Z := 53.
Definition emax : Z := 1024.

Definition float : Type := spec_float.

Definition fzero : float := S754_zero false.
Definition fadd : float -> float -> float := SFadd prec emax.
Definition fsub : float -> float -> float := SFsub prec emax.
Definition fmul : float -> float -> float := SFmul prec emax.
Definition fdiv : float -> float -> float := SFdiv prec emax.

(** The double nearest to the integer [z] (ties to even). *)
Definition of_Z (z : Z) : float := binary_normalize prec emax z 0 false.

(** the rational number a finite double stands for, 0 for the others *)
Definition exact (x : float) : Q :=
  match x with
  | S754_finite s m e =>
      let v := if 0 <=? e then inject_Z (Z.pos m * 2 ^ e)
               else Z.pos m # Z.to_pos (2 ^ (- e)) in
      if s then Qopp v else v
  | _ => 0%Q
  end.

(** The double nearest to [n / 10^k], for decimal literals such as [2.64]. *)
Definition of_decimal (n : Z) (k : nat) : float :=
  fdiv (of_Z n) (of_Z (10 ^ Z.of_nat k)).

(** C [copysign(0.0, x)] *)
Definition zero_like (x : float) : float :=
  match x with
  | S754_zero s | S754_infinity s | S754_finite s _ _ => S754_zero s
  | S754_nan => S754_zero false
  end.

(** C [fmod(x, y)]: the exact remainder of the truncated division, with
    the sign of [x]. *)
Definition fmod (x y : float) : float :=
  match x, y with
  | S754_nan, _ | _, S754_nan => S754_nan
  | S754_infinity _, _ => S754_nan
  | _, S754_zero _ => S754_nan
  | S754_zero _, _ => x
  | S754_finite _ _ _, S754_infinity _ => x
  | S754_finite sx mx ex, S754_finite _ my ey =>
      let e := Z.min ex ey in
      let X := Z.pos mx * 2 ^ (ex - e) in
      let Y := Z.pos my * 2 ^ (ey - e) in
      binary_normalize prec emax (cond_Zopp sx (X mod Y)) e sx
  end.

(** C [floor(x)] *)
Definition ffloor (x : float) : float :=
  match x with
  | S754_finite s m e =>
      if 0 <=? e then x
      else binary_normalize prec emax (cond_Zopp s (Z.pos m) / 2 ^ (- e)) 0 s
  | _ => x
  end.

Definition is_zero (x : float) : bool := SFeqb x fzero.

Definition fone : float := of_Z 1.
Definition fhalf : float := fdiv (of_Z 1) (of_Z 2).

(** CPython [floatobject.c], [float_floor_div] over [_float_div_mod]. *)
Definition float_floor_div (vx wx : float) : result float :=
  if is_zero wx then Raise ZeroDivisionError
  else
    let mod_ := fmod vx wx in
    let div := fdiv (fsub vx mod_) wx in
    let div :=
      if negb (is_zero mod_) then
        if negb (Bool.eqb (SFltb wx fzero) (SFltb mod_ fzero))
        then fsub div fone else div
      else div in
    if negb (is_zero div) then
      let floordiv := ffloor div in
      if SFltb fhalf (fsub div floordiv)
      then Ok (fadd floordiv fone) else Ok floordiv
    else Ok (zero_like (fdiv vx wx)).

(** [int(x)] on a float: truncation; [nan] and the infinities raise. *)
Definition float_int (x : float) : result Z :=
  match x with
  | S754_zero _ => Ok 0
  | S754_nan => Raise ValueError
  | S754_infinity _ => Raise OverflowError
  | S754_finite s m e =>
      if 0 <=? e then Ok (cond_Zopp s (Z.pos m * 2 ^ e))
      else Ok (cond_Zopp s (Z.pos m / 2 ^ (- e)))
  end.

(** [float(n)] for an [int] operand: nearest double, [OverflowError] when
    the integer is out of range. *)
Definition float_of_int (z : Z) : result float :=
  match of_Z z with
  | S754_infinity _ => Raise OverflowError
  | f => Ok f
  end.

#[export] Instance PyNum_binary64 : PyNum float := {|
  num_zero := fzero;
  num_le := SFleb;
  num_lt := SFltb;
  num_truthy := fun x => negb (is_zero x);
  num_add := fadd;
  num_sub := fsub;
  num_mul := fmul;
  num_floordiv := float_floor_div;
  num_int := float_int;
  num_of_int := float_of_int
|}.

End Binary64.

(** ** Strings *)

Module PyStr.

Definition is_upper_ascii (c : ascii) : bool :=
  let n := nat_of_ascii c in (Nat.leb 65 n && Nat.leb n 90)%bool.
Definition is_lower_ascii (c : ascii) : bool :=
  let n := nat_of_ascii c in (Nat.leb 97 n && Nat.leb n 122)%bool.

Definition upper_ascii (c : ascii) : ascii :=
  if is_lower_ascii c then ascii_of_nat (nat_of_ascii c - 32) else c.
Definition lower_ascii (c : ascii) : ascii :=
  if is_upper_ascii c then ascii_of_nat (nat_of_ascii c + 32) else c.

Fixpoint map_string (f : ascii -> ascii) (s : string) : string :=
  match s with
  | EmptyString => EmptyString
  | String c r => String (f c) (map_string f r)
  end.

(** The code points beyond ASCII whose upper case is made of ASCII
    letters only, by the bytes of their UTF-8 encoding: U+00DF, U+0131
    and U+017F on two bytes, the ligatures U+FB00 to U+FB06 on three. *)
Definition upper_of_2 (x y : nat) : option string :=
  if (Nat.eqb x 195 && Nat.eqb y 159)%bool then Some "SS"
  else if (Nat.eqb x 196 && Nat.eqb y 177)%bool then Some "I"
  else if (Nat.eqb x 197 && Nat.eqb y 191)%bool then Some "S"
  else None.

Definition upper_of_3 (x y z : nat) : option string :=
  if (Nat.eqb x 239 && Nat.eqb y 172)%bool then
    if Nat.eqb z 128 then Some "FF"
    else if Nat.eqb z 129 then Some "FI"
    else if Nat.eqb z 130 then Some "FL"
    else if Nat.eqb z 131 then Some "FFI"
    else if Nat.eqb z 132 then Some "FFL"
    else if Nat.eqb z 133 then Some "ST"
    else if Nat.eqb z 134 then Some "ST"
    else None
  else None.

(** the upper case of the code point at the head of [s], when it is one
    of these, and the number of bytes that follow its first byte *)
Definition upper_special (s : string) : option (string * nat) :=
  match s with
  | String a (String b r) =>
      match upper_of_2 (nat_of_ascii a) (nat_of_ascii b) with
      | Some w => Some (w, 1%nat)
      | None =>
          match r with
          | String c _ =>
              match upper_of_3 (nat_of_ascii a) (nat_of_ascii b)
                               (nat_of_ascii c) with
              | Some w => Some (w, 2%nat)
              | None => None
              end
          | EmptyString => None
          end
      end
  | _ => None
  end.

(** [upper_from skip s]: the upper case of [s] without its first [skip]
    bytes.  Every other code point beyond ASCII is left as it is: its
    upper case in Python has a character beyond ASCII too, and the
    services only compare upper-case strings with ASCII words. *)
Fixpoint upper_from (skip : nat) (s : string) : string :=
  match s with
  | EmptyString => EmptyString
  | String c r =>
      match skip with
      | S k => upper_from k r
      | O =>
          match upper_special s with
          | Some (w, n) => w ++ upper_from n r
          | None => String (upper_ascii c) (upper_from 0 r)
          end
      end
  end.

(** [s.upper()] *)
Definition upper : string -> string := upper_from 0.

(** [s.lower()].  Beyond ASCII only U+0130 and U+212A have a lower case
    holding an ASCII letter, i and k: the services only look for the
    words rate, quota, 429, exhausted, 404 and not found in a lower-case
    string, and neither letter occurs in them. *)
Definition lower : string -> string := map_string lower_ascii.


(** [s.replace(a, b)] for one-character [a] and [b] *)
Definition replace_char (a b : ascii) : string -> string :=
  map_string (fun c => if Ascii.eqb c a then b else c).

(** [k in s] *)
Fixpoint contains (k s : string) : bool :=
  if String.prefix k s then true
  else match s with
       | EmptyString => false
       | String _ r => contains k r
       end.

(** [x in l] for a list of strings *)
Definition mem (x : string) (l : list string) : bool :=
  existsb (String.eqb x) l.

End PyStr.

(** ** JSON values and [json.loads]

    The decoder of the Python library, as far as its result depends on the
    text alone: the interpreter's recursion limit and its limit on the
    number of digits of an integer literal are not modelled. *)

Module Json.

(** The value [json.loads] builds.  A number keeps its lexeme: no service
    computes with a decoded number.  An object is the list of its members
    in insertion order, with distinct keys, as a Python [dict]. *)
#[local] Set Warnings "-register-all".
Inductive json : Type :=
| JNull
| JBool (b : bool)
| JNum (lexeme : string)
| JStr (s : string)
| JArr (items : list json)
| JObj (members : list (string * json)).

(** [d.get(k)] *)
Fixpoint dict_get (k : string) (d : list (string * json)) : option json :=
  match d with
  | [] => None
  | (k', v) :: r => if String.eqb k k' then Some v else dict_get k r
  end.

(** [d[k] = v] *)
Fixpoint dict_set (k : string) (v : json) (d : list (string * json))
  : list (string * json) :=
  match d with
  | [] => [(k, v)]
  | (k', v') :: r =>
      if String.eqb k k' then (k', v) :: r else (k', v') :: dict_set k v r
  end.

Definition is_ws (c : ascii) : bool :=
  let n := nat_of_ascii c in
  (Nat.eqb n 32 || Nat.eqb n 9 || Nat.eqb n 10 || Nat.eqb n 13)%bool.

Fixpoint skip_ws (s : string) : string :=
  match s with
  | String c r => if is_ws c then skip_ws r else s
  | EmptyString => s
  end.

Definition is_digit (c : ascii) : bool :=
  let n := nat_of_ascii c in (Nat.leb 48 n && Nat.leb n 57)%bool.

(** Longest prefix of [s] made of decimal digits, and the rest. *)
Fixpoint span_digits (s : string) : string * string :=
  match s with
  | String c r =>
      if is_digit c then let (d, t) := span_digits r in (String c d, t)
      else (EmptyString, s)
  | EmptyString => (EmptyString, s)
  end.

(** The number pattern of the decoder: an optional minus sign, then
    either a single 0 or a digit 1-9 followed by digits, then optionally
    a dot and digits, then optionally e or E, a sign and digits. *)
Definition scan_int (s : string) : option (string * string) :=
  match s with
  | String "0"%char r => Some ("0"%string, r)
  | String c _ =>
      if is_digit c then Some (span_digits s) else None
  | EmptyString => None
  end.

Definition scan_frac (s : string) : string * string :=
  match s with
  | String "."%char r =>
      match span_digits r with
      | (EmptyString, _) => (EmptyString, s)
      | (d, t) => (String "."%char d, t)
      end
  | _ => (EmptyString, s)
  end.

Definition scan_exp (s : string) : string * string :=
  match s with
  | String e r =>
      if (Ascii.eqb e "e"%char || Ascii.eqb e "E"%char)%bool then
        let (sign, r') :=
          match r with
          | String c t =>
              if (Ascii.eqb c "-"%char || Ascii.eqb c "+"%char)%bool
              then (String c EmptyString, t) else (EmptyString, r)
          | EmptyString => (EmptyString, r)
          end in
        match span_digits r' with
        | (EmptyString, _) => (EmptyString, s)
        | (d, t) => (String e (sign ++ d), t)
        end
      else (EmptyString, s)
  | EmptyString => (EmptyString, s)
  end.

Definition scan_number (s : string) : option (string * string) :=
  let (sign, r) :=
    match s with
    | String "-"%char t => ("-"%string, t)
    | _ => (EmptyString, s)
    end in
  match scan_int r with
  | None => None
  | Some (i, r1) =>
      let (f, r2) := scan_frac r1 in
      let (e, r3) := scan_exp r2 in
      Some (sign ++ i ++ f ++ e, r3)
  end.

Definition hex_value (c : ascii) : option N :=
  let n := N_of_ascii c in
  if (N.leb 48 n && N.leb n 57)%bool then Some (n - 48)%N
  else if (N.leb 65 n && N.leb n 70)%bool then Some (n - 55)%N
  else if (N.leb 97 n && N.leb n 102)%bool then Some (n - 87)%N
  else None.

(** Four hexadecimal digits after a backslash and the letter u. *)
Definition hex4 (s : string) : option (N * string) :=
  match s with
  | String a (String b (String c (String d r))) =>
      match hex_value a, hex_value b, hex_value c, hex_value d with
      | Some x, Some y, Some z, Some w =>
          Some (((x * 16 + y) * 16 + z) * 16 + w, r)%N
      | _, _, _, _ => None
      end
  | _ => None
  end.

Definition byte (n : N) : string := String (ascii_of_N n) EmptyString.

(** UTF-8 encoding of the code point [cp]. *)
Definition utf8 (cp : N) : string :=
  (if cp <? 128 then byte cp
   else if cp <? 2048 then
     byte (192 + cp / 64) ++ byte (128 + cp mod 64)
   else if cp <? 65536 then
     byte (224 + cp / 4096) ++ byte (128 + (cp / 64) mod 64)
     ++ byte (128 + cp mod 64)
   else
     byte (240 + cp / 262144) ++ byte (128 + (cp / 4096) mod 64)
     ++ byte (128 + (cp / 64) mod 64) ++ byte (128 + cp mod 64))%N.

(** The one-letter escapes: quote, backslash, slash, b, f, n, r, t. *)
Definition simple_escape (c : ascii) : option ascii :=
  let n := N_of_ascii c in
  (if n =? 34 then Some (ascii_of_N 34)
   else if n =? 92 then Some (ascii_of_N 92)
   else if n =? 47 then Some (ascii_of_N 47)
   else if n =? 98 then Some (ascii_of_N 8)
   else if n =? 102 then Some (ascii_of_N 12)
   else if n =? 110 then Some (ascii_of_N 10)
   else if n =? 114 then Some (ascii_of_N 13)
   else if n =? 116 then Some (ascii_of_N 9)
   else None)%N.

Definition cons_result (p : string) (r : option (string * string))
  : option (string * string) :=
  match r with
  | Some (d, t) => Some (p ++ d, t)
  | None => None
  end.

(** A unicode escape, with a following low surrogate folded in; [s]
    starts after the letter u. *)
Definition scan_unicode (s : string) : option (N * string) :=
  match hex4 s with
  | None => None
  | Some (uni, r) =>
      if (N.leb 55296 uni && N.leb uni 56319)%bool then
        match r with
        | String b (String "u"%char r') =>
            if negb (N.eqb (N_of_ascii b) 92) then Some (uni, r)
            else
              match hex4 r' with
              | None => None
              | Some (uni2, r'') =>
                  if (N.leb 56320 uni2 && N.leb uni2 57343)%bool
                  then Some (65536 + (uni - 55296) * 1024 + (uni2 - 56320),
                             r'')%N
                  else Some (uni, r)
              end
        | _ => Some (uni, r)
        end
      else Some (uni, r)
  end.

(** [scanstring], strict mode: [s] starts after the opening quote; the
    result is the decoded string and what follows the closing quote. *)
Fixpoint scan_string (fuel : nat) (s : string) : option (string * string) :=
  match fuel with
  | O => None
  | S fuel' =>
      match s with
      | EmptyString => None
      | String c r =>
          let n := N_of_ascii c in
          if N.eqb n 34 then Some (EmptyString, r)
          else if N.eqb n 92 then
            match r with
            | EmptyString => None
            | String e r' =>
                match simple_escape e with
                | Some d =>
                    cons_result (String d EmptyString) (scan_string fuel' r')
                | None =>
                    if Ascii.eqb e "u"%char then
                      match scan_unicode r' with
                      | Some (cp, r'') =>
                          cons_result (utf8 cp) (scan_string fuel' r'')
                      | None => None
                      end
                    else None
                end
            end
          else if N.ltb n 32 then None
          else cons_result (String c EmptyString) (scan_string fuel' r)
      end
  end.

Definition strip_prefix (p s : string) : option string :=
  if String.prefix p s
  then Some (String.substring (String.length p)
               (String.length s - String.length p) s)
  else None.

(** [scan_once], [JSONObject] and [JSONArray] of the decoder.  Every call
    either fails or consumes a character before it recurses twice, so a
    [fuel] of twice the input length is never exhausted. *)
Fixpoint scan_once (fuel : nat) (s : string) : option (json * string) :=
  match fuel with
  | O => None
  | S fuel' =>
      match s with
      | EmptyString => None
      | String c r =>
          if N.eqb (N_of_ascii c) 34 then
            match scan_string (S (String.length r)) r with
            | Some (d, t) => Some (JStr d, t)
            | None => None
            end
          else if Ascii.eqb c "{"%char then
            match skip_ws r with
            | String "}"%char t => Some (JObj [], t)
            | r1 =>
                match scan_members fuel' r1 [] with
                | Some (d, t) => Some (JObj d, t)
                | None => None
                end
            end
          else if Ascii.eqb c "["%char then
            match skip_ws r with
            | String "]"%char t => Some (JArr [], t)
            | r1 =>
                match scan_items fuel' r1 with
                | Some (l, t) => Some (JArr l, t)
                | None => None
                end
            end
          else
            match strip_prefix "null" s, strip_prefix "true" s,
                  strip_prefix "false" s with
            | Some t, _, _ => Some (JNull, t)
            | _, Some t, _ => Some (JBool true, t)
            | _, _, Some t => Some (JBool false, t)
            | None, None, None =>
                match scan_number s with
                | Some (lex, t) => Some (JNum lex, t)
                | None =>
                    match strip_prefix "NaN" s, strip_prefix "Infinity" s,
                          strip_prefix "-Infinity" s with
                    | Some t, _, _ => Some (JNum "NaN", t)
                    | _, Some t, _ => Some (JNum "Infinity", t)
                    | _, _, Some t => Some (JNum "-Infinity", t)
                    | None, None, None => None
                    end
                end
            end
      end
  end

(** members of an object: [s] starts at the quote of the next key *)
with scan_members (fuel : nat) (s : string) (acc : list (string * json))
  : option (list (string * json) * string) :=
  match fuel with
  | O => None
  | S fuel' =>
      match s with
      | String q r =>
          if negb (N.eqb (N_of_ascii q) 34) then None
          else
            match scan_string (S (String.length r)) r with
            | None => None
            | Some (key, r1) =>
                match skip_ws r1 with
                | String ":"%char r2 =>
                    match scan_once fuel' (skip_ws r2) with
                    | None => None
                    | Some (v, r3) =>
                        let acc' := dict_set key v acc in
                        match skip_ws r3 with
                        | String "}"%char t => Some (acc', t)
                        | String ","%char r4 =>
                            scan_members fuel' (skip_ws r4) acc'
                        | _ => None
                        end
                    end
                | _ => None
                end
            end
      | EmptyString => None
      end
  end

(** items of an array: [s] starts at the next item *)
with scan_items (fuel : nat) (s : string) : option (list json * string) :=
  match fuel with
  | O => None
  | S fuel' =>
      match scan_once fuel' s with
      | None => None
      | Some (v, r) =>
          match skip_ws r with
          | String "]"%char t => Some ([v], t)
          | String ","%char r1 =>
              match scan_items fuel' (skip_ws r1) with
              | Some (l, t) => Some (v :: l, t)
              | None => None
              end
          | _ => None
          end
      end
  end.

(** [json.loads(s)]: one value between optional white space, nothing else. *)
Definition loads (s : string) : result json :=
  match scan_once (2 * String.length s + 2) (skip_ws s) with
  | Some (v, r) =>
      match skip_ws r with
      | EmptyString => Ok v
      | _ => Raise JSONDecodeError
      end
  | None => Raise JSONDecodeError
  end.

End Json.

(** ** services/execution_engine.py *)

Module ExecutionEngine.

Section Engine.

Context {num : Type} {NUM : PyNum num}.

(** *** The tables of [db_client.py] that the service reads and writes *)

(** the single row of table [portfolio] *)
Record Portfolio : Type := {
  balance : num;
  positions : Z;
  last_trade_time : option string
}.

(** a row of table [trade_logs] *)
Record Trade : Type := {
  trade_action : string;
  trade_price : num;
  trade_quantity : Z;
  trade_balance : num
}.

(** the single row of table [manager_status] *)
Record ManagerStatus : Type := {
  status_action : string;
  status_reason : option string
}.

Record TradingDB : Type := {
  (** column [price] of [market_data], oldest first *)
  market_data : list num;
  trade_logs : list Trade;
  portfolio : Portfolio;
  manager_status : ManagerStatus
}.

(** The dictionary in the signal file, as [quant_engine.save_signal]
    writes it, reduced to the two keys the trading logic reads; a field is
    [None] when [signal.get] finds no such key.  A missing file and an
    empty dictionary are both falsy in [run]: both are the absent signal
    below. *)
Record Signal : Type := {
  signal : option string;
  timestamp : option string
}.

(** *** Database access: state and exceptions

    [db_client.py] catches the errors of the storage engine itself and
    answers [False] or a default; the services ignore that answer.  This
    module takes the database as reachable, so every call below succeeds
    and stores what it is given; module [ExecutionPass] has the calls
    with their [except] branches. *)

Definition M (A : Type) : Type := TradingDB -> result A * TradingDB.

Definition ret {A : Type} (a : A) : M A := fun db => (Ok a, db).

Definition bind {A B : Type} (m : M A) (k : A -> M B) : M B :=
  fun db =>
    match m db with
    | (Ok a, db') => k a db'
    | (Raise e, db') => (Raise e, db')
    end.

(** an operation on numbers that may raise *)
Definition lift {A : Type} (r : result A) : M A := fun db => (r, db).

Notation "x <- m ;; k" := (bind m (fun x => k))
  (at level 61, m at next level, right associativity).

Definition get_portfolio : M Portfolio :=
  fun db => (Ok (portfolio db), db).

Definition update_portfolio (b : num) (p : Z) (t : option string) : M unit :=
  fun db =>
    (Ok tt,
     {| market_data := market_data db;
        trade_logs := trade_logs db;
        portfolio :=
          {| balance := b; positions := p; last_trade_time := t |};
        manager_status := manager_status db |}).

Definition log_trade (action : string) (price : num) (quantity : Z)
    (b : num) : M unit :=
  fun db =>
    (Ok tt,
     {| market_data := market_data db;
        trade_logs :=
          trade_logs db ++
          [{| trade_action := action; trade_price := price;
              trade_quantity := quantity; trade_balance := b |}];
        portfolio := portfolio db;
        manager_status := manager_status db |}).

Definition get_manager_status : M string :=
  fun db => (Ok (PyStr.upper (status_action (manager_status db))), db).

(** the newest price in [market_data], [None] on an empty table *)
Definition latest_price (db : TradingDB) : option num :=
  List.last (List.map Some (market_data db)) None.

Definition get_current_price : M (option num) :=
  fun db => (Ok (latest_price db), db).

(** *** The orders *)

Definition execute_buy (balance : num) (positions : Z) (price : num)
    (timestamp : option string) : M (num * Z * bool) :=
  if num_le balance price then ret (balance, positions, false)
  else
    q <- lift (num_floordiv balance price) ;;
    qty <- lift (num_int q) ;;
    fqty <- lift (num_of_int qty) ;;
    let cost := num_mul fqty price in
    let new_balance := num_sub balance cost in
    let new_positions := positions + qty in
    _ <- log_trade "BUY" price qty new_balance ;;
    _ <- update_portfolio new_balance new_positions timestamp ;;
    ret (new_balance, new_positions, true).

Definition execute_sell (balance : num) (positions : Z) (price : num)
    (timestamp : option string) : M (num * Z * bool) :=
  if positions <=? 0 then ret (balance, positions, false)
  else
    fpos <- lift (num_of_int positions) ;;
    let revenue := num_mul fpos price in
    let new_balance := num_add balance revenue in
    _ <- log_trade "SELL" price positions new_balance ;;
    _ <- update_portfolio new_balance 0 timestamp ;;
    ret (new_balance, 0, true).

(** *** One pass of the service loop *)

(** The branch a pass ends in, under the names the specification gives
    to the four states; [ERROR] is the [except Exception] clause. *)
Inductive CycleResult : Type :=
| IDLE
| STALE_SIGNAL
| GATED
| ACTING
| ERROR (e : exn).

Definition option_string_eqb (a b : option string) : bool :=
  match a, b with
  | None, None => true
  | Some x, Some y => String.eqb x y
  | _, _ => false
  end.

(** the body of [try:] in [run]; [sig] is what [load_signal] returns.
    The portfolio value and the status line computed after the orders are
    console output only. *)
Definition cycle (sig : option Signal) : M CycleResult :=
  pf <- get_portfolio ;;
  let balance := balance pf in
  let positions := positions pf in
  let last_trade := last_trade_time pf in
  price <- get_current_price ;;
  match sig, price with
  | Some sg, Some price =>
      if negb (num_truthy price) then ret IDLE
      else
        let sig_type := signal sg in
        let sig_time := timestamp sg in
        if option_string_eqb sig_time last_trade then ret STALE_SIGNAL
        else
          manager_action <- get_manager_status ;;
          if String.eqb manager_action "PAUSE" then ret GATED
          else
            if (option_string_eqb sig_type (Some "BUY")
                && num_lt price balance)%bool then
              _ <- execute_buy balance positions price sig_time ;;
              ret ACTING
            else if (option_string_eqb sig_type (Some "SELL")
                     && (0 <? positions))%bool then
              _ <- execute_sell balance positions price sig_time ;;
              ret ACTING
            else ret ACTING
  | _, _ => ret IDLE
  end.

(** one iteration of [while True]: the [try] body under its handler *)
Definition run_cycle (sig : option Signal) (db : TradingDB)
  : CycleResult * TradingDB :=
  match cycle sig db with
  | (Ok r, db') => (r, db')
  | (Raise e, db') => (ERROR e, db')
  end.

(** *** Shapes of the database used to state what a pass does *)

(** the database after an order: one more row in [trade_logs] and the
    portfolio row overwritten *)
Definition after_trade (db : TradingDB) (action : string) (price : num) (qty : Z)
    (new_balance : num) (new_positions : Z) (t : option string)
  : TradingDB :=
  {| market_data := market_data db;
     trade_logs :=
       trade_logs db ++
       [{| trade_action := action; trade_price := price;
           trade_quantity := qty; trade_balance := new_balance |}];
     portfolio :=
       {| balance := new_balance; positions := new_positions;
          last_trade_time := t |};
     manager_status := manager_status db |}.

(** what [run] makes of an order *)
Definition settle (r : result (num * Z * bool) * TradingDB)
  : CycleResult * TradingDB :=
  match r with
  | (Ok _, db') => (ACTING, db')
  | (Raise e, db') => (ERROR e, db')
  end.

(** a BUY and a SELL signal computed from the same price bar *)
Definition buy_signal : Signal :=
  {| signal := Some "BUY"%string;
     timestamp := Some "2024-01-02 09:16:00"%string |}.
Definition sell_signal : Signal :=
  {| signal := Some "SELL"%string;
     timestamp := Some "2024-01-02 09:16:00"%string |}.

(** a database holding one price, an empty trade log, the given portfolio
    row and the given manager action *)
Definition snapshot (price b : num) (pos : Z) (last : option string)
    (action : string) : TradingDB :=
  {| market_data := [price];
     trade_logs := [];
     portfolio := {| balance := b; positions := pos; last_trade_time := last |};
     manager_status := {| status_action := action; status_reason := None |} |}.

End Engine.

Arguments Portfolio num : clear implicits.
Arguments Trade num : clear implicits.
Arguments TradingDB num : clear implicits.

End ExecutionEngine.

(** ** services/gemini_manager.py *)

Module GeminiManager.

Import Json.

(** the two lists of [config.py] the service reads *)
Record Config : Type := {
  GEMINI_API_KEYS : list string;
  GEMINI_MODELS : list string
}.

(** the lists as [config.py] ships them; a key is read from the
    environment variable named here *)
Definition config : Config := {|
  GEMINI_API_KEYS := ["GEMINI_API_KEY_1"; "GEMINI_API_KEY_2"];
  GEMINI_MODELS :=
    ["gemini-2.5-flash"; "gemini-2.5-flash-lite"; "gemini-2.0-flash"]
|}.

(** the module-level variables [current_api_idx], [current_model_idx] *)
Record Rotation : Type := {
  current_api_idx : nat;
  current_model_idx : nat
}.

Definition initial : Rotation :=
  {| current_api_idx := 0; current_model_idx := 0 |}.

Section Manager.

Variable cfg : Config.

Definition n_keys : nat := List.length (GEMINI_API_KEYS cfg).
Definition n_models : nat := List.length (GEMINI_MODELS cfg).

(** the rotation one model further, and one credential further *)
Definition next_model (st : Rotation) : Rotation :=
  {| current_api_idx := current_api_idx st;
     current_model_idx := (current_model_idx st + 1) mod n_models |}.

Definition next_api (st : Rotation) : Rotation :=
  {| current_api_idx := (current_api_idx st + 1) mod n_keys;
     current_model_idx := 0 |}.

(** [%] by the length of an empty list raises *)
Definition rotate_model (st : Rotation) : result Rotation :=
  if Nat.eqb n_models 0 then Raise ZeroDivisionError
  else Ok (next_model st).

Definition rotate_api (st : Rotation) : result Rotation :=
  if Nat.eqb n_keys 0 then Raise ZeroDivisionError
  else Ok (next_api st).

(** [configure_gemini]: the key and the model the next request uses *)
Definition configure_gemini (st : Rotation) : result (string * string) :=
  match nth_error (GEMINI_API_KEYS cfg) (current_api_idx st),
        nth_error (GEMINI_MODELS cfg) (current_model_idx st) with
  | Some k, Some m => Ok (k, m)
  | _, _ => Raise IndexError
  end.

Definition is_rate_limit (msg : string) : bool :=
  existsb (fun k => PyStr.contains k (PyStr.lower msg))
          ["rate"; "quota"; "429"; "exhausted"]%string.

Definition is_not_found (msg : string) : bool :=
  (PyStr.contains "404" (PyStr.lower msg)
   || PyStr.contains "not found" (PyStr.lower msg))%bool.

(** *** [parse_response] *)

Definition open_brace : ascii := "{"%char.
Definition close_brace : ascii := "}"%char.

(** the characters before the first closing brace, if there is one *)
Fixpoint until_close (s : string) : option string :=
  match s with
  | EmptyString => None
  | String c r =>
      if Ascii.eqb c close_brace then Some EmptyString
      else match until_close r with
           | Some b => Some (String c b)
           | None => None
           end
  end.

(** [re.search] for an opening brace, one or more characters other than
    a closing brace, and a closing brace: the leftmost match *)
Fixpoint search_braces (s : string) : option string :=
  match s with
  | EmptyString => None
  | String c r =>
      if Ascii.eqb c open_brace then
        match until_close r with
        | Some (String b body) =>
            Some (String c (String b body ++ String close_brace EmptyString))
        | _ => search_braces r
        end
      else search_braces r
  end.

Definition single_quote : ascii := ascii_of_N 39.
Definition double_quote : ascii := ascii_of_N 34.

Definition fallback : string * json := ("CONTINUE", JStr "Parse fallback")%string.
Definition parse_error : string * json := ("CONTINUE", JStr "Parse error")%string.

Definition parse_response (text : string) : string * json :=
  match search_braces text with
  | Some m =>
      match loads (PyStr.replace_char single_quote double_quote m) with
      | Raise _ => parse_error
      | Ok (JObj data) =>
          match dict_get "action" data with
          | None => fallback
          | Some (JStr a) =>
              let action := PyStr.upper a in
              if PyStr.mem action ["CONTINUE"; "PAUSE"]%string then
                (action,
                 match dict_get "reason" data with
                 | Some r => r
                 | None => JStr ""
                 end)
              else fallback
          (* [.upper()] on a value that is not a string *)
          | Some _ => parse_error
          end
      (* never the case: the matched text starts with a brace, and such a
         text decodes to an object or not at all *)
      | Ok _ => parse_error
      end
  | None => fallback
  end.

(** *** [get_command] *)

(** what one request does: the text of the response, or [str(e)] of the
    exception raised; [strip()] only removes white space at both ends,
    which plays no part in [parse_response] *)
Inductive CallOutcome : Type :=
| Response (text : string)
| Failure (msg : string).

(** the remote endpoint: the outcome of the request number [i], sent
    with the given key and model *)
Definition Endpoint : Type := nat -> string -> string -> CallOutcome.

(** the [try] body up to [response.text] *)
Definition attempt (gemini : Endpoint) (i : nat) (st : Rotation)
  : CallOutcome :=
  match configure_gemini st with
  | Ok (k, m) => gemini i k m
  | Raise _ => Failure "list index out of range"
  end.

(** what the [except] clause decides *)
Inductive Handled : Type :=
| Retry (st : Rotation)
| Stop (r : string * json).

Definition retry (r : result Rotation) : result Handled :=
  rbind r (fun st => Ok (Retry st)).

Definition on_exception (st : Rotation) (msg : string) : result Handled :=
  if is_not_found msg then retry (rotate_model st)
  else if is_rate_limit msg then
    if Nat.ltb (current_model_idx st) (n_models - 1) then
      retry (rotate_model st)
    else if Nat.ltb (current_api_idx st) (n_keys - 1) then
      retry (rotate_api st)
    else Ok (Stop ("CONTINUE", JStr "All APIs exhausted")%string)
  else retry (rotate_model st).

(** The result of an evaluation and the rotation it leaves behind, with
    two observations on the run: the endpoints it tried, as (key index,
    model index) in order, and whether a request came back with a
    response. *)
Record Sweep : Type := {
  returned : result (string * json);
  final : Rotation;
  tried : list (nat * nat);
  answered : bool
}.

Definition here (st : Rotation) : nat * nat :=
  (current_api_idx st, current_model_idx st).

(** [for _ in range(n)], from request number [i] on *)
Fixpoint sweep (gemini : Endpoint) (n i : nat) (st : Rotation) : Sweep :=
  match n with
  | O => {| returned := Ok ("CONTINUE", JStr "Failed")%string;
            final := st; tried := []; answered := false |}
  | S n' =>
      match attempt gemini i st with
      | Response text =>
          {| returned := Ok (parse_response text);
             final := st; tried := [here st]; answered := true |}
      | Failure msg =>
          match on_exception st msg with
          | Raise e =>
              {| returned := Raise e; final := st; tried := [here st];
               answered := false |}
          | Ok (Stop r) =>
              {| returned := Ok r; final := st; tried := [here st];
               answered := false |}
          | Ok (Retry st') =>
              let s := sweep gemini n' (S i) st' in
              {| returned := returned s; final := final s;
                 tried := here st :: tried s; answered := answered s |}
          end
      end
  end.

Definition get_command (gemini : Endpoint) (st : Rotation) : Sweep :=
  let attempts := (n_keys * n_models)%nat in
  sweep gemini attempts 0 st.

(** *** Shapes of failures and runs used to state what a sweep does *)

(** the rotation at an endpoint, given as (key index, model index) *)
Definition rotation (e : nat * nat) : Rotation :=
  {| current_api_idx := fst e; current_model_idx := snd e |}.

(** a quota error at the last model of the last credential *)
Definition quota_at_last_endpoint (e : nat * nat) (msg : string) : Prop :=
  is_not_found msg = false /\ is_rate_limit msg = true /\
  (n_models - 1 <= snd e)%nat /\ (n_keys - 1 <= fst e)%nat.

(** a failure that is not a quota error: not found, or anything else *)
Definition not_quota (msg : string) : bool :=
  (is_not_found msg || negb (is_rate_limit msg))%bool.

(** the endpoints a sweep of [n] attempts tries when it walks round the
    models of one credential *)
Definition same_credential_trace (st : Rotation) (n : nat) : list (nat * nat) :=
  List.map
    (fun j =>
       (current_api_idx st, (current_model_idx st + j) mod n_models)%nat)
    (List.seq 0 n).

End Manager.

(** an endpoint on which every request fails with the same message *)
Definition always_failing (msg : string) : Endpoint :=
  fun _ _ _ => Failure msg.

(** an endpoint that answers every request with the same text *)
Definition always_answering (text : string) : Endpoint :=
  fun _ _ _ => Response text.

End GeminiManager.

(** ** services/quant_engine.py *)

Module QuantEngine.

Section Quant.

Context {num : Type} {NUM : PyNum num}.

(** a row of the feature dataframe *)
Record Row : Type := {
  Datetime : string;
  Close : num;
  High : num;
  Low : num;
  Volume : num;
  RSI : num;
  SMA : num
}.

(** the columns [feature_cols] of a row, in order *)
Definition features (r : Row) : list num :=
  [RSI r; SMA r; Close r; High r; Low r; Volume r].

(** [(Close.shift(-1) > Close).astype(int)]: the shifted column holds
    the next close, and NaN in the last row, where the comparison is
    false *)
Fixpoint target (closes : list num) : list Z :=
  match closes with
  | [] => []
  | c :: rest =>
      (match rest with
       | [] => 0
       | next :: _ => if num_lt c next then 1 else 0
       end) :: target rest
  end.

(** [df_train]: every row with its [Target], without the last one *)
Definition df_train (df : list Row) : list (Row * Z) :=
  List.removelast (List.combine df (target (List.map Close df))).

(** The classifier is the library's: [fit] on the training rows, then
    [predict] and [predict_proba] on one row give the class and the
    probability of that class. *)
Variable fit_predict : list (list num * Z) -> list num -> Z * num.
(** [round(x, ndigits)] *)
Variable round : num -> nat -> num.

(** the dictionary [train_and_predict] returns *)
Record Prediction : Type := {
  pred_timestamp : string;
  pred_signal : string;
  pred_confidence : num;
  pred_rsi : num
}.

Definition train_and_predict (df : list Row) : option Prediction :=
  let train := df_train df in
  if Nat.ltb (List.length train) 50 then None
  else
    match List.last (List.map Some df) None with
    | None => None
    | Some latest =>
        let X_y := List.map (fun r => (features (fst r), snd r)) train in
        let (pred, proba) := fit_predict X_y (features latest) in
        Some {| pred_timestamp := Datetime latest;
                pred_signal := if pred =? 1 then "BUY" else "SELL";
                pred_confidence := round proba 4;
                pred_rsi := round (RSI latest) 2 |}
    end.

(** a bar whose prices are all [c], as [load_market_data] builds them *)
Definition bar (of_int : Z -> num) (t : string) (c : Z) : Row :=
  {| Datetime := t; Close := of_int c; High := of_int c; Low := of_int c;
     Volume := of_int 0; RSI := of_int 50; SMA := of_int c |}.

End Quant.

End QuantEngine.

(** ** db_client.py *)

Module DbClient.

Section Client.

Context {num : Type} {NUM : PyNum num}.

(** a row of table [market_data]; the time stamp is the instant the text
    column denotes *)
Record MarketRow : Type := {
  md_timestamp : Z;
  md_symbol : string;
  md_price : num;
  md_volume : num
}.

(** a row of table [trade_logs]: the clock reading and the trade *)
Record TradeRow : Type := {
  tl_timestamp : string;
  tl_trade : ExecutionEngine.Trade num
}.

(** the row of table [manager_status] *)
Record StatusRow : Type := {
  ms_action : string;
  ms_reason : option string;
  ms_timestamp : option string
}.

(** The four tables.  [portfolio] and [manager_status] hold at most the
    one row with [id = 1]. *)
Record Tables : Type := {
  market_data : list MarketRow;
  trade_logs : list TradeRow;
  portfolio : option (ExecutionEngine.Portfolio num);
  manager_status : option StatusRow
}.

(** [config.INITIAL_BALANCE] *)
Variable INITIAL_BALANCE : num.

(** [init_db]: the tables exist; each single-row table gets its row when
    it has none.  [now] is the clock reading. *)
Definition init_db (now : string) (t : Tables) : Tables :=
  {| market_data := market_data t;
     trade_logs := trade_logs t;
     portfolio :=
       match portfolio t with
       | Some row => Some row
       | None =>
           Some {| ExecutionEngine.balance := INITIAL_BALANCE;
                   ExecutionEngine.positions := 0;
                   ExecutionEngine.last_trade_time := None |}
       end;
     manager_status :=
       match manager_status t with
       | Some row => Some row
       | None =>
           Some {| ms_action := "CONTINUE"; ms_reason := None;
                   ms_timestamp := Some now |}
       end |}.

(** [LIMIT ?]: a negative bound is no bound *)
Definition sql_limit {A : Type} (limit : Z) (rows : list A) : list A :=
  if limit <? 0 then rows else List.firstn (Z.to_nat limit) rows.

(** [ORDER BY id DESC LIMIT ?], then [iloc[::-1]] *)
Definition newest {A : Type} (limit : Z) (rows : list A) : list A :=
  List.rev (sql_limit limit (List.rev rows)).

(** a symbol is used as a filter when it is given and not empty *)
Definition symbol_filter (symbol : option string) (r : MarketRow) : bool :=
  match symbol with
  | Some s => if String.eqb s "" then true else String.eqb (md_symbol r) s
  | None => true
  end.

Definition log_price (now : Z) (symbol : string) (price volume : num)
    (t : Tables) : Tables :=
  {| market_data :=
       market_data t ++
       [{| md_timestamp := now; md_symbol := symbol;
           md_price := price; md_volume := volume |}];
     trade_logs := trade_logs t;
     portfolio := portfolio t;
     manager_status := manager_status t |}.

Definition get_latest_prices (limit : Z) (symbol : option string)
    (t : Tables) : list MarketRow :=
  newest limit (List.filter (symbol_filter symbol) (market_data t)).

Definition get_portfolio (t : Tables) : ExecutionEngine.Portfolio num :=
  match portfolio t with
  | Some row => row
  | None =>
      {| ExecutionEngine.balance := INITIAL_BALANCE;
         ExecutionEngine.positions := 0;
         ExecutionEngine.last_trade_time := None |}
  end.

(** What the store keeps of a Python value the driver binds to a column.
    The driver is not part of the repository: [int_column z] is what an
    INTEGER column holds after the integer [z] was bound to it, and
    [None] when the driver refuses [z]; [text_column v] is the same for a
    TEXT column and a value [v] that is neither a string nor [None].  A
    refused value fails the statement. *)
Variable int_column : Z -> option Z.
Variable text_column : Json.json -> option (option string).

Definition bind_text (v : Json.json) : option (option string) :=
  match v with
  | Json.JNull => Some None
  | Json.JStr s => Some (Some s)
  | _ => text_column v
  end.

(** [UPDATE portfolio ... WHERE id = 1]; [last_trade_time] is whatever the
    caller passes, [JNull] standing for [None] *)
Definition update_portfolio (b : num) (p : Z) (last_trade_time : Json.json)
    (t : Tables) : Tables :=
  match portfolio t, int_column p, bind_text last_trade_time with
  | Some _, Some p', Some text =>
      {| market_data := market_data t;
         trade_logs := trade_logs t;
         portfolio :=
           Some {| ExecutionEngine.balance := b;
                   ExecutionEngine.positions := p';
                   ExecutionEngine.last_trade_time := text |};
         manager_status := manager_status t |}
  | _, _, _ => t
  end.

Definition log_trade (now : string) (action : string) (price : num)
    (quantity : Z) (b : num) (t : Tables) : Tables :=
  match int_column quantity with
  | Some q =>
      {| market_data := market_data t;
         trade_logs :=
           trade_logs t ++
           [{| tl_timestamp := now;
               tl_trade :=
                 {| ExecutionEngine.trade_action := action;
                    ExecutionEngine.trade_price := price;
                    ExecutionEngine.trade_quantity := q;
                    ExecutionEngine.trade_balance := b |} |}];
         portfolio := portfolio t;
         manager_status := manager_status t |}
  | None => t
  end.

Definition get_recent_trades (limit : Z) (t : Tables) : list TradeRow :=
  newest limit (trade_logs t).

Definition get_manager_status (t : Tables) : string :=
  match manager_status t with
  | Some row => PyStr.upper (ms_action row)
  | None => "CONTINUE"
  end.

Definition get_manager_status_full (t : Tables) : StatusRow :=
  match manager_status t with
  | Some row =>
      {| ms_action := PyStr.upper (ms_action row);
         ms_reason := ms_reason row; ms_timestamp := ms_timestamp row |}
  | None =>
      {| ms_action := "CONTINUE"; ms_reason := None; ms_timestamp := None |}
  end.

(** [UPDATE manager_status ... WHERE id = 1] *)
Definition set_manager_status (now : string) (action : string)
    (reason : option string) (t : Tables) : Tables :=
  {| market_data := market_data t;
     trade_logs := trade_logs t;
     portfolio := portfolio t;
     manager_status :=
       match manager_status t with
       | Some _ =>
           Some {| ms_action := PyStr.upper action; ms_reason := reason;
                   ms_timestamp := Some now |}
       | None => None
       end |}.

(** The database as the execution engine sees it, once both single rows
    exist: the price column, the trades without their clock readings, the
    portfolio row and the manager's action and reason. *)
Definition engine_view (t : Tables) : option (ExecutionEngine.TradingDB num) :=
  match portfolio t, manager_status t with
  | Some pf, Some ms =>
      Some {| ExecutionEngine.market_data := List.map md_price (market_data t);
              ExecutionEngine.trade_logs := List.map tl_trade (trade_logs t);
              ExecutionEngine.portfolio := pf;
              ExecutionEngine.manager_status :=
                {| ExecutionEngine.status_action := ms_action ms;
                   ExecutionEngine.status_reason := ms_reason ms |} |}
  | _, _ => None
  end.

End Client.

Arguments MarketRow num : clear implicits.
Arguments TradeRow num : clear implicits.
Arguments Tables num : clear implicits.

(** a database whose tables have just been created *)
Definition empty {num : Type} : Tables num :=
  {| market_data := []; trade_logs := [];
     portfolio := None; manager_status := None |}.

End DbClient.

(** ** services/quant_engine.py: loading and warming up the data *)

Module QuantData.

Section Data.

Context {num : Type} {NUM : PyNum num}.

(** a row of the price dataframe; [Datetime] is an instant *)
Record Candle : Type := {
  Datetime : Z;
  Open : num;
  High : num;
  Low : num;
  Close : num;
  Volume : num
}.

(** [config.SYMBOL] and [config.MIN_TRAINING_ROWS] *)
Variable SYMBOL : string.
Variable MIN_TRAINING_ROWS : Z.

Definition candle_of_row (r : DbClient.MarketRow num) : Candle :=
  {| Datetime := DbClient.md_timestamp r;
     Open := DbClient.md_price r;
     High := DbClient.md_price r;
     Low := DbClient.md_price r;
     Close := DbClient.md_price r;
     Volume := DbClient.md_volume r |}.

Definition load_market_data (t : DbClient.Tables num) : option (list Candle) :=
  match DbClient.get_latest_prices 500 (Some SYMBOL) t with
  | [] => None
  | rows => Some (List.map candle_of_row rows)
  end.

(** [drop_duplicates(subset=['Datetime'], keep='last')] *)
Fixpoint drop_duplicates_last (l : list Candle) : list Candle :=
  match l with
  | [] => []
  | x :: r =>
      if List.existsb (fun y => Datetime y =? Datetime x) r
      then drop_duplicates_last r
      else x :: drop_duplicates_last r
  end.

(** [sort_values('Datetime')], by insertion; the keys are distinct where
    the service sorts, so every sorting algorithm gives this list *)
Fixpoint insert_by_time (x : Candle) (l : list Candle) : list Candle :=
  match l with
  | [] => [x]
  | y :: r =>
      if Datetime x <=? Datetime y then x :: y :: r
      else y :: insert_by_time x r
  end.

Fixpoint sort_values (l : list Candle) : list Candle :=
  match l with
  | [] => []
  | x :: r => insert_by_time x (sort_values r)
  end.

(** [warmup_data]; [history] is what the download of the last seven days
    gives, after its columns are renamed and selected: the candles, or
    the exception raised on the way *)
Definition warmup_data (history : result (list Candle))
    (df : option (list Candle)) : option (list Candle) :=
  let current_len :=
    match df with
    | Some d => Z.of_nat (List.length d)
    | None => 0
    end in
  if MIN_TRAINING_ROWS <=? current_len then df
  else
    match history with
    | Raise _ => df
    | Ok [] => df
    | Ok hist =>
        match df with
        | Some ((_ :: _) as d) =>
            Some (sort_values (drop_duplicates_last (hist ++ d)))
        | _ => Some hist
        end
    end.

(** [engineer_features] is the indicator library's work followed by
    [dropna]: the rows that are left, with their RSI and SMA; it may
    raise *)
Variable engineer_features : list Candle -> result (list (@QuantEngine.Row num)).
Variable fit_predict : list (list num * Z) -> list num -> Z * num.
Variable round : num -> nat -> num.

(** The body of [try:] in [run], under its handler: what the signal file
    holds after a pass, given what it held before. *)
Definition cycle (t : DbClient.Tables num) (history : result (list Candle))
    (file : option (@QuantEngine.Prediction num))
  : option (@QuantEngine.Prediction num) :=
  match load_market_data t with
  | None => file
  | Some df =>
      match warmup_data history (Some df) with
      | None => file
      | Some df =>
          if Nat.ltb (List.length df) 50 then file
          else
            match engineer_features df with
            | Raise _ => file
            | Ok feats =>
                if Nat.ltb (List.length feats) 50 then file
                else
                  match QuantEngine.train_and_predict fit_predict round feats with
                  | Some signal => Some signal
                  | None => file
                  end
            end
      end
  end.

End Data.

Arguments Candle num : clear implicits.

(** a candle at instant [t] whose prices are all [c] *)
Definition flat {num : Type} (of_int : Z -> num) (t c : Z) : Candle num :=
  {| Datetime := t; Open := of_int c; High := of_int c; Low := of_int c;
     Close := of_int c; Volume := of_int 0 |}.

End QuantData.

(** ** services/market_feeder.py *)

Module MarketFeeder.

Section Feeder.

Context {num : Type} {NUM : PyNum num}.

(** [config.SYMBOL] *)
Variable SYMBOL : string.

(** The body of [try:] in [run], under its handler.  [candle] is what
    [fetch_latest_candle] gives: the rounded close and the volume of the
    latest candle, nothing when the download is empty, or the exception
    raised on the way; [now] is the clock reading. *)
Definition cycle (now : Z) (candle : result (option (num * num)))
    (t : DbClient.Tables num) : DbClient.Tables num :=
  match candle with
  | Ok (Some (price, volume)) => DbClient.log_price now SYMBOL price volume t
  | Ok None => t
  | Raise _ => t
  end.

End Feeder.

End MarketFeeder.

(** ** services/execution_engine.py: the effect of a pass *)

Module PassEffects.

Section Effects.

Import ExecutionEngine.

Context {num : Type} {NUM : PyNum num}.

(** What one pass does to the database: nothing; or one BUY; or one SELL.
    A pass that ends in the [except] clause is of the first kind, and the
    exception comes from the sizing arithmetic of an order. *)
Inductive PassEffect (sig : option Signal) (db : TradingDB num)
  : CycleResult * TradingDB num -> Prop :=
| pass_quiet r :
    (forall e, r = ERROR e ->
       exists p, latest_price db = Some p /\ num_truthy p = true /\
         (num_floordiv (balance (portfolio db)) p = Raise e \/
          (exists q, num_int q = Raise e) \/
          (exists z, num_of_int z = Raise e))) ->
    PassEffect sig db (r, db)
| pass_buy sg p q qty fqty :
    sig = Some sg -> signal sg = Some "BUY"%string ->
    latest_price db = Some p -> num_truthy p = true ->
    num_lt p (balance (portfolio db)) = true ->
    num_le (balance (portfolio db)) p = false ->
    num_floordiv (balance (portfolio db)) p = Ok q ->
    num_int q = Ok qty -> num_of_int qty = Ok fqty ->
    PassEffect sig db
      (ACTING,
       after_trade db "BUY" p qty
         (num_sub (balance (portfolio db)) (num_mul fqty p))
         (positions (portfolio db) + qty) (timestamp sg))
| pass_sell sg p fpos :
    sig = Some sg -> signal sg = Some "SELL"%string ->
    latest_price db = Some p -> num_truthy p = true ->
    0 < positions (portfolio db) ->
    num_of_int (positions (portfolio db)) = Ok fpos ->
    PassEffect sig db
      (ACTING,
       after_trade db "SELL" p (positions (portfolio db))
         (num_add (balance (portfolio db)) (num_mul fpos p))
         0 (timestamp sg)).

End Effects.

End PassEffects.

(** ** services/execution_engine.py over the client of db_client.py

    Module [ExecutionEngine] is the pass of the service when every call
    of the client goes through and the signal file is as
    [quant_engine.save_signal] writes it.  This module is the same pass
    without these two assumptions.  The store is remote: a statement can
    fail, and [db_client.py] then catches the exception and answers its
    default, which the service takes for the answer of the store.  The
    signal file can hold any JSON value. *)

Module ExecutionPass.

Import Json.

(** the statements of the client that fail during one pass *)
Record Faults : Type := {
  get_portfolio_fails : bool;
  get_latest_prices_fails : bool;
  get_manager_status_fails : bool;
  log_trade_fails : bool;
  update_portfolio_fails : bool
}.

(** a pass during which the store answers every statement *)
Definition no_fault : Faults :=
  {| get_portfolio_fails := false; get_latest_prices_fails := false;
     get_manager_status_fails := false; log_trade_fails := false;
     update_portfolio_fails := false |}.

(** *** Python values read from the signal file *)

(** the value of a string of decimal digits *)
Fixpoint digits_value (acc : Z) (s : string) : Z :=
  match s with
  | EmptyString => acc
  | String c r => digits_value (10 * acc + (Z.of_nat (nat_of_ascii c) - 48)) r
  end.

(** the parts of a number lexeme: whether it has a minus sign, the
    digits before the dot, the digits after it, and the exponent; [None]
    for the lexemes [NaN], [Infinity] and [-Infinity] *)
Definition number_parts (lex : string)
  : option (bool * string * string * option Z) :=
  let (neg, body) :=
    match lex with
    | String "-"%char r => (true, r)
    | _ => (false, lex)
    end in
  match span_digits body with
  | (EmptyString, _) => None
  | (i, r1) =>
      let (fr, r2) :=
        match r1 with
        | String "."%char r => span_digits r
        | _ => (EmptyString, r1)
        end in
      let ex :=
        match r2 with
        | String _ (String "-"%char d) => Some (- digits_value 0 d)
        | String _ (String "+"%char d) => Some (digits_value 0 d)
        | String _ d => Some (digits_value 0 d)
        | EmptyString => None
        end in
      Some (neg, i, fr, ex)
  end.

(** a lexeme without fraction and exponent is decoded to an [int] *)
Definition int_of_lexeme (lex : string) : option Z :=
  match number_parts lex with
  | Some (neg, i, EmptyString, None) =>
      Some (if neg then - digits_value 0 i else digits_value 0 i)
  | _ => None
  end.

(** whether the number decoded from [lex] is zero: an integer when it is
    0, a float when the decimal is at most 2^-1075 in magnitude, which is
    where the nearest double is zero *)
Definition number_is_zero (lex : string) : bool :=
  match number_parts lex with
  | None => false
  | Some (_, i, EmptyString, None) => digits_value 0 i =? 0
  | Some (_, i, fr, ex) =>
      let d := digits_value 0 (i ++ fr) in
      let k := match ex with Some e => e | None => 0 end
               - Z.of_nat (String.length fr) in
      ((d =? 0) || ((k <? 0) && (d * 2 ^ 1075 <=? 10 ^ (- k))))%bool
  end.

(** [bool(v)] *)
Definition truthy (v : json) : bool :=
  match v with
  | JNull => false
  | JBool b => b
  | JNum lex => negb (number_is_zero lex)
  | JStr s => negb (String.eqb s "")
  | JArr items => match items with [] => false | _ => true end
  | JObj members => match members with [] => false | _ => true end
  end.

(** [d.get(k)], with [JNull] for [None], and [d.get(k, default)] *)
Definition get_or (k : string) (default : json) (d : list (string * json))
  : json :=
  match dict_get k d with
  | Some v => v
  | None => default
  end.

Definition get (k : string) (d : list (string * json)) : json :=
  get_or k JNull d.

(** [v == t] for a value of the signal file and a TEXT column read from
    the store *)
Definition eq_text (v : json) (t : option string) : bool :=
  match v, t with
  | JNull, None => true
  | JStr s, Some x => String.eqb s x
  | _, _ => false
  end.

(** [v == w] for a string literal [w] *)
Definition eq_word (v : json) (w : string) : bool :=
  match v with
  | JStr s => String.eqb s w
  | _ => false
  end.

Section Pass.

Context {num : Type} {NUM : PyNum num}.

(** [config.INITIAL_BALANCE], and the driver of the store *)
Variable INITIAL_BALANCE : num.
Variable int_column : Z -> option Z.
Variable text_column : json -> option (option string).

(** the statements that fail during this pass, and the clock *)
Variable faults : Faults.
Variable now : string.

Definition M (A : Type) : Type :=
  DbClient.Tables num -> result A * DbClient.Tables num.

Definition ret {A : Type} (a : A) : M A := fun t => (Ok a, t).

Definition bind {A B : Type} (m : M A) (k : A -> M B) : M B :=
  fun t =>
    match m t with
    | (Ok a, t') => k a t'
    | (Raise e, t') => (Raise e, t')
    end.

Definition lift {A : Type} (r : result A) : M A := fun t => (r, t).

Notation "x <- m ;; k" := (bind m (fun x => k))
  (at level 61, m at next level, right associativity).

(** *** The calls of the client, with their [except] branches *)

Definition get_portfolio : M (ExecutionEngine.Portfolio num) :=
  fun t =>
    (Ok (if get_portfolio_fails faults
         then {| ExecutionEngine.balance := INITIAL_BALANCE;
                 ExecutionEngine.positions := 0;
                 ExecutionEngine.last_trade_time := None |}
         else DbClient.get_portfolio INITIAL_BALANCE t),
     t).

(** [get_latest_prices(limit=1)] answers an empty frame when it fails *)
Definition latest_rows (t : DbClient.Tables num)
  : list (DbClient.MarketRow num) :=
  if get_latest_prices_fails faults then []
  else DbClient.get_latest_prices 1 None t.

Definition current_price (t : DbClient.Tables num) : option num :=
  List.last (List.map (fun r => Some (DbClient.md_price r)) (latest_rows t))
            None.

Definition get_current_price : M (option num) :=
  fun t => (Ok (current_price t), t).

Definition manager_action (t : DbClient.Tables num) : string :=
  if get_manager_status_fails faults then "CONTINUE"
  else DbClient.get_manager_status t.

Definition get_manager_status : M string :=
  fun t => (Ok (manager_action t), t).

(** the answer [False] of a failed write is ignored by the orders *)
Definition log_trade (action : string) (price : num) (quantity : Z)
    (b : num) : M unit :=
  fun t =>
    (Ok tt,
     if log_trade_fails faults then t
     else DbClient.log_trade int_column now action price quantity b t).

Definition update_portfolio (b : num) (p : Z) (last_trade_time : json)
  : M unit :=
  fun t =>
    (Ok tt,
     if update_portfolio_fails faults then t
     else DbClient.update_portfolio int_column text_column b p
            last_trade_time t).

(** *** The orders *)

Definition execute_buy (balance : num) (positions : Z) (price : num)
    (timestamp : json) : M (num * Z * bool) :=
  if num_le balance price then ret (balance, positions, false)
  else
    q <- lift (num_floordiv balance price) ;;
    qty <- lift (num_int q) ;;
    fqty <- lift (num_of_int qty) ;;
    let cost := num_mul fqty price in
    let new_balance := num_sub balance cost in
    let new_positions := positions + qty in
    _ <- log_trade "BUY" price qty new_balance ;;
    _ <- update_portfolio new_balance new_positions timestamp ;;
    ret (new_balance, new_positions, true).

Definition execute_sell (balance : num) (positions : Z) (price : num)
    (timestamp : json) : M (num * Z * bool) :=
  if positions <=? 0 then ret (balance, positions, false)
  else
    fpos <- lift (num_of_int positions) ;;
    let revenue := num_mul fpos price in
    let new_balance := num_add balance revenue in
    _ <- log_trade "SELL" price positions new_balance ;;
    _ <- update_portfolio new_balance 0 timestamp ;;
    ret (new_balance, 0, true).

(** *** One pass of the service loop *)

(** the format specification [.1%] of the status line: an [int] is
    converted to a float first, a string and [None] have no such format *)
Definition format_percent (confidence : json) : result unit :=
  match confidence with
  | JNum lex =>
      match int_of_lexeme lex with
      | Some z => rbind (num_of_int z) (fun _ => Ok tt)
      | None => Ok tt
      end
  | JBool _ => Ok tt
  | JStr _ => Raise ValueError
  | JNull | JArr _ | JObj _ => Raise TypeError
  end.

(** the portfolio value and the status line computed after the orders:
    console output, unless they raise *)
Definition status_line (balance : num) (positions : Z) (price : num)
    (confidence : json) : result unit :=
  rbind (num_of_int positions) (fun fpos =>
  let total := num_add balance (num_mul fpos price) in
  format_percent confidence).

(** the body of [try:] in [run]; [loaded] is what [load_signal] does:
    it raises, or returns [None] when there is no file, or returns the
    value decoded from the file *)
Definition cycle (loaded : result (option json))
  : M ExecutionEngine.CycleResult :=
  pf <- get_portfolio ;;
  let balance := ExecutionEngine.balance pf in
  let positions := ExecutionEngine.positions pf in
  let last_trade := ExecutionEngine.last_trade_time pf in
  signal <- lift loaded ;;
  price <- get_current_price ;;
  match signal, price with
  | Some signal, Some price =>
      if (negb (truthy signal) || negb (num_truthy price))%bool
      then ret ExecutionEngine.IDLE
      else
        match signal with
        | JObj data =>
            let sig_type := get "signal" data in
            let sig_time := get "timestamp" data in
            let confidence := get_or "confidence" (JNum "0") data in
            if eq_text sig_time last_trade
            then ret ExecutionEngine.STALE_SIGNAL
            else
              action <- get_manager_status ;;
              if String.eqb action "PAUSE" then ret ExecutionEngine.GATED
              else
                r <- (if (eq_word sig_type "BUY"
                          && num_lt price balance)%bool
                      then execute_buy balance positions price sig_time
                      else if (eq_word sig_type "SELL"
                               && (0 <? positions))%bool
                      then execute_sell balance positions price sig_time
                      else ret (balance, positions, false)) ;;
                _ <- lift (status_line (fst (fst r)) (snd (fst r)) price
                             confidence) ;;
                ret ExecutionEngine.ACTING
        (* a value without a method [get] *)
        | _ => lift (Raise AttributeError)
        end
  | _, _ => ret ExecutionEngine.IDLE
  end.

(** one iteration of [while True]: the [try] body under its handler *)
Definition run_cycle (loaded : result (option json))
    (t : DbClient.Tables num)
  : ExecutionEngine.CycleResult * DbClient.Tables num :=
  match cycle loaded t with
  | (Ok r, t') => (r, t')
  | (Raise e, t') => (ExecutionEngine.ERROR e, t')
  end.

(** *** Shapes of the store used to state what a pass does *)

(** the store after the two writes of an order, each of them lost when
    its statement fails *)
Definition after_order (t : DbClient.Tables num) (action : string)
    (price : num) (qty : Z) (new_balance : num) (new_positions : Z)
    (timestamp : json) : DbClient.Tables num :=
  snd (update_portfolio new_balance new_positions timestamp
         (snd (log_trade action price qty new_balance t))).

(** what [run] makes of an order: the status line, then the end of the
    [try] body *)
Definition finish (price : num) (confidence : json)
    (r : result (num * Z * bool) * DbClient.Tables num)
  : ExecutionEngine.CycleResult * DbClient.Tables num :=
  match r with
  | (Ok (b, pos, _), t') =>
      match status_line b pos price confidence with
      | Ok _ => (ExecutionEngine.ACTING, t')
      | Raise e => (ExecutionEngine.ERROR e, t')
      end
  | (Raise e, t') => (ExecutionEngine.ERROR e, t')
  end.

End Pass.

(** a driver that keeps an integer as it is *)
Definition exact_column (z : Z) : option Z := Some z.

(** *** The pass of [ExecutionEngine] as a case of this one *)

(** the string a value is, [None] for a value that is not a string *)
Definition text_of (v : json) : option string :=
  match v with
  | JStr s => Some s
  | _ => None
  end.

(** a string or [None] *)
Definition is_text (v : json) : bool :=
  match v with
  | JStr _ | JNull => true
  | _ => false
  end.

(** the signal dictionary as [ExecutionEngine] takes it *)
Definition engine_signal (data : list (string * json))
  : ExecutionEngine.Signal :=
  {| ExecutionEngine.signal := text_of (get "signal" data);
     ExecutionEngine.timestamp := text_of (get "timestamp" data) |}.

(** a driver that passes an integer as the nearest double, and refuses
    it when there is none; it is used where a statement needs a driver
    at hand *)
Definition as_double (z : Z) : option Z :=
  match Binary64.float_of_int z with
  | Ok f =>
      match Binary64.float_int f with
      | Ok z' => Some z'
      | Raise _ => None
      end
  | Raise _ => None
  end.

(** a driver that refuses every value for a TEXT column other than a
    string and [None] *)
Definition text_only (v : json) : option (option string) := None.

(** the signal file as [quant_engine.save_signal] writes it *)
Definition signal_file (decision time : string) (confidence : string)
  : json :=
  JObj [("timestamp", JStr time); ("signal", JStr decision);
        ("confidence", JNum confidence); ("rsi", JNum "50.0")]%string.

(** a store after [init_db] holding the given prices, oldest first, the
    given portfolio row and the given manager action *)
Definition store {num : Type} {NUM : PyNum num} (prices : list num) (b : num)
    (pos : Z) (last : option string) (action : string)
  : DbClient.Tables num :=
  {| DbClient.market_data :=
       List.map
         (fun p => {| DbClient.md_timestamp := 0;
                      DbClient.md_symbol := "TATASTEEL.NS";
                      DbClient.md_price := p;
                      DbClient.md_volume := num_zero |})
         prices;
     DbClient.trade_logs := [];
     DbClient.portfolio :=
       Some {| ExecutionEngine.balance := b;
               ExecutionEngine.positions := pos;
               ExecutionEngine.last_trade_time := last |};
     DbClient.manager_status :=
       Some {| DbClient.ms_action := action; DbClient.ms_reason := None;
               DbClient.ms_timestamp := None |} |}.

End ExecutionPass.

(** * Properties *)

(** ** Upper case *)

Section UpperCase.

Import PyStr.

Lemma upper_ascii_high (c : ascii) :
  (128 <= nat_of_ascii (upper_ascii c))%nat -> upper_ascii c = c.
Proof.
  unfold upper_ascii, is_lower_ascii.
  destruct (Nat.leb_spec 97 (nat_of_ascii c)); [|reflexivity].
  destruct (Nat.leb_spec (nat_of_ascii c) 122); [|reflexivity].
  cbn [andb]. rewrite nat_ascii_embedding by lia. lia.
Qed.

Lemma upper_upper_ascii (c : ascii) :
  upper_ascii (upper_ascii c) = upper_ascii c.
Proof. destruct c as [[] [] [] [] [] [] [] []]; reflexivity. Qed.

Lemma upper_of_2_high x y w :
  upper_of_2 x y = Some w -> (128 <= x /\ 128 <= y)%nat.
Proof.
  unfold upper_of_2.
  repeat match goal with
         | |- context [(Nat.eqb ?a ?b && Nat.eqb ?c ?d)%bool] =>
             destruct (Nat.eqb_spec a b), (Nat.eqb_spec c d); cbn [andb]
         end; intros; try discriminate; lia.
Qed.

Lemma upper_of_3_high x y z w :
  upper_of_3 x y z = Some w -> (128 <= x /\ 128 <= y /\ 128 <= z)%nat.
Proof.
  unfold upper_of_3.
  destruct (Nat.eqb_spec x 239), (Nat.eqb_spec y 172); cbn [andb];
    try discriminate.
  repeat match goal with
         | |- context [Nat.eqb ?a ?b] => destruct (Nat.eqb_spec a b)
         end; intros; try discriminate; lia.
Qed.

(** the upper case of a special code point is a word of ASCII capitals *)
Lemma upper_special_word s w n :
  upper_special s = Some (w, n) ->
  (exists c w', w = String c w' /\ (nat_of_ascii c < 128)%nat) /\
  forall t, upper_from 0 (w ++ t) = w ++ upper_from 0 t.
Proof.
  destruct s as [|a [|b r]]; try discriminate. unfold upper_special.
  assert (Hw : forall w0 : string,
             In w0 ["SS"; "I"; "S"; "FF"; "FI"; "FL"; "FFI"; "FFL"; "ST"] ->
             (exists c w', w0 = String c w' /\ (nat_of_ascii c < 128)%nat) /\
             forall t, upper_from 0 (w0 ++ t) = w0 ++ upper_from 0 t).
  { intros w0 Hin. cbn [In] in Hin.
    repeat (destruct Hin as [<-|Hin];
            [split; [eexists; eexists; split;
                     [reflexivity | vm_compute; lia]
                    | intros t; destruct t as [|? [|? ?]]; reflexivity]|]).
    contradiction. }
  destruct (upper_of_2 _ _) as [w2|] eqn:E2.
  - intros H. injection H as <- <-. apply Hw. unfold upper_of_2 in E2.
    repeat match type of E2 with
           | (if ?c then _ else _) = _ => destruct c
           end; try discriminate; injection E2 as <-; cbn [In]; auto 10.
  - destruct r as [|c r]; [discriminate|].
    destruct (upper_of_3 _ _ _) as [w3|] eqn:E3; [|discriminate].
    intros H. injection H as <- <-. apply Hw. unfold upper_of_3 in E3.
    repeat match type of E3 with
           | (if ?c then _ else _) = _ => destruct c
           end; try discriminate; injection E3 as <-; cbn [In]; auto 10.
Qed.

(** a byte beyond ASCII at the head of an upper case is a byte of the
    string itself, and no special code point starts there *)
Lemma upper_from_high_head r c u :
  upper_from 0 r = String c u -> (128 <= nat_of_ascii c)%nat ->
  exists r1, r = String c r1 /\ upper_special r = None /\ u = upper_from 0 r1.
Proof.
  destruct r as [|b r1]; [discriminate|]. cbn [upper_from].
  destruct (upper_special (String b r1)) as [[w n]|] eqn:E.
  - destruct (upper_special_word _ _ _ E) as [(c0 & w' & -> & Hc0) _].
    cbn [String.append]. intros H Hc. injection H as -> _. lia.
  - intros H Hc. injection H as Hb Hu. subst c.
    rewrite (upper_ascii_high b Hc). exists r1. auto.
Qed.

Lemma upper_special_stable a r :
  upper_special (String a r) = None ->
  upper_special (String (upper_ascii a) (upper_from 0 r)) = None.
Proof.
  intros Hnone.
  destruct (upper_special (String (upper_ascii a) (upper_from 0 r)))
    as [[w n]|] eqn:E; [exfalso|reflexivity].
  unfold upper_special in E.
  destruct (upper_from 0 r) as [|b' u] eqn:Hu; [discriminate|].
  destruct (upper_of_2 (nat_of_ascii (upper_ascii a)) (nat_of_ascii b'))
    as [w2|] eqn:E2.
  - destruct (upper_of_2_high _ _ _ E2) as [Ha Hb].
    rewrite (upper_ascii_high a Ha) in E2.
    destruct (upper_from_high_head r b' u Hu Hb) as (r1 & -> & _ & _).
    unfold upper_special in Hnone. rewrite E2 in Hnone. discriminate.
  - destruct u as [|c' u']; [discriminate|].
    destruct (upper_of_3 _ _ _) as [w3|] eqn:E3; [|discriminate].
    destruct (upper_of_3_high _ _ _ _ E3) as (Ha & Hb & Hc).
    rewrite (upper_ascii_high a Ha) in E3, E2.
    destruct (upper_from_high_head r b' _ Hu Hb) as (r1 & -> & _ & Hu1).
    symmetry in Hu1.
    destruct (upper_from_high_head r1 c' u' Hu1 Hc) as (r2 & -> & _ & _).
    unfold upper_special in Hnone. rewrite E2, E3 in Hnone. discriminate.
Qed.

Lemma upper_from_upper_from (s : string) : forall k,
  upper_from 0 (upper_from k s) = upper_from k s.
Proof.
  induction s as [|a r IH]; intros k; [reflexivity|].
  destruct k as [|k]; [|apply IH].
  cbn [upper_from].
  destruct (upper_special (String a r)) as [[w n]|] eqn:E.
  - destruct (upper_special_word _ _ _ E) as [_ Hw]. now rewrite Hw, IH.
  - cbn [upper_from]. rewrite (upper_special_stable a r E).
    now rewrite upper_upper_ascii, IH.
Qed.

Lemma upper_upper (s : string) : upper (upper s) = upper s.
Proof. apply upper_from_upper_from. Qed.

(** on ASCII strings [upper] is the upper case letter by letter *)
Lemma upper_ascii_string (s : string) :
  forallb (fun c => (nat_of_ascii c <? 128)%nat) (list_ascii_of_string s) = true ->
  upper s = map_string upper_ascii s.
Proof.
  unfold upper. induction s as [|a r IH]; [reflexivity|].
  cbn [list_ascii_of_string forallb]. intros H.
  apply andb_true_iff in H. destruct H as [Ha Hr]. apply Nat.ltb_lt in Ha.
  cbn [upper_from map_string].
  assert (E : upper_special (String a r) = None).
  { unfold upper_special. destruct r as [|b r']; [reflexivity|].
    destruct (upper_of_2 _ _) as [w|] eqn:E2.
    - apply upper_of_2_high in E2. lia.
    - destruct r' as [|c r'']; [reflexivity|].
      destruct (upper_of_3 _ _ _) as [w|] eqn:E3; [|reflexivity].
      apply upper_of_3_high in E3. lia. }
  rewrite E. now rewrite IH.
Qed.

End UpperCase.


(** ** The execution engine, for any arithmetic *)

Section ExecutionProperties.

Import ExecutionEngine.

Context {num : Type} {NUM : PyNum num}.

Implicit Types (db : TradingDB num) (sig : option Signal) (sg : Signal).

(** the pass runs the [try] body to its end unless an exception escapes *)
Ltac run_body :=
  unfold run_cycle, cycle, bind, ret, lift, get_portfolio, get_current_price,
    get_manager_status.

(** A pass that finds no usable price is idle and writes nothing. *)
Lemma run_cycle_no_price sig db :
  match latest_price db with
  | Some p => num_truthy p = false
  | None => True
  end ->
  run_cycle sig db = (IDLE, db).
Proof.
  run_body. intros Hp.
  destruct sig as [sg|]; destruct (latest_price db) as [p|]; try reflexivity.
  rewrite Hp. reflexivity.
Qed.

(** A pass that finds no signal file is idle and writes nothing. *)
Lemma run_cycle_no_signal db : run_cycle None db = (IDLE, db).
Proof.
  run_body. destruct (latest_price db); reflexivity.
Qed.

(** With a price at hand, a signal whose time stamp is the stored one ends
    the pass in the anti-spam branch. *)
Lemma run_cycle_stale sg db p :
  latest_price db = Some p -> num_truthy p = true ->
  timestamp sg = last_trade_time (portfolio db) ->
  run_cycle (Some sg) db = (STALE_SIGNAL, db).
Proof.
  intros Hp Ht Hs. run_body.
  rewrite Hp; cbv beta iota. rewrite Ht; cbv beta iota delta [negb].
  rewrite Hs.
  assert (E : forall o, option_string_eqb o o = true).
  { intros [x|]; simpl; [apply String.eqb_refl | reflexivity]. }
  rewrite E. reflexivity.
Qed.

Lemma option_string_eqb_eq (a b : option string) :
  option_string_eqb a b = true <-> a = b.
Proof.
  destruct a as [x|], b as [y|]; simpl; split; intros H;
    try discriminate; try reflexivity.
  - apply String.eqb_eq in H. now subst.
  - injection H as ->. apply String.eqb_refl.
Qed.

(** With a paused manager, a pass past the anti-spam check is gated. *)
Lemma run_cycle_gated sg db p :
  latest_price db = Some p -> num_truthy p = true ->
  option_string_eqb (timestamp sg) (last_trade_time (portfolio db)) = false ->
  PyStr.upper (status_action (manager_status db)) = "PAUSE"%string ->
  run_cycle (Some sg) db = (GATED, db).
Proof.
  intros Hp Ht Hs Hm. run_body.
  rewrite Hp; cbv beta iota. rewrite Ht; cbv beta iota delta [negb].
  rewrite Hs, Hm. reflexivity.
Qed.

(** *** The trading branch *)

Lemma execute_buy_skip b pos p t db :
  num_le b p = true ->
  execute_buy b pos p t db = (Ok (b, pos, false), db).
Proof. intros H. unfold execute_buy. rewrite H. reflexivity. Qed.

Lemma execute_buy_fill b pos p t db q qty fqty :
  num_le b p = false ->
  num_floordiv b p = Ok q -> num_int q = Ok qty -> num_of_int qty = Ok fqty ->
  let new_balance := num_sub b (num_mul fqty p) in
  execute_buy b pos p t db =
    (Ok (new_balance, pos + qty, true),
     after_trade db "BUY" p qty new_balance (pos + qty) t).
Proof.
  intros H Hq Hi Hf. unfold execute_buy, bind, lift.
  rewrite H, Hq, Hi, Hf. reflexivity.
Qed.

Lemma execute_sell_skip b pos p t db :
  pos <= 0 ->
  execute_sell b pos p t db = (Ok (b, pos, false), db).
Proof.
  intros H. unfold execute_sell.
  destruct (Z.leb_spec pos 0); [reflexivity | lia].
Qed.

Lemma execute_sell_fill b pos p t db fpos :
  0 < pos -> num_of_int pos = Ok fpos ->
  let new_balance := num_add b (num_mul fpos p) in
  execute_sell b pos p t db =
    (Ok (new_balance, 0, true),
     after_trade db "SELL" p pos new_balance 0 t).
Proof.
  intros H Hf. unfold execute_sell, bind, lift.
  destruct (Z.leb_spec pos 0); [lia|]. rewrite Hf. reflexivity.
Qed.

Section Acting.

(** A pass that reaches the trading branch: a price is at hand, the signal
    is not the one traded last, the manager does not pause. *)
Variables (sg : Signal) (db : TradingDB num) (p : num).
Hypothesis Hprice : latest_price db = Some p.
Hypothesis Htruthy : num_truthy p = true.
Hypothesis Hfresh : timestamp sg <> last_trade_time (portfolio db).
Hypothesis Hgo :
  PyStr.upper (status_action (manager_status db)) <> "PAUSE"%string.

Let b := balance (portfolio db).
Let pos := positions (portfolio db).

Lemma run_cycle_acting :
  run_cycle (Some sg) db =
    if (option_string_eqb (signal sg) (Some "BUY"%string) && num_lt p b)%bool
    then settle (execute_buy b pos p (timestamp sg) db)
    else if (option_string_eqb (signal sg) (Some "SELL"%string)
             && (0 <? pos))%bool
    then settle (execute_sell b pos p (timestamp sg) db)
    else (ACTING, db).
Proof.
  run_body. rewrite Hprice; cbv beta iota.
  rewrite Htruthy; cbv beta iota delta [negb].
  destruct (option_string_eqb (timestamp sg) (last_trade_time (portfolio db)))
    eqn:Hs; [apply option_string_eqb_eq in Hs; contradiction|].
  destruct (String.eqb_spec
              (PyStr.upper (status_action (manager_status db))) "PAUSE");
    [contradiction|].
  fold b pos. unfold settle.
  destruct (option_string_eqb (signal sg) (Some "BUY"%string) && num_lt p b)%bool.
  - destruct (execute_buy b pos p (timestamp sg) db) as [[?|?] ?]; reflexivity.
  - destruct (option_string_eqb (signal sg) (Some "SELL"%string)
              && (0 <? pos))%bool; [|reflexivity].
    destruct (execute_sell b pos p (timestamp sg) db) as [[?|?] ?]; reflexivity.
Qed.

(** a BUY signal and a balance that does not exceed the price: nothing
    is written *)
Lemma buy_cycle_skip :
  signal sg = Some "BUY"%string ->
  num_lt p b = false \/ num_le b p = true ->
  run_cycle (Some sg) db = (ACTING, db).
Proof.
  intros Hsig Hguard. rewrite run_cycle_acting, Hsig. simpl.
  destruct (num_lt p b) eqn:Hlt; [|reflexivity].
  destruct Hguard as [?|Hle]; [discriminate|].
  rewrite (execute_buy_skip _ _ _ _ _ Hle). reflexivity.
Qed.

(** a BUY signal and a balance above the price: the order is sized by
    floor division and written *)
Lemma buy_cycle_fill q qty fqty :
  signal sg = Some "BUY"%string ->
  num_lt p b = true -> num_le b p = false ->
  num_floordiv b p = Ok q -> num_int q = Ok qty -> num_of_int qty = Ok fqty ->
  let cost := num_mul fqty p in
  run_cycle (Some sg) db =
    (ACTING,
     after_trade db "BUY" p qty (num_sub b cost) (pos + qty) (timestamp sg)).
Proof.
  intros Hsig Hlt Hle Hq Hi Hf. rewrite run_cycle_acting, Hsig. simpl.
  rewrite Hlt. fold b.
  rewrite (execute_buy_fill _ _ _ _ _ _ _ _ Hle Hq Hi Hf). reflexivity.
Qed.

(** a SELL signal with nothing held: nothing is written *)
Lemma sell_cycle_skip :
  signal sg = Some "SELL"%string -> pos <= 0 ->
  run_cycle (Some sg) db = (ACTING, db).
Proof.
  intros Hsig Hpos. rewrite run_cycle_acting, Hsig. simpl.
  destruct (Z.ltb_spec 0 pos); [lia|]. reflexivity.
Qed.

(** a SELL signal with a position: all of it is sold and written *)
Lemma sell_cycle_fill fpos :
  signal sg = Some "SELL"%string -> 0 < pos -> num_of_int pos = Ok fpos ->
  let revenue := num_mul fpos p in
  run_cycle (Some sg) db =
    (ACTING,
     after_trade db "SELL" p pos (num_add b revenue) 0 (timestamp sg)).
Proof.
  intros Hsig Hpos Hf. rewrite run_cycle_acting, Hsig. simpl.
  destruct (Z.ltb_spec 0 pos); [|lia].
  rewrite (execute_sell_fill _ _ _ _ _ _ Hpos Hf). reflexivity.
Qed.

End Acting.

End ExecutionProperties.

(** ** The execution engine over exact rationals *)

Section ExactProperties.

Import Exact ExecutionEngine.
Local Open Scope Qc_scope.

Lemma Qc_of_Z_this z : this (Qc_of_Z z) = inject_Z z.
Proof.
  unfold Qc_of_Z. cbn [this Q2Qc]. apply Qred_identity.
  cbn [Qnum Qden inject_Z]. apply Z.gcd_1_r.
Qed.

Lemma Qc_trunc_of_Z z : Qc_trunc (Qc_of_Z z) = z.
Proof.
  unfold Qc_trunc. rewrite Qc_of_Z_this. simpl. apply Z.quot_1_r.
Qed.

Lemma Qc_leb_le (x y : Qc) : Qc_leb x y = true <-> x <= y.
Proof. unfold Qc_leb. apply Qle_bool_iff. Qed.

Lemma Qc_leb_gt (x y : Qc) : Qc_leb x y = false <-> y < x.
Proof.
  unfold Qc_leb. split; intros H.
  - apply Qcnot_le_lt. intros Hle. apply Qle_bool_iff in Hle. congruence.
  - destruct (Qle_bool x y) eqn:E; [|reflexivity].
    apply Qle_bool_iff in E. apply Qclt_not_le in H. contradiction.
Qed.

Lemma Qc_ltb_lt (x y : Qc) : Qc_ltb x y = true <-> x < y.
Proof.
  unfold Qc_ltb. rewrite Bool.negb_true_iff. apply Qc_leb_gt.
Qed.

Lemma Qc_of_Z_le_floor (x : Qc) : Qc_of_Z (Qfloor x) <= x.
Proof.
  unfold Qcle. rewrite Qc_of_Z_this. apply Qfloor_le.
Qed.

Lemma Qc_lt_floor_succ (x : Qc) : x < Qc_of_Z (Qfloor x + 1).
Proof.
  unfold Qclt. rewrite Qc_of_Z_this. apply Qlt_floor.
Qed.

Lemma Qc_of_Z_nonneg z : (0 <= z)%Z -> 0 <= Qc_of_Z z.
Proof.
  intros H. unfold Qcle. rewrite Qc_of_Z_this. simpl.
  unfold Qle. simpl. lia.
Qed.

Lemma floor_div_bounds (b p : Qc) :
  0 < p ->
  Qc_of_Z (Qfloor (b / p)%Qc) * p <= b /\ b < Qc_of_Z (Qfloor (b / p)%Qc + 1) * p.
Proof.
  intros Hp.
  assert (Hne : p <> 0) by (apply not_eq_sym, Qclt_not_eq, Hp).
  assert (E : b / p * p = b) by (field; exact Hne).
  split.
  - rewrite <- E at 2. apply Qcmult_le_compat_r.
    + apply Qc_of_Z_le_floor.
    + apply Qclt_le_weak, Hp.
  - rewrite <- E at 1. apply Qcmult_lt_compat_r; [exact Hp|apply Qc_lt_floor_succ].
Qed.

Lemma floor_div_pos (b p : Qc) : 0 < p -> p <= b -> (1 <= Qfloor (b / p)%Qc)%Z.
Proof.
  intros Hp Hb.
  assert (Hne : p <> 0) by (apply not_eq_sym, Qclt_not_eq, Hp).
  assert (H1 : 1 <= b / p).
  { apply (Qcmult_lt_0_le_reg_r _ _ p Hp).
    replace (b / p * p) with b by (field; exact Hne).
    now rewrite Qcmult_1_l. }
  change 1%Z with (Qfloor (inject_Z 1)).
  apply Qfloor_resp_le. exact H1.
Qed.

Lemma exact_truthy (p : Qc) : 0 < p -> num_truthy p = true.
Proof.
  intros Hp. simpl. destruct (Qc_eq_bool p 0) eqn:E; [|reflexivity].
  apply Qc_eq_bool_correct in E. subst p. now apply Qclt_not_eq in Hp.
Qed.

Lemma exact_buy_sizing (b p : Qc) :
  0 < p ->
  let qty := Qfloor (b / p)%Qc in
  num_floordiv b p = Ok (Qc_of_Z qty) /\
  num_int (Qc_of_Z qty) = Ok qty /\
  num_of_int qty = Ok (Qc_of_Z qty).
Proof.
  intros Hp qty. simpl. unfold Qc_floordiv.
  destruct (Qc_eq_bool p 0) eqn:E.
  - apply Qc_eq_bool_correct in E. subst p. now apply Qclt_not_eq in Hp.
  - rewrite Qc_trunc_of_Z. auto.
Qed.

Lemma Qc_minus_nonneg (x y : Qc) : y <= x -> 0 <= x - y.
Proof.
  intros H. unfold Qcminus.
  replace 0 with (y + - y) by ring.
  apply Qcplus_le_compat; [exact H | apply Qcle_refl].
Qed.

Lemma Qc_plus_nonneg (x y : Qc) : 0 <= x -> 0 <= y -> 0 <= x + y.
Proof.
  intros Hx Hy. replace 0 with (0 + 0) by ring.
  now apply Qcplus_le_compat.
Qed.

Lemma Qc_mult_nonneg (x y : Qc) : 0 <= x -> 0 <= y -> 0 <= x * y.
Proof.
  intros Hx Hy. replace 0 with (0 * y) by ring.
  now apply Qcmult_le_compat_r.
Qed.

(** In exact money arithmetic a pass that starts from a balance and a
    position that are not negative, at a positive price, leaves both not
    negative, whether it buys, sells or does nothing: the quantity bought
    is the floor of balance / price, so its cost never exceeds the
    balance. *)
Theorem cycle_keeps_portfolio_nonnegative
    (sig : option Signal) (db : TradingDB Qc) :
  0 <= balance (portfolio db) ->
  (0 <= positions (portfolio db))%Z ->
  (forall p, latest_price db = Some p -> 0 < p) ->
  0 <= balance (portfolio (snd (run_cycle sig db))) /\
  (0 <= positions (portfolio (snd (run_cycle sig db))))%Z.
Proof.
  intros Hb Hpos Hprice.
  destruct sig as [sg|]; [|rewrite run_cycle_no_signal; now split].
  destruct (latest_price db) as [p|] eqn:Hp;
    [|rewrite run_cycle_no_price; [now split | now rewrite Hp]].
  specialize (Hprice p eq_refl).
  pose proof (exact_truthy p Hprice) as Ht.
  destruct (option_string_eqb (timestamp sg) (last_trade_time (portfolio db)))
    eqn:Hs.
  { apply option_string_eqb_eq in Hs.
    rewrite (run_cycle_stale sg db p Hp Ht Hs). now split. }
  assert (Hfresh : timestamp sg <> last_trade_time (portfolio db)).
  { intros E. apply option_string_eqb_eq in E. congruence. }
  destruct (String.eqb_spec
              (PyStr.upper (status_action (manager_status db))) "PAUSE"%string)
    as [Hm|Hgo].
  { rewrite (run_cycle_gated sg db p Hp Ht Hs Hm). now split. }
  rewrite (run_cycle_acting sg db p Hp Ht Hfresh Hgo).
  set (b := balance (portfolio db)) in *.
  set (pos := positions (portfolio db)) in *.
  destruct (option_string_eqb (signal sg) (Some "BUY"%string)) eqn:Hbuy;
    cbn [andb].
  - destruct (num_lt p b) eqn:Hlt.
    + apply Qc_ltb_lt in Hlt.
      destruct (exact_buy_sizing b p Hprice) as (Hq & Hi & Hf).
      assert (Hle : num_le b p = false) by now apply Qc_leb_gt.
      rewrite (execute_buy_fill _ _ _ _ _ _ _ _ Hle Hq Hi Hf).
      cbn [settle snd after_trade portfolio balance positions].
      destruct (floor_div_bounds b p Hprice) as [Hcost _].
      pose proof (floor_div_pos b p Hprice (Qclt_le_weak _ _ Hlt)).
      split; [apply Qc_minus_nonneg, Hcost | lia].
    + destruct (option_string_eqb (signal sg) (Some "SELL"%string) && (0 <? pos)%Z)%bool
        eqn:Hsell; [|now split].
      apply Bool.andb_true_iff in Hsell. destruct Hsell as [_ Hsell].
      apply Z.ltb_lt in Hsell.
      assert (Hf : num_of_int pos = Ok (Qc_of_Z pos)) by reflexivity.
      rewrite (execute_sell_fill b pos p (timestamp sg) db (Qc_of_Z pos) Hsell Hf).
      cbn [settle snd after_trade portfolio balance positions].
      split; [|lia].
      apply Qc_plus_nonneg; [exact Hb|].
      apply Qc_mult_nonneg; [apply Qc_of_Z_nonneg; lia | now apply Qclt_le_weak].
  - destruct (option_string_eqb (signal sg) (Some "SELL"%string) && (0 <? pos)%Z)%bool
      eqn:Hsell; [|now split].
    apply Bool.andb_true_iff in Hsell. destruct Hsell as [_ Hsell].
    apply Z.ltb_lt in Hsell.
    assert (Hf : num_of_int pos = Ok (Qc_of_Z pos)) by reflexivity.
    rewrite (execute_sell_fill b pos p (timestamp sg) db (Qc_of_Z pos) Hsell Hf).
    cbn [settle snd after_trade portfolio balance positions].
    split; [|lia].
    apply Qc_plus_nonneg; [exact Hb|].
    apply Qc_mult_nonneg; [apply Qc_of_Z_nonneg; lia | now apply Qclt_le_weak].
Qed.

End ExactProperties.

(** ** The execution engine over binary64, and the claims on it *)

Section ExecutionClaims.

Import Exact Binary64 ExecutionEngine.

(** C1: for every portfolio with balance >= 0 and position >= 0 and every
    positive price, a pass should leave balance >= 0 and position >= 0.
    In binary64, the arithmetic the service runs on, a BUY breaks this:
    with a balance of 3e16 and a price of 2.64 the floor division gives
    11363636363636364 units, their cost rounds up to 30000000000000004,
    and the balance written to the portfolio and to the trade log is
    -4.0. *)
Theorem binary64_buy_overdraws :
  let price := of_decimal 264 2 in
  let db : TradingDB float :=
    snapshot price (of_Z 30000000000000000) 0 None "CONTINUE" in
  let db' := snd (run_cycle (Some buy_signal) db) in
  (num_le num_zero (balance (portfolio db)) = true /\
   0 <= positions (portfolio db) /\
   num_lt num_zero price = true) /\
  trade_logs db' =
    [{| trade_action := "BUY"; trade_price := price;
        trade_quantity := 11363636363636364;
        trade_balance := SFopp (of_Z 4) |}] /\
  balance (portfolio db') = SFopp (of_Z 4) /\
  num_le num_zero (balance (portfolio db')) = false.
Proof.
  cbv zeta. repeat split; try (vm_compute; reflexivity).
  vm_compute. discriminate.
Qed.

(** C4: a BUY should buy floor(balance / price) units.  In binary64, the
    arithmetic the service runs on, it can buy one unit more than that:
    with a balance of 3e16 and a price of 2.64 the order is placed, since
    the balance exceeds the price; the floor of balance / price is
    11363636363636363, but [balance // price] is 11363636363636364.0,
    and that is the quantity logged and added to the position; its cost,
    30000000000000004.0, is more than the balance. *)
Theorem binary64_buy_exceeds_floor :
  let price := of_decimal 264 2 in
  let b := of_Z 30000000000000000 in
  let db : TradingDB float := snapshot price b 7 None "CONTINUE" in
  let db' := snd (run_cycle (Some buy_signal) db) in
  num_lt price b = true /\
  Qfloor (exact b / exact price) = 11363636363636363 /\
  rbind (float_floor_div b price) float_int = Ok 11363636363636364 /\
  List.map trade_quantity (trade_logs db') = [11363636363636364] /\
  positions (portfolio db') = 7 + 11363636363636364 /\
  positions (portfolio db') <> 7 + Qfloor (exact b / exact price) /\
  fmul (of_Z 11363636363636364) price = of_Z 30000000000000004 /\
  (exact b < exact (fmul (of_Z 11363636363636364) price))%Q /\
  (* the same pass with the client of [db_client.py] underneath *)
  DbClient.engine_view
    (snd (ExecutionPass.run_cycle (of_Z 100000) ExecutionPass.exact_column
            ExecutionPass.text_only ExecutionPass.no_fault
            "2024-01-02 09:16:05"
            (Ok (Some (ExecutionPass.signal_file "BUY" "2024-01-02 09:16:00"
                         "0.9")))
            (ExecutionPass.store [price] b 7 None "CONTINUE")))
    = Some db'.
Proof.
  cbv zeta. repeat split; try (vm_compute; reflexivity).
  vm_compute. discriminate.
Qed.

Lemma cycle_keeps_portfolio_nonnegative_witness :
  let db : TradingDB Qc :=
    snapshot (Qc_of_Z 100) (Qc_of_Z 100050) 3 None "CONTINUE" in
  portfolio (snd (run_cycle (Some buy_signal) db)) =
    {| balance := Qc_of_Z 50; positions := 1003;
       last_trade_time := timestamp buy_signal |} /\
  (0 <= balance (portfolio (snd (run_cycle (Some buy_signal) db))))%Qc /\
  0 <= positions (portfolio (snd (run_cycle (Some buy_signal) db))).
Proof.
  cbv zeta. split; [vm_compute; reflexivity|].
  apply cycle_keeps_portfolio_nonnegative.
  - vm_compute. discriminate.
  - simpl. lia.
  - intros p H. injection H as <-. reflexivity.
Defined.


(** The BUY order step by step, for any arithmetic: it is placed only
    when the balance exceeds the price; it then buys
    [int(balance // price)] units, at a cost of quantity times price,
    writes balance minus cost and position plus quantity, and logs the
    trade; with a balance that does not exceed the price nothing is
    written.  In exact arithmetic that quantity is the floor of
    balance / price.  With balance 100000 and price 100.00 in binary64 the
    quantity is 1000, the cost 100000.0, the new balance 0.0 and the new
    position 1000. *)
Theorem buy_is_all_in :
  (forall (num : Type) (NUM : PyNum num)
          (sg : Signal) (db : TradingDB num) (p : num),
      latest_price db = Some p -> num_truthy p = true ->
      timestamp sg <> last_trade_time (portfolio db) ->
      PyStr.upper (status_action (manager_status db)) <> "PAUSE"%string ->
      signal sg = Some "BUY"%string ->
      let b := balance (portfolio db) in
      let pos := positions (portfolio db) in
      (num_lt p b = false \/ num_le b p = true ->
       run_cycle (Some sg) db = (ACTING, db)) /\
      (forall q qty fqty,
          num_lt p b = true -> num_le b p = false ->
          num_floordiv b p = Ok q -> num_int q = Ok qty ->
          num_of_int qty = Ok fqty ->
          let cost := num_mul fqty p in
          run_cycle (Some sg) db =
            (ACTING,
             after_trade db "BUY" p qty (num_sub b cost) (pos + qty)
               (timestamp sg)))) /\
  (forall b p : Qc,
      (0 < p)%Qc -> (p < b)%Qc ->
      let qty := Qfloor (b / p)%Qc in
      num_lt p b = true /\ num_le b p = false /\
      num_floordiv b p = Ok (Qc_of_Z qty) /\
      num_int (Qc_of_Z qty) = Ok qty /\
      num_of_int qty = Ok (Qc_of_Z qty) /\
      1 <= qty /\
      (Qc_of_Z qty * p <= b)%Qc /\ (b < Qc_of_Z (qty + 1) * p)%Qc) /\
  (forall (pos : Z) (last : option string),
      last <> timestamp buy_signal ->
      let db : TradingDB float :=
        snapshot (of_Z 100) (of_Z 100000) pos last "CONTINUE" in
      fmul (of_Z 1000) (of_Z 100) = of_Z 100000 /\
      run_cycle (Some buy_signal) db =
        (ACTING,
         after_trade db "BUY" (of_Z 100) 1000 fzero (pos + 1000)
           (timestamp buy_signal))).
Proof.
  split; [|split].
  - intros num NUM sg db p Hp Ht Hfresh Hgo Hsig b pos. split.
    + intros Hguard. now apply (buy_cycle_skip sg db p).
    + intros q qty fqty Hlt Hle Hq Hi Hf cost.
      now apply (buy_cycle_fill sg db p Hp Ht Hfresh Hgo q qty fqty).
  - intros b p Hp Hlt qty.
    destruct (exact_buy_sizing b p Hp) as (Hq & Hi & Hf).
    destruct (floor_div_bounds b p Hp) as [Hlo Hhi].
    split; [now apply Qc_ltb_lt|]. split; [now apply Qc_leb_gt|].
    repeat (split; [assumption|]).
    split; [apply floor_div_pos; [assumption | now apply Qclt_le_weak]|].
    now split.
  - intros pos last Hlast db. split; [vm_compute; reflexivity|].
    assert (Hfresh : timestamp buy_signal <> last_trade_time (portfolio db))
      by (intros E; apply Hlast; symmetry; exact E).
    assert (Hgo : PyStr.upper (status_action (manager_status db))
                  <> "PAUSE"%string) by (vm_compute; discriminate).
    assert (Ht : num_truthy (of_Z 100) = true) by (vm_compute; reflexivity).
    rewrite (buy_cycle_fill buy_signal db (of_Z 100) eq_refl Ht Hfresh Hgo
               (of_Z 1000) 1000 (of_Z 1000));
      vm_compute; reflexivity.
Qed.

Lemma buy_is_all_in_witness :
  let db : TradingDB Qc :=
    snapshot (Qc_of_Z 100) (Qc_of_Z 100000) 0 None "CONTINUE" in
  run_cycle (Some buy_signal) db =
    (ACTING,
     after_trade db "BUY" (Qc_of_Z 100) 1000 (Qc_of_Z 0) 1000
       (timestamp buy_signal)).
Proof.
  cbv zeta.
  refine (proj2 (proj1 buy_is_all_in Qc _ buy_signal _ (Qc_of_Z 100)
                   _ _ _ _ _) (Qc_of_Z 1000) 1000 (Qc_of_Z 1000) _ _ _ _ _);
    try (vm_compute; reflexivity); try (vm_compute; discriminate).
Defined.



End ExecutionClaims.

(** ** The execution engine over a store that can fail *)

Section PassProperties.

Import Json ExecutionEngine ExecutionPass.

Context {num : Type} {NUM : PyNum num}.
Variable INITIAL_BALANCE : num.
Variable int_column : Z -> option Z.
Variable text_column : json -> option (option string).

Implicit Types (faults : Faults) (now : string) (t : DbClient.Tables num)
  (data : list (string * json)) (loaded : result (option json)).

Local Abbreviation run := (run_cycle INITIAL_BALANCE int_column text_column).
Local Abbreviation portfolio_read faults t :=
  (if get_portfolio_fails faults
   then {| balance := INITIAL_BALANCE; positions := 0;
           last_trade_time := None |}
   else DbClient.get_portfolio INITIAL_BALANCE t).

Ltac run_pass :=
  unfold run_cycle, cycle, bind, ret, lift, get_portfolio, get_current_price,
    get_manager_status.

(** the passes that end before the signal is looked at *)
Lemma pass_unreadable faults now e t :
  run faults now (Raise e) t = (ERROR e, t).
Proof. reflexivity. Qed.

Lemma pass_idle faults now loaded t :
  match loaded with
  | Ok (Some v) =>
      truthy v = false \/
      match current_price faults t with
      | Some p => num_truthy p = false
      | None => True
      end
  | Ok None => True
  | Raise _ => False
  end ->
  run faults now loaded t = (IDLE, t).
Proof.
  run_pass. destruct loaded as [[v|]|e]; [| |intros []].
  - destruct (current_price faults t) as [p|]; [|reflexivity].
    intros [H|H]; rewrite H; [reflexivity|].
    now rewrite Bool.orb_true_r.
  - destruct (current_price faults t); reflexivity.
Qed.

Lemma pass_not_a_dict faults now v t p :
  truthy v = true -> current_price faults t = Some p ->
  num_truthy p = true ->
  match v with JObj _ => False | _ => True end ->
  run faults now (Ok (Some v)) t = (ERROR AttributeError, t).
Proof.
  intros Hv Hp Ht Hd. run_pass. rewrite Hp, Hv, Ht. cbn [negb orb].
  destruct v; try reflexivity. contradiction.
Qed.

(** a signal whose time stamp is the one read from the portfolio row *)
Lemma pass_stale faults now data t p :
  data <> [] -> current_price faults t = Some p -> num_truthy p = true ->
  eq_text (get "timestamp" data)
          (last_trade_time (portfolio_read faults t)) = true ->
  run faults now (Ok (Some (JObj data))) t = (STALE_SIGNAL, t).
Proof.
  intros Hd Hp Ht Hs.
  assert (Hty : truthy (JObj data) = true)
    by (destruct data; [contradiction | reflexivity]).
  run_pass. rewrite Hp, Hty, Ht. cbn [negb orb]. now rewrite Hs.
Qed.

Lemma pass_gated faults now data t p :
  data <> [] -> current_price faults t = Some p -> num_truthy p = true ->
  eq_text (get "timestamp" data)
          (last_trade_time (portfolio_read faults t)) = false ->
  manager_action faults t = "PAUSE"%string ->
  run faults now (Ok (Some (JObj data))) t = (GATED, t).
Proof.
  intros Hd Hp Ht Hs Hm.
  assert (Hty : truthy (JObj data) = true)
    by (destruct data; [contradiction | reflexivity]).
  run_pass. rewrite Hp, Hty, Ht. cbn [negb orb]. now rewrite Hs, Hm.
Qed.

(** Whatever the statements that fail: a signal whose time stamp equals
    the one the engine reads from the portfolio row is not traded. *)
Lemma pass_replayed faults now data t :
  eq_text (get "timestamp" data)
          (last_trade_time (portfolio_read faults t)) = true ->
  run faults now (Ok (Some (JObj data))) t =
    (match data, current_price faults t with
     | _ :: _, Some p => if num_truthy p then STALE_SIGNAL else IDLE
     | _, _ => IDLE
     end, t).
Proof.
  intros Hs.
  destruct data as [|kv data'] eqn:Hd.
  { apply pass_idle. now left. }
  rewrite <- Hd in *.
  assert (Hne : data <> []) by (rewrite Hd; discriminate).
  destruct (current_price faults t) as [p|] eqn:Hp.
  - destruct (num_truthy p) eqn:Ht.
    + now apply (pass_stale faults now data t p).
    + apply pass_idle. right. now rewrite Hp.
  - apply pass_idle. right. now rewrite Hp.
Qed.


(** *** The orders *)

Lemma execute_buy_outcome faults now b pos p ts t :
  execute_buy int_column text_column faults now b pos p ts t
    = (Ok (b, pos, false), t) \/
  (exists e,
      execute_buy int_column text_column faults now b pos p ts t
        = (Raise e, t)) \/
  (exists q qty fqty,
      num_le b p = false /\ num_floordiv b p = Ok q /\
      num_int q = Ok qty /\ num_of_int qty = Ok fqty /\
      execute_buy int_column text_column faults now b pos p ts t =
        (Ok (num_sub b (num_mul fqty p), pos + qty, true),
         after_order int_column text_column faults now t "BUY" p qty
           (num_sub b (num_mul fqty p)) (pos + qty) ts)).
Proof.
  unfold execute_buy, bind, lift, ret.
  destruct (num_le b p) eqn:Hle; [now left|]. right.
  destruct (num_floordiv b p) as [q|e] eqn:Hq; [|left; now exists e].
  destruct (num_int q) as [qty|e] eqn:Hi; [|left; now exists e].
  destruct (num_of_int qty) as [fqty|e] eqn:Hf; [|left; now exists e].
  right. exists q, qty, fqty. now repeat split.
Qed.

Lemma execute_sell_outcome faults now b pos p ts t :
  execute_sell int_column text_column faults now b pos p ts t
    = (Ok (b, pos, false), t) \/
  (exists e,
      execute_sell int_column text_column faults now b pos p ts t
        = (Raise e, t)) \/
  (exists fpos,
      0 < pos /\ num_of_int pos = Ok fpos /\
      execute_sell int_column text_column faults now b pos p ts t =
        (Ok (num_add b (num_mul fpos p), 0, true),
         after_order int_column text_column faults now t "SELL" p pos
           (num_add b (num_mul fpos p)) 0 ts)).
Proof.
  unfold execute_sell, bind, lift, ret.
  destruct (Z.leb_spec pos 0) as [|Hpos]; [now left|]. right.
  destruct (num_of_int pos) as [fpos|e] eqn:Hf; [|left; now exists e].
  right. exists fpos. now repeat split.
Qed.

(** a pass that reaches the trading branch *)
Lemma pass_acting faults now data t p :
  data <> [] -> current_price faults t = Some p -> num_truthy p = true ->
  eq_text (get "timestamp" data)
          (last_trade_time (portfolio_read faults t)) = false ->
  manager_action faults t <> "PAUSE"%string ->
  let b := balance (portfolio_read faults t) in
  let pos := positions (portfolio_read faults t) in
  let ts := get "timestamp" data in
  run faults now (Ok (Some (JObj data))) t =
    finish p (get_or "confidence" (JNum "0") data)
      (if (eq_word (get "signal" data) "BUY" && num_lt p b)%bool
       then execute_buy int_column text_column faults now b pos p ts t
       else if (eq_word (get "signal" data) "SELL" && (0 <? pos))%bool
       then execute_sell int_column text_column faults now b pos p ts t
       else (Ok (b, pos, false), t)).
Proof.
  intros Hd Hp Ht Hs Hm b pos ts.
  assert (Hty : truthy (JObj data) = true)
    by (destruct data; [contradiction | reflexivity]).
  run_pass. rewrite Hp, Hty, Ht. cbn [negb orb]. rewrite Hs.
  destruct (String.eqb_spec (manager_action faults t) "PAUSE");
    [contradiction|].
  fold b pos ts. unfold finish.
  destruct (eq_word (get "signal" data) "BUY" && num_lt p b)%bool.
  - destruct (execute_buy _ _ _ _ b pos p ts t) as [[[[nb np] fl]|e] t'];
      [|reflexivity].
    cbn [fst snd]. destruct (status_line nb np p _); reflexivity.
  - destruct (eq_word (get "signal" data) "SELL" && (0 <? pos))%bool.
    + destruct (execute_sell _ _ _ _ b pos p ts t) as [[[[nb np] fl]|e] t'];
        [|reflexivity].
      cbn [fst snd]. destruct (status_line nb np p _); reflexivity.
    + cbn [fst snd]. destruct (status_line b pos p _); reflexivity.
Qed.


Lemma snd_finish p c (r : result (num * Z * bool) * DbClient.Tables num) :
  snd (finish p c r) = snd r.
Proof.
  destruct r as [[[[nb np] fl]|e] t']; [|reflexivity].
  cbn [finish snd]. now destruct (status_line nb np p c).
Qed.

(** A pass ends before the trading branch, with the store as it was, or
    it reaches the trading branch. *)
Lemma pass_cases faults now loaded t :
  (exists r, run faults now loaded t = (r, t) /\ r <> ACTING) \/
  exists data p,
    loaded = Ok (Some (JObj data)) /\ data <> [] /\
    current_price faults t = Some p /\ num_truthy p = true /\
    eq_text (get "timestamp" data)
            (last_trade_time (portfolio_read faults t)) = false /\
    manager_action faults t <> "PAUSE"%string.
Proof.
  assert (Hidle : run faults now loaded t = (IDLE, t) ->
                  exists r, run faults now loaded t = (r, t) /\ r <> ACTING).
  { intros E. exists IDLE. split; [exact E | discriminate]. }
  destruct loaded as [[v|]|e];
    [|left; apply Hidle; now rewrite pass_idle
     |left; exists (ERROR e); split; [reflexivity | discriminate]].
  destruct (truthy v) eqn:Hv; [|left; apply Hidle; rewrite pass_idle; auto].
  destruct (current_price faults t) as [p|] eqn:Hp;
    [|left; apply Hidle; rewrite pass_idle;
      [reflexivity | right; now rewrite Hp]].
  destruct (num_truthy p) eqn:Ht;
    [|left; apply Hidle; rewrite pass_idle;
      [reflexivity | right; now rewrite Hp]].
  destruct v as [| | | | |data];
    try (left; exists (ERROR AttributeError);
         split; [now rewrite (pass_not_a_dict faults now _ t p Hv Hp Ht)
                | discriminate]).
  assert (Hd : data <> []) by (intros ->; discriminate).
  destruct (eq_text (get "timestamp" data)
              (last_trade_time (portfolio_read faults t))) eqn:Hs.
  { left. exists STALE_SIGNAL.
    split; [now apply (pass_stale faults now data t p) | discriminate]. }
  destruct (String.eqb_spec (manager_action faults t) "PAUSE") as [Hm|Hm].
  { left. exists GATED.
    split; [now apply (pass_gated faults now data t p) | discriminate]. }
  right. exists data, p. auto 10.
Qed.

(** What a pass does to the store: nothing, or the two writes of one
    order, each of which can be lost. *)
Lemma pass_effect faults now loaded t :
  snd (run faults now loaded t) = t \/
  exists data p action qty nb np,
    loaded = Ok (Some (JObj data)) /\
    current_price faults t = Some p /\ num_truthy p = true /\
    eq_text (get "timestamp" data)
            (last_trade_time (portfolio_read faults t)) = false /\
    manager_action faults t <> "PAUSE"%string /\
    (action = "BUY"%string /\ eq_word (get "signal" data) "BUY" = true \/
     action = "SELL"%string /\ eq_word (get "signal" data) "SELL" = true) /\
    snd (run faults now loaded t) =
      after_order int_column text_column faults now t action p qty nb np
        (get "timestamp" data).
Proof.
  destruct (pass_cases faults now loaded t)
    as [(r & E & _)|(data & p & -> & Hd & Hp & Ht & Hs & Hm)];
    [left; now rewrite E|].
  rewrite (pass_acting faults now data t p Hd Hp Ht Hs Hm). cbv zeta.
  rewrite snd_finish.
  set (b := balance (portfolio_read faults t)).
  set (pos := positions (portfolio_read faults t)).
  set (ts := get "timestamp" data).
  destruct (eq_word (get "signal" data) "BUY") eqn:Hbuy; cbn [andb].
  - destruct (num_lt p b) eqn:Hlt.
    + destruct (execute_buy_outcome faults now b pos p ts t)
        as [E|[(e & E)|(q & qty & fqty & _ & _ & _ & _ & E)]]; rewrite E;
        [now left | now left |].
      right. exists data, p, "BUY"%string, qty,
               (num_sub b (num_mul fqty p)), (pos + qty).
      repeat (split; [reflexivity || assumption|]).
      split; [left; now split | reflexivity].
    + destruct (eq_word (get "signal" data) "SELL" && (0 <? pos))%bool eqn:Hsell;
        [|now left].
      apply andb_true_iff in Hsell. destruct Hsell as [Hsell _].
      destruct (get "signal" data) as [| | |w| |]; try discriminate.
      cbn [eq_word] in Hbuy, Hsell.
      apply String.eqb_eq in Hbuy, Hsell. congruence.
  - destruct (eq_word (get "signal" data) "SELL") eqn:Hsell; cbn [andb];
      [|now left].
    destruct (0 <? pos); [|now left].
    destruct (execute_sell_outcome faults now b pos p ts t)
      as [E|[(e & E)|(fpos & _ & _ & E)]]; rewrite E;
      [now left | now left |].
    right. exists data, p, "SELL"%string, pos,
             (num_add b (num_mul fpos p)), 0.
    repeat (split; [reflexivity || assumption|]).
    split; [right; now split | reflexivity].
Qed.

(** the two writes, one by one *)
Lemma after_order_tables faults now t action p qty nb np ts :
  let t' := after_order int_column text_column faults now t action p qty
              nb np ts in
  DbClient.market_data t' = DbClient.market_data t /\
  DbClient.manager_status t' = DbClient.manager_status t /\
  (DbClient.trade_logs t' = DbClient.trade_logs t \/
   exists q,
     int_column qty = Some q /\ log_trade_fails faults = false /\
     DbClient.trade_logs t' =
       (DbClient.trade_logs t ++
        [{| DbClient.tl_timestamp := now;
            DbClient.tl_trade :=
              {| trade_action := action; trade_price := p;
                 trade_quantity := q; trade_balance := nb |} |}])%list) /\
  (DbClient.portfolio t' = DbClient.portfolio t \/
   exists np' text,
     int_column np = Some np' /\ DbClient.bind_text text_column ts = Some text /\
     update_portfolio_fails faults = false /\
     DbClient.portfolio t <> None /\
     DbClient.portfolio t' =
       Some {| balance := nb; positions := np'; last_trade_time := text |}).
Proof.
  cbv zeta. unfold after_order, update_portfolio, log_trade. cbn [snd].
  set (t1 := if log_trade_fails faults then t
             else DbClient.log_trade int_column now action p qty nb t).
  assert (H1 : DbClient.market_data t1 = DbClient.market_data t /\
               DbClient.manager_status t1 = DbClient.manager_status t /\
               DbClient.portfolio t1 = DbClient.portfolio t /\
               (DbClient.trade_logs t1 = DbClient.trade_logs t \/
                exists q,
                  int_column qty = Some q /\ log_trade_fails faults = false /\
                  DbClient.trade_logs t1 =
                    (DbClient.trade_logs t ++
                     [{| DbClient.tl_timestamp := now;
                         DbClient.tl_trade :=
                           {| trade_action := action; trade_price := p;
                              trade_quantity := q; trade_balance := nb |} |}])%list)).
  { unfold t1, DbClient.log_trade.
    destruct (log_trade_fails faults); [now auto|].
    destruct (int_column qty) as [q|] eqn:Eq; [|now auto].
    repeat (split; [reflexivity|]). right. exists q. auto. }
  destruct H1 as (Hmd & Hms & Hpf & Hlog).
  set (t2 := if update_portfolio_fails faults then t1
             else DbClient.update_portfolio int_column text_column nb np ts t1).
  assert (H2 : DbClient.market_data t2 = DbClient.market_data t1 /\
               DbClient.manager_status t2 = DbClient.manager_status t1 /\
               DbClient.trade_logs t2 = DbClient.trade_logs t1 /\
               (DbClient.portfolio t2 = DbClient.portfolio t1 \/
                exists np' text,
                  int_column np = Some np' /\
                  DbClient.bind_text text_column ts = Some text /\
                  update_portfolio_fails faults = false /\
                  DbClient.portfolio t1 <> None /\
                  DbClient.portfolio t2 =
                    Some {| balance := nb; positions := np';
                            last_trade_time := text |})).
  { unfold t2, DbClient.update_portfolio.
    destruct (update_portfolio_fails faults); [now auto|].
    destruct (DbClient.portfolio t1) as [row|] eqn:Er; [|now auto].
    destruct (int_column np) as [np'|]; [|now auto].
    destruct (DbClient.bind_text text_column ts) as [text|]; [|now auto].
    repeat (split; [reflexivity|]). right. exists np', text.
    cbn [DbClient.portfolio]. repeat split; discriminate || reflexivity. }
  destruct H2 as (Hmd2 & Hms2 & Hlog2 & Hupd).
  split; [congruence|]. split; [congruence|]. split.
  - rewrite Hlog2. exact Hlog.
  - rewrite <- Hpf. exact Hupd.
Qed.




(** X3: what a pass can write.  It never touches the prices or the
    manager's status; it appends at most one row to the trade log, stamped
    with the clock, at the price it read, and overwrites at most the
    portfolio row; it writes only in the trading branch, on a BUY or SELL
    decision.  The two writes are separate statements, and either can
    be lost; when the trade is logged and the portfolio row is changed,
    both carry the same balance. *)
Theorem pass_writes_at_most_one_trade_and_the_portfolio_row
    faults now loaded t :
  let t' := snd (run faults now loaded t) in
  DbClient.market_data t' = DbClient.market_data t /\
  DbClient.manager_status t' = DbClient.manager_status t /\
  (DbClient.trade_logs t' = DbClient.trade_logs t \/
   exists row,
     DbClient.trade_logs t' = (DbClient.trade_logs t ++ [row])%list /\
     DbClient.tl_timestamp row = now /\
     log_trade_fails faults = false /\
     current_price faults t = Some (trade_price (DbClient.tl_trade row))) /\
  (DbClient.portfolio t' = DbClient.portfolio t \/
   update_portfolio_fails faults = false /\ DbClient.portfolio t <> None /\
   DbClient.portfolio t' <> None) /\
  (t' <> t ->
   exists data,
     loaded = Ok (Some (JObj data)) /\
     manager_action faults t <> "PAUSE"%string /\
     eq_text (get "timestamp" data)
             (last_trade_time (portfolio_read faults t)) = false /\
     (eq_word (get "signal" data) "BUY" = true \/
      eq_word (get "signal" data) "SELL" = true)) /\
  (forall row pf,
      DbClient.trade_logs t' = (DbClient.trade_logs t ++ [row])%list ->
      DbClient.portfolio t' = Some pf ->
      DbClient.portfolio t' <> DbClient.portfolio t ->
      trade_balance (DbClient.tl_trade row) = balance pf).
Proof.
  cbv zeta.
  destruct (pass_effect faults now loaded t)
    as [E|(data & p & action & qty & nb & np & -> & Hp & Ht & Hs & Hm & Ha & E)];
    rewrite E.
  - split; [reflexivity|]. split; [reflexivity|]. split; [now left|].
    split; [now left|]. split; [intros H; now contradiction H|].
    intros row pf _ _ H. now contradiction H.
  - destruct (after_order_tables faults now t action p qty nb np
                (get "timestamp" data)) as (Hmd & Hms & Hlog & Hupd).
    cbv zeta in Hmd, Hms, Hlog, Hupd.
    set (t' := after_order int_column text_column faults now t action p qty
                 nb np (get "timestamp" data)) in *.
    split; [exact Hmd|]. split; [exact Hms|]. split; [|split; [|split]].
    + destruct Hlog as [Hlog|(q & Hq & Hf & Hlog)]; [now left|].
      right. eexists. split; [exact Hlog|]. cbn. auto.
    + destruct Hupd as [Hupd|(np' & text & _ & _ & Hf & Hrow & Hupd)];
        [now left|].
      right. rewrite Hupd. repeat split; assumption || discriminate.
    + intros _. exists data. repeat (split; [reflexivity || assumption|]).
      destruct Ha as [[_ Ha]|[_ Ha]]; auto.
    + intros row pf Hrow Hpf Hch.
      destruct Hupd as [Hupd|(np' & text & _ & _ & _ & _ & Hupd)];
        [contradiction|].
      destruct Hlog as [Hlog|(q & _ & _ & Hlog)].
      * rewrite Hlog in Hrow. apply (f_equal (@List.length _)) in Hrow.
        rewrite List.length_app in Hrow. cbn in Hrow. lia.
      * rewrite Hlog in Hrow. apply List.app_inj_tail in Hrow.
        destruct Hrow as [_ <-]. rewrite Hupd in Hpf.
        injection Hpf as <-. reflexivity.
Qed.

(** X4: a signal that was stamped on the portfolio row is not traded
    again.  If a pass on a signal wrote the portfolio row, and the time
    stamp of the signal is a string or absent, as [save_signal] writes it,
    then any later pass that reads that portfolio row, on a signal with
    the same time stamp, writes nothing, whatever the decision, the
    prices and the manager's status. *)
Theorem stamped_signal_is_not_traded_again
    faults now data t faults' now' data' t' :
  DbClient.portfolio (snd (run faults now (Ok (Some (JObj data))) t))
    <> DbClient.portfolio t ->
  match get "timestamp" data with
  | JStr _ | JNull => True
  | _ => False
  end ->
  get "timestamp" data' = get "timestamp" data ->
  get_portfolio_fails faults' = false ->
  DbClient.portfolio t' =
    DbClient.portfolio (snd (run faults now (Ok (Some (JObj data))) t)) ->
  snd (run faults' now' (Ok (Some (JObj data'))) t') = t'.
Proof.
  intros Hwrote Hts Hsame Hread Hrow.
  assert (Hstamp :
    exists pf,
      DbClient.portfolio (snd (run faults now (Ok (Some (JObj data))) t))
        = Some pf /\
      eq_text (get "timestamp" data) (last_trade_time pf) = true).
  { destruct (pass_effect faults now (Ok (Some (JObj data))) t)
      as [E|(data0 & p & action & qty & nb & np & Hl & _ & _ & _ & _ & _ & E)].
    - rewrite E in Hwrote. now contradiction Hwrote.
    - injection Hl as <-. rewrite E in *.
      destruct (after_order_tables faults now t action p qty nb np
                  (get "timestamp" data))
        as (_ & _ & _ & [Hupd|(np' & text & _ & Hb & _ & _ & Hupd)]);
        [contradiction|].
      cbv zeta in Hupd. rewrite Hupd. eexists. split; [reflexivity|].
      cbn [last_trade_time].
      destruct (get "timestamp" data) as [| | |w| |]; try contradiction;
        cbn [DbClient.bind_text] in Hb; injection Hb as <-;
        [reflexivity | apply String.eqb_refl]. }
  destruct Hstamp as (pf & Hpf & Heq).
  rewrite (pass_replayed faults' now' data' t'); [reflexivity|].
  rewrite Hread. unfold DbClient.get_portfolio.
  rewrite Hrow, Hpf, Hsame. exact Heq.
Qed.

End PassProperties.

(** ** The execution engine over a store that can fail: instances *)

Section PassScenarios.

Import Json Binary64 ExecutionEngine ExecutionPass.

(** the pass in binary64, with an initial balance of 100000 *)
Let run64 := run_cycle (num := float) (of_Z 100000) as_double text_only.

Let bar_time : string := "2024-01-02 09:16:00".





Lemma stamped_signal_is_not_traded_again_witness :
  let t : DbClient.Tables float :=
    store [of_Z 100] (of_Z 100000) 0 None "CONTINUE" in
  let t1 := snd (run64 no_fault "09:17:05"
                   (Ok (Some (signal_file "BUY" bar_time "0.6123"))) t) in
  DbClient.portfolio t1 =
    Some {| balance := fzero; positions := 1000;
            last_trade_time := Some bar_time |} /\
  snd (run64 no_fault "09:17:15"
         (Ok (Some (signal_file "SELL" bar_time "0.5871"))) t1) = t1.
Proof.
  cbv zeta. split; [vm_compute; reflexivity|].
  apply (stamped_signal_is_not_traded_again (of_Z 100000) as_double text_only
           no_fault "09:17:05"
           [("timestamp", JStr bar_time); ("signal", JStr "BUY");
            ("confidence", JNum "0.6123"); ("rsi", JNum "50.0")]%string
           (store [of_Z 100] (of_Z 100000) 0 None "CONTINUE")
           no_fault "09:17:15"
           [("timestamp", JStr bar_time); ("signal", JStr "SELL");
            ("confidence", JNum "0.5871"); ("rsi", JNum "50.0")]%string).
  - intros H. vm_compute in H. discriminate H.
  - exact I.
  - reflexivity.
  - reflexivity.
  - reflexivity.
Defined.

End PassScenarios.

(** ** The risk manager *)

Section ManagerProperties.

Import Json GeminiManager.

Variable cfg : Config.

Implicit Types (st : Rotation) (msg text : string) (gemini : Endpoint).

Lemma rotate_model_ok st :
  n_models cfg <> 0%nat -> rotate_model cfg st = Ok (next_model cfg st).
Proof.
  intros H. unfold rotate_model.
  destruct (Nat.eqb_spec (n_models cfg) 0); [contradiction | reflexivity].
Qed.

Lemma rotate_api_ok st :
  n_keys cfg <> 0%nat -> rotate_api cfg st = Ok (next_api cfg st).
Proof.
  intros H. unfold rotate_api.
  destruct (Nat.eqb_spec (n_keys cfg) 0); [contradiction | reflexivity].
Qed.

(** the [except] clause, case by case *)
Lemma on_exception_cases st msg :
  n_keys cfg <> 0%nat -> n_models cfg <> 0%nat ->
  on_exception cfg st msg =
    if is_not_found msg then Ok (Retry (next_model cfg st))
    else if is_rate_limit msg then
      if Nat.ltb (current_model_idx st) (n_models cfg - 1)
      then Ok (Retry (next_model cfg st))
      else if Nat.ltb (current_api_idx st) (n_keys cfg - 1)
      then Ok (Retry (next_api cfg st))
      else Ok (Stop ("CONTINUE", JStr "All APIs exhausted")%string)
    else Ok (Retry (next_model cfg st)).
Proof.
  intros Hk Hm. unfold on_exception, retry.
  rewrite (rotate_model_ok st Hm), (rotate_api_ok st Hk). reflexivity.
Qed.

Lemma on_exception_never_raises st msg :
  n_keys cfg <> 0%nat -> n_models cfg <> 0%nat ->
  exists h, on_exception cfg st msg = Ok h.
Proof.
  intros Hk Hm. rewrite (on_exception_cases st msg Hk Hm).
  destruct (is_not_found msg); [eauto|].
  destruct (is_rate_limit msg); [|eauto].
  destruct (Nat.ltb _ _); [eauto|]. destruct (Nat.ltb _ _); eauto.
Qed.

(** an answered request ends the evaluation on the spot *)
Lemma sweep_response gemini n i st text :
  attempt cfg gemini i st = Response text ->
  sweep cfg gemini (S n) i st =
    {| returned := Ok (parse_response text); final := st;
       tried := [here st]; answered := true |}.
Proof. intros H. simpl. rewrite H. reflexivity. Qed.

(** what any run of the loop satisfies *)
Lemma sweep_bounded gemini :
  n_keys cfg <> 0%nat -> n_models cfg <> 0%nat ->
  forall n i st,
    let s := sweep cfg gemini n i st in
    (List.length (tried s) <= n)%nat /\
    exists a r,
      returned s = Ok (a, r) /\
      (answered s = false ->
       a = "CONTINUE"%string /\
       (r = JStr "All APIs exhausted" \/
        r = JStr "Failed" /\ List.length (tried s) = n)).
Proof.
  intros Hk Hm. induction n as [|n IH]; intros i st; cbn zeta.
  - simpl. split; [lia|]. exists "CONTINUE"%string, (JStr "Failed"). auto.
  - simpl. destruct (attempt cfg gemini i st) as [text|msg].
    + simpl. split; [lia|].
      destruct (parse_response text) as [a r]. exists a, r.
      split; [reflexivity | discriminate].
    + destruct (on_exception_never_raises st msg Hk Hm) as [h Hh].
      rewrite Hh. destruct h as [st'|[a r]].
      * specialize (IH (S i) st'). cbn zeta in IH.
        destruct IH as [Hlen (a & r & Hret & Hfail)].
        simpl. split; [lia|]. exists a, r. split; [exact Hret|].
        intros Hans. destruct (Hfail Hans) as [Ha [Hr|[Hr Hl]]].
        -- auto.
        -- split; [exact Ha|]. right. split; [exact Hr | lia].
      * simpl. split; [lia|].
        rewrite (on_exception_cases st msg Hk Hm) in Hh.
        destruct (is_not_found msg); [discriminate|].
        destruct (is_rate_limit msg); [|discriminate].
        destruct (Nat.ltb _ _); [discriminate|].
        destruct (Nat.ltb _ _); [discriminate|].
        injection Hh as Ha Hr. subst a r.
        exists "CONTINUE"%string, (JStr "All APIs exhausted"). auto.
Qed.

(** *** How a run of the loop ends *)

Section SweepOutcome.

Hypothesis Hk : n_keys cfg <> 0%nat.
Hypothesis Hm : n_models cfg <> 0%nat.

Lemma rotation_here st : rotation (here st) = st.
Proof. now destruct st. Qed.

(** the [except] clause stops exactly on a quota error at the last model
    of the last credential *)
Lemma on_exception_stops st msg :
  (quota_at_last_endpoint cfg (here st) msg ->
   on_exception cfg st msg =
     Ok (Stop ("CONTINUE", JStr "All APIs exhausted")%string)) /\
  (forall r, on_exception cfg st msg = Ok (Stop r) ->
             r = ("CONTINUE", JStr "All APIs exhausted")%string /\
             quota_at_last_endpoint cfg (here st) msg) /\
  (forall st', on_exception cfg st msg = Ok (Retry st') ->
               ~ quota_at_last_endpoint cfg (here st) msg).
Proof.
  rewrite (on_exception_cases st msg Hk Hm).
  unfold quota_at_last_endpoint, here. cbn [fst snd].
  destruct (is_not_found msg).
  { split; [intros (H & _); discriminate|].
    split; [discriminate | intros st' _ (H & _); discriminate]. }
  destruct (is_rate_limit msg).
  2:{ split; [intros (_ & H & _); discriminate|].
      split; [discriminate | intros st' _ (_ & H & _); discriminate]. }
  destruct (Nat.ltb_spec (current_model_idx st) (n_models cfg - 1)).
  { split; [intros (_ & _ & H1 & _); lia|].
    split; [discriminate | intros st' _ (_ & _ & H1 & _); lia]. }
  destruct (Nat.ltb_spec (current_api_idx st) (n_keys cfg - 1)).
  { split; [intros (_ & _ & _ & H1); lia|].
    split; [discriminate | intros st' _ (_ & _ & _ & H1); lia]. }
  split; [reflexivity|]. split; [|discriminate].
  intros r E. injection E as <-. auto.
Qed.

(** How a run of the loop ends, and what came before: every attempt but
    the last failed and was retried; the last attempt was answered, or
    stopped the sweep, or used up the attempts. *)
Lemma sweep_outcome gemini : forall n i st,
  let s := sweep cfg gemini n i st in
  (forall j e,
      List.nth_error (tried s) j = Some e ->
      (S j < List.length (tried s))%nat ->
      exists msg st',
        attempt cfg gemini (i + j) (rotation e) = Failure msg /\
        on_exception cfg (rotation e) msg = Ok (Retry st')) /\
  ((n = 0%nat /\ tried s = [] /\ answered s = false /\
    returned s = Ok ("CONTINUE", JStr "Failed")%string)
   \/
   (exists l text,
       tried s = (l ++ [here (final s)])%list /\
       attempt cfg gemini (i + List.length l) (final s) = Response text /\
       answered s = true /\
       returned s = Ok (parse_response text))
   \/
   (exists l msg,
       tried s = (l ++ [here (final s)])%list /\
       attempt cfg gemini (i + List.length l) (final s) = Failure msg /\
       quota_at_last_endpoint cfg (here (final s)) msg /\
       answered s = false /\
       returned s = Ok ("CONTINUE", JStr "All APIs exhausted")%string)
   \/
   (exists l last msg,
       tried s = (l ++ [here last])%list /\
       List.length (tried s) = n /\
       attempt cfg gemini (i + List.length l) last = Failure msg /\
       on_exception cfg last msg = Ok (Retry (final s)) /\
       answered s = false /\
       returned s = Ok ("CONTINUE", JStr "Failed")%string)).
Proof.
  induction n as [|n IH]; intros i st; cbn zeta.
  { simpl. split; [intros [|j] e H; discriminate|]. left. auto. }
  simpl. destruct (attempt cfg gemini i st) as [text|msg] eqn:Hatt.
  { cbn [tried final answered returned]. split.
    - intros [|[|j]] e H Hlen; simpl in Hlen; lia || discriminate.
    - right; left. exists [], text. rewrite Nat.add_0_r. auto. }
  destruct (on_exception_never_raises st msg Hk Hm) as [h Hh].
  rewrite Hh. destruct h as [st'|r].
  2:{ cbn [tried final answered returned]. split.
      - intros [|[|j]] e H Hlen; simpl in Hlen; lia || discriminate.
      - destruct (proj1 (proj2 (on_exception_stops st msg)) r Hh) as [-> Hq].
        right; right; left. exists [], msg. rewrite Nat.add_0_r. auto. }
  specialize (IH (S i) st'). cbn zeta in IH.
  destruct IH as [Hearly Hend].
  set (s' := sweep cfg gemini n (S i) st') in *.
  cbn [tried final answered returned]. split.
  - intros [|j] e H Hlen.
    + injection H as <-. rewrite rotation_here, Nat.add_0_r. eauto.
    + cbn [List.nth_error] in H. cbn [List.length] in Hlen.
      replace (i + S j)%nat with (S i + j)%nat by lia.
      apply Hearly; [exact H | lia].
  - right.
    destruct Hend as [(-> & Ht & Ha & Hr)
                     |[(l & text & Ht & Hat & Ha & Hr)
                      |[(l & msg' & Ht & Hat & Hq & Ha & Hr)
                       |(l & last & msg' & Ht & Hlen & Hat & Hex & Ha & Hr)]]].
    + right; right. exists [], st, msg. rewrite Ht, Nat.add_0_r.
      cbn [sweep final] in *. repeat split; assumption || reflexivity.
    + left. exists (here st :: l), text. rewrite Ht.
      replace (i + List.length (here st :: l))%nat
        with (S i + List.length l)%nat by (simpl; lia). auto.
    + right; left. exists (here st :: l), msg'. rewrite Ht.
      replace (i + List.length (here st :: l))%nat
        with (S i + List.length l)%nat by (simpl; lia). auto.
    + right; right. exists (here st :: l), last, msg'. rewrite Ht.
      replace (i + List.length (here st :: l))%nat
        with (S i + List.length l)%nat by (simpl; lia).
      rewrite Ht in Hlen. cbn [List.length List.app].
      repeat split; try assumption; try reflexivity. lia.
Qed.


(** every attempt of a run that was not answered failed *)
Lemma sweep_unanswered_all_failed gemini n i st :
  let s := sweep cfg gemini n i st in
  answered s = false ->
  forall j e, List.nth_error (tried s) j = Some e ->
              exists msg, attempt cfg gemini (i + j) (rotation e) = Failure msg.
Proof.
  cbn zeta. intros Hans j e Hj.
  destruct (sweep_outcome gemini n i st) as [Hearly Hend]. cbn zeta in *.
  assert (Hlt : (j < List.length (tried (sweep cfg gemini n i st)))%nat).
  { apply List.nth_error_Some. congruence. }
  destruct (Nat.eq_dec (S j) (List.length (tried (sweep cfg gemini n i st))))
    as [Elast|Enot].
  2:{ destruct (Hearly j e Hj ltac:(lia)) as (msg & st' & H & _). eauto. }
  destruct Hend as [(_ & Ht & _)
                   |[(l & text & Ht & Hat & Ha & Hr)
                    |[(l & msg & Ht & Hat & Hq & Ha & Hr)
                     |(l & last & msg & Ht & Hlen & Hat & Hex & Ha & Hr)]]].
  - rewrite Ht in Hlt. simpl in Hlt. lia.
  - congruence.
  - rewrite Ht in Hj, Elast. rewrite List.length_app in Elast. simpl in Elast.
    assert (j = List.length l) by lia. subst j.
    rewrite List.nth_error_app2, Nat.sub_diag in Hj by lia.
    injection Hj as <-. rewrite rotation_here. eauto.
  - rewrite Ht in Hj, Elast. rewrite List.length_app in Elast. simpl in Elast.
    assert (j = List.length l) by lia. subst j.
    rewrite List.nth_error_app2, Nat.sub_diag in Hj by lia.
    injection Hj as <-. rewrite rotation_here. eauto.
Qed.

(** a run returns "All APIs exhausted" exactly when its last attempt
    failed with a quota error at the last model of the last credential,
    and "Failed" exactly when it made all its attempts and none failed
    that way *)
Lemma sweep_unanswered_reason gemini n i st :
  let s := sweep cfg gemini n i st in
  let stopped :=
    exists l e msg,
      tried s = (l ++ [e])%list /\
      attempt cfg gemini (i + List.length l) (rotation e) = Failure msg /\
      quota_at_last_endpoint cfg e msg in
  let never_stopped :=
    forall j e msg,
      List.nth_error (tried s) j = Some e ->
      attempt cfg gemini (i + j) (rotation e) = Failure msg ->
      ~ quota_at_last_endpoint cfg e msg in
  answered s = false ->
  exists r,
    returned s = Ok ("CONTINUE"%string, JStr r) /\
    (r = "All APIs exhausted"%string \/ r = "Failed"%string) /\
    (r = "All APIs exhausted"%string <-> stopped) /\
    (r = "Failed"%string <-> List.length (tried s) = n /\ never_stopped).
Proof.
  cbn zeta. intros Hans.
  destruct (sweep_outcome gemini n i st) as [Hearly Hend]. cbn zeta in *.
  set (s := sweep cfg gemini n i st) in *.
  assert (Hlast : forall l e, tried s = (l ++ [e])%list ->
                    List.nth_error (tried s) (List.length l) = Some e).
  { intros l e ->. now rewrite List.nth_error_app2, Nat.sub_diag by lia. }
  destruct Hend as [(-> & Ht & _ & Hr)
                   |[(l & text & Ht & Hat & Ha & Hr)
                    |[(l & msg & Ht & Hat & Hq & Ha & Hr)
                     |(l & last & msg & Ht & Hlen & Hat & Hex & Ha & Hr)]]].
  - exists "Failed"%string. split; [exact Hr|]. split; [now right|]. split.
    + split; [discriminate|]. intros (l & e & msg & H & _).
      rewrite Ht in H. now destruct l.
    + split; [|reflexivity]. intros _. rewrite Ht. split; [reflexivity|].
      intros [|j] e msg H; discriminate.
  - congruence.
  - exists "All APIs exhausted"%string. split; [exact Hr|].
    split; [now left|]. split.
    + split; [|reflexivity]. intros _.
      exists l, (here (final s)), msg. rewrite rotation_here. auto.
    + split; [discriminate|]. intros [_ Hnever]. exfalso.
      apply (Hnever (List.length l) (here (final s)) msg).
      * now apply Hlast.
      * now rewrite rotation_here.
      * exact Hq.
  - assert (Hnever : forall j e msg',
               List.nth_error (tried s) j = Some e ->
               attempt cfg gemini (i + j) (rotation e) = Failure msg' ->
               ~ quota_at_last_endpoint cfg e msg').
    { intros j e msg' Hj Hatt.
      assert (Hlt : (j < List.length (tried s))%nat).
      { apply List.nth_error_Some. congruence. }
      destruct (Nat.eq_dec (S j) (List.length (tried s))) as [Elast|Enot].
      - rewrite Ht in Hj, Elast. rewrite List.length_app in Elast.
        simpl in Elast. assert (j = List.length l) by lia. subst j.
        rewrite List.nth_error_app2, Nat.sub_diag in Hj by lia.
        injection Hj as <-. rewrite rotation_here in Hatt.
        rewrite Hat in Hatt. injection Hatt as <-.
        exact (proj2 (proj2 (on_exception_stops last msg)) _ Hex).
      - destruct (Hearly j e Hj ltac:(lia)) as (m & st' & H1 & H2).
        rewrite H1 in Hatt. injection Hatt as <-.
        pose proof (proj2 (proj2 (on_exception_stops (rotation e) m)) _ H2) as H.
        destruct e as [k m']. exact H. }
    exists "Failed"%string. split; [exact Hr|]. split; [now right|]. split.
    + split; [discriminate|]. intros (l' & e & msg' & H & Hatt & Hq).
      exfalso. apply (Hnever (List.length l') e msg'); auto.
    + split; [|reflexivity]. intros _. split; [exact Hlen | exact Hnever].
Qed.

(** an answered run returns what [parse_response] makes of the text its
    last attempt received *)
Lemma sweep_answered gemini n i st :
  let s := sweep cfg gemini n i st in
  answered s = true ->
  exists l text,
    tried s = (l ++ [here (final s)])%list /\
    attempt cfg gemini (i + List.length l) (final s) = Response text /\
    returned s = Ok (parse_response text).
Proof.
  cbn zeta. intros Hans.
  destruct (sweep_outcome gemini n i st) as [_ Hend]. cbn zeta in *.
  destruct Hend as [(_ & _ & Ha & _)
                   |[(l & text & Ht & Hat & Ha & Hr)
                    |[(l & msg & Ht & Hat & Hq & Ha & Hr)
                     |(l & last & msg & Ht & Hlen & Hat & Hex & Ha & Hr)]]];
    try congruence.
  exists l, text. auto.
Qed.

End SweepOutcome.

(** C6, as amended: an evaluation tries at most |credentials| x |models|
    endpoints and always returns an (action, reason) pair, never an
    exception.  When no request was answered, every attempt made failed
    and the action is CONTINUE; the reason is "All APIs exhausted"
    exactly when the last attempt failed with a quota error at the last
    model of the last credential, which ends the sweep there, and
    "Failed" exactly when all |credentials| x |models| attempts were made
    and none of them failed that way. *)
Theorem get_command_is_bounded_and_total gemini st :
  let s := get_command cfg gemini st in
  let attempts := (n_keys cfg * n_models cfg)%nat in
  let stopped :=
    exists l e msg,
      tried s = (l ++ [e])%list /\
      attempt cfg gemini (List.length l) (rotation e) = Failure msg /\
      quota_at_last_endpoint cfg e msg in
  let never_stopped :=
    forall j e msg,
      List.nth_error (tried s) j = Some e ->
      attempt cfg gemini j (rotation e) = Failure msg ->
      ~ quota_at_last_endpoint cfg e msg in
  (List.length (tried s) <= attempts)%nat /\
  exists a r,
    returned s = Ok (a, r) /\
    (answered s = false ->
     a = "CONTINUE"%string /\
     (forall j e, List.nth_error (tried s) j = Some e ->
                  exists msg, attempt cfg gemini j (rotation e) = Failure msg) /\
     (r = JStr "All APIs exhausted" \/ r = JStr "Failed") /\
     (r = JStr "All APIs exhausted" <-> stopped) /\
     (r = JStr "Failed" <-> List.length (tried s) = attempts /\ never_stopped)).
Proof.
  cbv zeta. unfold get_command.
  destruct (Nat.eq_dec (n_keys cfg * n_models cfg) 0) as [E|E].
  - rewrite E. simpl. split; [lia|].
    exists "CONTINUE"%string, (JStr "Failed"). split; [reflexivity|].
    intros _. split; [reflexivity|].
    split; [intros [|j] e H; discriminate|]. split; [now right|]. split.
    + split; [discriminate|]. intros (l & e & msg & H & _). now destruct l.
    + split; [|reflexivity]. intros _. split; [reflexivity|].
      intros [|j] e msg H; discriminate.
  - assert (Hk : n_keys cfg <> 0%nat) by lia.
    assert (Hm : n_models cfg <> 0%nat) by lia.
    set (n := (n_keys cfg * n_models cfg)%nat).
    destruct (sweep_bounded gemini Hk Hm n 0%nat st)
      as [Hlen (a & r & Hret & _)].
    split; [exact Hlen|]. exists a, r. split; [exact Hret|].
    intros Hans.
    destruct (sweep_unanswered_reason Hk Hm gemini n 0%nat st Hans)
      as (r0 & Hr0 & Hor & Hstop & Hfail).
    rewrite Hret in Hr0. injection Hr0 as -> ->.
    split; [reflexivity|].
    split; [exact (sweep_unanswered_all_failed Hk Hm gemini n 0%nat st Hans)|].
    split; [destruct Hor as [->| ->]; auto|].
    split.
    + rewrite <- Hstop. split; [now intros [= ->] | now intros ->].
    + rewrite <- Hfail. split; [now intros [= ->] | now intros ->].
Qed.

(** C7, as amended: after a failed attempt the [except] clause moves the
    rotation by the class of the failure.  A not-found error, and any
    error that is neither not-found nor a quota error, moves to the next
    model (modulo the number of models) under the same credential.  A
    quota error moves to the next model when the current one is not the
    last; at the last model it moves to the next credential with the
    model index reset to 0 when the current credential is not the last;
    at the last model of the last credential it moves nothing: the
    evaluation stops there with (CONTINUE, "All APIs exhausted") and the
    rotation stays as it was. *)
Theorem failure_moves_rotation_by_class st msg :
  n_keys cfg <> 0%nat -> n_models cfg <> 0%nat ->
  let same_credential_next_model :=
    {| current_api_idx := current_api_idx st;
       current_model_idx := (current_model_idx st + 1) mod n_models cfg |} in
  let next_credential_first_model :=
    {| current_api_idx := (current_api_idx st + 1) mod n_keys cfg;
       current_model_idx := 0 |} in
  (is_not_found msg = true ->
   on_exception cfg st msg = Ok (Retry same_credential_next_model)) /\
  (is_not_found msg = false -> is_rate_limit msg = false ->
   on_exception cfg st msg = Ok (Retry same_credential_next_model)) /\
  (is_not_found msg = false -> is_rate_limit msg = true ->
   (current_model_idx st < n_models cfg - 1)%nat ->
   on_exception cfg st msg = Ok (Retry same_credential_next_model)) /\
  (is_not_found msg = false -> is_rate_limit msg = true ->
   (n_models cfg - 1 <= current_model_idx st)%nat ->
   (current_api_idx st < n_keys cfg - 1)%nat ->
   on_exception cfg st msg = Ok (Retry next_credential_first_model)) /\
  (is_not_found msg = false -> is_rate_limit msg = true ->
   (n_models cfg - 1 <= current_model_idx st)%nat ->
   (n_keys cfg - 1 <= current_api_idx st)%nat ->
   on_exception cfg st msg =
     Ok (Stop ("CONTINUE", JStr "All APIs exhausted")%string) /\
   forall gemini n i,
     attempt cfg gemini i st = Failure msg ->
     final (sweep cfg gemini (S n) i st) = st /\
     tried (sweep cfg gemini (S n) i st) = [here st]).
Proof.
  intros Hk Hm. cbv zeta.
  pose proof (on_exception_cases st msg Hk Hm) as E.
  unfold next_model, next_api in E.
  split; [|split; [|split; [|split]]].
  - intros H. now rewrite E, H.
  - intros H1 H2. now rewrite E, H1, H2.
  - intros H1 H2 H3. apply Nat.ltb_lt in H3. now rewrite E, H1, H2, H3.
  - intros H1 H2 H3 H4. apply Nat.ltb_ge in H3. apply Nat.ltb_lt in H4.
    now rewrite E, H1, H2, H3, H4.
  - intros H1 H2 H3 H4. apply Nat.ltb_ge in H3, H4.
    assert (Hstop : on_exception cfg st msg =
                    Ok (Stop ("CONTINUE", JStr "All APIs exhausted")%string))
      by now rewrite E, H1, H2, H3, H4.
    split; [exact Hstop|].
    intros gemini n i Hatt. simpl. rewrite Hatt, Hstop. now split.
Qed.

Lemma on_exception_not_quota st msg :
  n_keys cfg <> 0%nat -> n_models cfg <> 0%nat ->
  not_quota msg = true ->
  on_exception cfg st msg = Ok (Retry (next_model cfg st)).
Proof.
  intros Hk Hm H. rewrite (on_exception_cases st msg Hk Hm).
  unfold not_quota in H.
  destruct (is_not_found msg); [reflexivity|].
  destruct (is_rate_limit msg); [discriminate | reflexivity].
Qed.

Lemma index_error_not_quota : not_quota "list index out of range" = true.
Proof. reflexivity. Qed.

Lemma same_credential_trace_S st n :
  (current_model_idx st < n_models cfg)%nat ->
  same_credential_trace cfg st (S n) = here st :: same_credential_trace cfg (next_model cfg st) n.
Proof.
  intros Hin. unfold same_credential_trace. cbn [List.seq List.map].
  rewrite Nat.add_0_r, Nat.mod_small by exact Hin.
  f_equal. rewrite <- List.seq_shift, List.map_map.
  apply List.map_ext. intros j. cbn [next_model current_api_idx current_model_idx].
  f_equal. rewrite Nat.Div0.add_mod_idemp_l. f_equal. lia.
Qed.

Lemma sweep_not_quota gemini :
  n_keys cfg <> 0%nat -> n_models cfg <> 0%nat ->
  (forall i k m, exists msg,
      gemini i k m = Failure msg /\ not_quota msg = true) ->
  forall n i st,
    (current_model_idx st < n_models cfg)%nat ->
    let s := sweep cfg gemini n i st in
    tried s = same_credential_trace cfg st n /\
    returned s = Ok ("CONTINUE", JStr "Failed")%string /\
    answered s = false /\
    current_api_idx (final s) = current_api_idx st.
Proof.
  intros Hk Hm Hfail. induction n as [|n IH]; intros i st Hin; cbn zeta.
  - simpl. auto.
  - rewrite (same_credential_trace_S st n Hin). simpl.
    assert (Hatt : exists msg, attempt cfg gemini i st = Failure msg
                               /\ not_quota msg = true).
    { unfold attempt. destruct (configure_gemini cfg st) as [[k m]|e].
      - apply Hfail.
      - eexists. split; [reflexivity | apply index_error_not_quota]. }
    destruct Hatt as (msg & -> & Hnq).
    rewrite (on_exception_not_quota st msg Hk Hm Hnq).
    assert (Hin' : (current_model_idx (next_model cfg st) < n_models cfg)%nat).
    { simpl. apply Nat.mod_upper_bound. exact Hm. }
    specialize (IH (S i) (next_model cfg st) Hin'). cbn zeta in IH.
    destruct IH as (Ht & Hr & Ha & Hf). simpl.
    rewrite Ht. auto.
Qed.

(** C10: the credential index moves only in the quota branch, and only
    from the last model; a not-found error and any other error that is
    not a quota error advance the model index modulo the number of models
    and keep the credential index; so an evaluation in which every
    request fails with such errors walks round the models of the one
    credential it started on for all |credentials| x |models| attempts,
    tries no other credential, and ends with the credential index
    unchanged. *)
Theorem credential_changes_only_on_quota_at_last_model :
  n_keys cfg <> 0%nat -> n_models cfg <> 0%nat ->
  (forall st msg st',
      on_exception cfg st msg = Ok (Retry st') ->
      current_api_idx st' <> current_api_idx st ->
      is_not_found msg = false /\ is_rate_limit msg = true /\
      (n_models cfg - 1 <= current_model_idx st)%nat) /\
  (forall st msg,
      is_not_found msg = true \/ is_rate_limit msg = false ->
      on_exception cfg st msg =
        Ok (Retry
              {| current_api_idx := current_api_idx st;
                 current_model_idx :=
                   (current_model_idx st + 1) mod n_models cfg |})) /\
  (forall gemini st,
      (current_model_idx st < n_models cfg)%nat ->
      (forall i k m, exists msg,
          gemini i k m = Failure msg /\
          (is_not_found msg = true \/ is_rate_limit msg = false)) ->
      let s := get_command cfg gemini st in
      List.length (tried s) = (n_keys cfg * n_models cfg)%nat /\
      (forall j,
          (j < n_keys cfg * n_models cfg)%nat ->
          List.nth_error (tried s) j =
            Some (current_api_idx st,
                  (current_model_idx st + j) mod n_models cfg)%nat) /\
      List.Forall (fun e => fst e = current_api_idx st) (tried s) /\
      current_api_idx (final s) = current_api_idx st).
Proof.
  intros Hk Hm.
  assert (Hnq : forall msg,
             is_not_found msg = true \/ is_rate_limit msg = false ->
             not_quota msg = true).
  { intros msg [H|H]; unfold not_quota; rewrite H;
      [reflexivity | apply Bool.orb_true_r]. }
  split; [|split].
  - intros st msg st' H Hne.
    rewrite (on_exception_cases st msg Hk Hm) in H.
    destruct (is_not_found msg);
      [injection H as <-; now contradiction Hne|].
    destruct (is_rate_limit msg);
      [|injection H as <-; now contradiction Hne].
    destruct (Nat.ltb_spec (current_model_idx st) (n_models cfg - 1));
      [injection H as <-; now contradiction Hne|].
    auto.
  - intros st msg H. apply (on_exception_not_quota st msg Hk Hm), Hnq, H.
  - intros gemini st Hin Hfail s.
    assert (Hfail' : forall i k m, exists msg,
               gemini i k m = Failure msg /\ not_quota msg = true).
    { intros i k m. destruct (Hfail i k m) as (msg & E & H).
      exists msg. split; [exact E | apply Hnq, H]. }
    destruct (sweep_not_quota gemini Hk Hm Hfail'
                (n_keys cfg * n_models cfg)%nat 0%nat st Hin)
      as (Ht & _ & _ & Hf).
    fold (get_command cfg gemini st) in Ht, Hf. fold s in Ht, Hf.
    rewrite Ht. unfold same_credential_trace.
    split; [now rewrite List.length_map, List.length_seq|].
    split; [|split; [|exact Hf]].
    + intros j Hj. rewrite List.nth_error_map, List.nth_error_seq.
      destruct (Nat.ltb_spec j (n_keys cfg * n_models cfg)); [reflexivity | lia].
    + apply List.Forall_map, List.Forall_forall. reflexivity.
Qed.

(** *** The first brace group of a response *)

Lemma search_braces_starts_open s : forall m,
  search_braces s = Some m -> exists body, m = String open_brace body.
Proof.
  induction s as [|c r IH]; intros m; simpl; [discriminate|].
  destruct (Ascii.eqb_spec c open_brace) as [->|_]; [|apply IH].
  destruct (until_close r) as [[|b body]|]; try apply IH.
  intros H. injection H as <-. eauto.
Qed.

(** [json.loads] of a text that starts with an opening brace is an
    object, or raises *)
Lemma loads_brace_is_object r v :
  loads (String open_brace r) = Ok v -> exists data, v = JObj data.
Proof.
  unfold loads.
  change (skip_ws (String open_brace r)) with (String open_brace r).
  replace (2 * String.length (String open_brace r) + 2)%nat
    with (S (2 * String.length (String open_brace r) + 1))%nat by lia.
  set (fuel := (2 * String.length (String open_brace r) + 1)%nat).
  cbn [scan_once].
  change (N.eqb (N_of_ascii open_brace) 34) with false.
  change (Ascii.eqb open_brace "{"%char) with true. cbv iota.
  assert (H : forall o : option (json * string),
             (o = None \/ exists d t, o = Some (JObj d, t)) ->
             match o with
             | Some (v', r') =>
                 match skip_ws r' with
                 | EmptyString => Ok v'
                 | _ => Raise JSONDecodeError
                 end
             | None => Raise JSONDecodeError
             end = Ok v -> exists data, v = JObj data).
  { intros o [->|(d & t & ->)]; [discriminate|].
    destruct (skip_ws t); [|discriminate]. intros E. injection E as <-. eauto. }
  apply H.
  destruct (skip_ws r) as [|c t].
  - destruct (scan_members fuel EmptyString []) as [[d t]|]; eauto.
  - destruct c as [[] [] [] [] [] [] [] []];
      try (destruct (scan_members fuel _ []) as [[d t']|]; eauto);
      eauto.
Qed.


End ManagerProperties.

(** ** The quant engine *)

Section QuantProperties.

Import QuantEngine.

Context {num : Type} {NUM : PyNum num}.
Variable fit_predict : list (list num * Z) -> list num -> Z * num.
Variable round : num -> nat -> num.

Implicit Types (df : list (@Row num)) (r next : @Row num).

Lemma length_target (closes : list num) :
  List.length (target closes) = List.length closes.
Proof. induction closes as [|c rest IH]; simpl; [reflexivity | now rewrite IH]. Qed.

Lemma map_fst_labelled df :
  List.map fst (List.combine df (target (List.map Close df))) = df.
Proof. induction df as [|r rest IH]; simpl; [reflexivity | now rewrite IH]. Qed.

Lemma length_labelled df :
  List.length (List.combine df (target (List.map Close df))) = List.length df.
Proof.
  rewrite <- (List.length_map fst), map_fst_labelled. reflexivity.
Qed.

(** a row that has a next row is labelled by comparing the two closes *)
Lemma labelled_nth df : forall i r next,
  List.nth_error df i = Some r -> List.nth_error df (S i) = Some next ->
  List.nth_error (List.combine df (target (List.map Close df))) i =
    Some (r, if num_lt (Close r) (Close next) then 1 else 0).
Proof.
  induction df as [|r0 rest IH]; intros i r next Hr Hn; [destruct i; discriminate|].
  destruct i as [|i].
  - simpl in Hr. injection Hr as <-.
    destruct rest as [|r1 rest']; [discriminate|].
    simpl in Hn. injection Hn as <-. reflexivity.
  - simpl in Hr. change (List.nth_error rest (S i) = Some next) in Hn.
    simpl. apply (IH i r next Hr Hn).
Qed.

Lemma length_df_train df :
  List.length (df_train df) = (List.length df - 1)%nat.
Proof.
  unfold df_train. rewrite List.removelast_firstn_len, List.length_firstn.
  rewrite length_labelled. lia.
Qed.

Lemma last_some_nil {A : Type} (l : list A) :
  List.last (List.map Some l) None = None -> l = [].
Proof.
  induction l as [|a l IH]; [reflexivity|].
  destruct l as [|b l']; [discriminate|].
  intros H. specialize (IH H). discriminate.
Qed.

(** C9: every row of the training set carries the label 1 when the close
    of the next row is strictly greater than its own and the label 0
    otherwise; the training set is the dataframe without its final row;
    [train_and_predict] returns [None], without an exception, exactly
    when fewer than 50 labelled rows remain; and otherwise the classifier
    it consults is fitted on exactly those labelled rows -- the feature
    columns and the label of each -- and asked about the final row. *)
Theorem labels_and_training_guard df :
  (forall i r next,
      List.nth_error df i = Some r -> List.nth_error df (S i) = Some next ->
      List.nth_error (df_train df) i =
        Some (r, if num_lt (Close r) (Close next) then 1 else 0)) /\
  List.map fst (df_train df) = List.removelast df /\
  List.length (df_train df) = (List.length df - 1)%nat /\
  (train_and_predict fit_predict round df = None <->
   (List.length (df_train df) < 50)%nat) /\
  (forall front latest,
      df = (front ++ [latest])%list -> (50 <= List.length front)%nat ->
      let X_y :=
        List.map (fun rz => (features (fst rz), snd rz)) (df_train df) in
      let answer := fit_predict X_y (features latest) in
      List.map fst X_y = List.map features front /\
      train_and_predict fit_predict round df =
        Some {| pred_timestamp := Datetime latest;
                pred_signal := if fst answer =? 1 then "BUY" else "SELL";
                pred_confidence := round (snd answer) 4;
                pred_rsi := round (RSI latest) 2 |}).
Proof.
  assert (Hfst : List.map fst (df_train df) = List.removelast df).
  { unfold df_train.
    rewrite !List.removelast_firstn_len, <- List.firstn_map, map_fst_labelled.
    now rewrite length_labelled. }
  split; [|split; [|split; [|split]]].
  - intros i r next Hr Hn. unfold df_train.
    rewrite List.removelast_firstn_len, List.nth_error_firstn, length_labelled.
    assert (Hlt : (S i < List.length df)%nat).
    { apply List.nth_error_Some. congruence. }
    destruct (Nat.ltb_spec i (Nat.pred (List.length df))); [|lia].
    now apply labelled_nth.
  - exact Hfst.
  - apply length_df_train.
  - unfold train_and_predict.
    destruct (Nat.ltb_spec (List.length (df_train df)) 50) as [Hlt|Hge].
    + split; [intros _; exact Hlt | reflexivity].
    + split; [|lia].
      destruct (List.last (List.map Some df) None) as [latest|] eqn:Hlast.
      * destruct (fit_predict _ _). discriminate.
      * apply last_some_nil in Hlast. subst df. simpl in Hge. lia.
  - intros front latest Hdf Hlen. cbv zeta. split.
    + rewrite List.map_map. cbn [fst].
      rewrite <- (List.map_map fst features), Hfst, Hdf.
      now rewrite List.removelast_last.
    + unfold train_and_predict.
      destruct (Nat.ltb_spec (List.length (df_train df)) 50) as [Hlt|_].
      { rewrite length_df_train, Hdf, List.length_app in Hlt.
        simpl in Hlt. lia. }
      replace (List.last (List.map Some df) None) with (Some latest).
      2:{ rewrite Hdf, List.map_app.
          change (List.map Some [latest]) with [Some latest].
          now rewrite List.last_last. }
      now destruct (fit_predict _ _).
Qed.

End QuantProperties.

(** ** The shipped configuration: counterexamples and instances *)

Section ManagerScenarios.

Import Json GeminiManager.

Lemma config_has_keys : n_keys config <> 0%nat.
Proof. discriminate. Qed.

Lemma config_has_models : n_models config <> 0%nat.
Proof. discriminate. Qed.

(** C6, as stated, fails: with two credentials and three models and every
    request failing with a server error, the sweep uses all six attempts
    and returns the reason "Failed". *)
Lemma full_sweep_returns_failed :
  let s := get_command config (always_failing "500 Internal Server Error")
             initial in
  answered s = false /\
  tried s = [(0, 0); (0, 1); (0, 2); (0, 0); (0, 1); (0, 2)]%nat /\
  returned s = Ok ("CONTINUE", JStr "Failed")%string /\
  returned s <> Ok ("CONTINUE", JStr "all endpoints exhausted")%string.
Proof.
  cbv zeta. repeat split; try reflexivity. vm_compute. discriminate.
Qed.

Lemma get_command_is_bounded_and_total_witness :
  let s := get_command config (always_failing "429 quota exceeded") initial in
  (List.length (tried s) <= 6)%nat /\
  returned s = Ok ("CONTINUE", JStr "All APIs exhausted")%string /\
  (exists l e msg,
      tried s = (l ++ [e])%list /\
      attempt config (always_failing "429 quota exceeded") (List.length l)
        (rotation e) = Failure msg /\
      quota_at_last_endpoint config e msg) /\
  let s' := get_command config (always_failing "500 Internal Server Error")
              initial in
  List.length (tried s') = 6%nat /\
  forall j e msg,
    List.nth_error (tried s') j = Some e ->
    attempt config (always_failing "500 Internal Server Error") j (rotation e)
      = Failure msg ->
    ~ quota_at_last_endpoint config e msg.
Proof.
  cbv zeta.
  pose proof (get_command_is_bounded_and_total config
                (always_failing "429 quota exceeded") initial) as H.
  pose proof (get_command_is_bounded_and_total config
                (always_failing "500 Internal Server Error") initial) as H'.
  cbv zeta in H, H'.
  destruct H as [Hlen (a & r & Hret & Hun)].
  destruct H' as [_ (a' & r' & Hret' & Hun')].
  injection Hret as <- <-. injection Hret' as <- <-.
  destruct (Hun eq_refl) as (_ & _ & _ & Hstop & _).
  destruct (Hun' eq_refl) as (_ & _ & _ & _ & Hfail).
  split; [exact Hlen|]. split; [reflexivity|].
  split; [exact (proj1 Hstop eq_refl)|].
  exact (proj1 Hfail eq_refl).
Defined.

(** C7, as stated, fails: a quota error at the last model of the last
    credential does not advance to another credential; the rotation stays
    where it is and the evaluation stops. *)
Lemma quota_at_last_endpoint_keeps_rotation :
  let st := {| current_api_idx := 1; current_model_idx := 2 |} in
  let msg := "429 Resource has been exhausted (e.g. check quota)."%string in
  is_not_found msg = false /\ is_rate_limit msg = true /\
  on_exception config st msg =
    Ok (Stop ("CONTINUE", JStr "All APIs exhausted")%string) /\
  on_exception config st msg <>
    Ok (Retry {| current_api_idx := (1 + 1) mod n_keys config;
                 current_model_idx := 0 |}) /\
  final (sweep config (always_failing msg) 6 0 st) = st.
Proof.
  cbv zeta. repeat split; try reflexivity. vm_compute. discriminate.
Qed.

Lemma failure_moves_rotation_by_class_witness :
  on_exception config initial "404 models/gemini-2.5-flash is not found" =
    Ok (Retry {| current_api_idx := 0; current_model_idx := 1 |}).
Proof.
  exact (proj1 (failure_moves_rotation_by_class config initial
                  "404 models/gemini-2.5-flash is not found"
                  config_has_keys config_has_models) eq_refl).
Defined.

Lemma credential_changes_only_on_quota_at_last_model_witness :
  let s := get_command config (always_failing "503 Service Unavailable")
             initial in
  List.length (tried s) = 6%nat /\
  List.Forall (fun e => fst e = 0%nat) (tried s) /\
  current_api_idx (final s) = 0%nat.
Proof.
  cbv zeta.
  destruct (proj2 (proj2 (credential_changes_only_on_quota_at_last_model config
                            config_has_keys config_has_models))
              (always_failing "503 Service Unavailable") initial)
    as (Hlen & _ & Hall & Hfin).
  - vm_compute. lia.
  - intros i k m. exists "503 Service Unavailable"%string.
    split; [reflexivity | right; reflexivity].
  - exact (conj Hlen (conj Hall Hfin)).
Defined.



End ManagerScenarios.

Section QuantScenarios.

Import Binary64 QuantEngine.

Lemma labels_and_training_guard_witness :
  let row := bar of_Z in
  let df := [row "09:15" 100; row "09:16" 101; row "09:17" 101] in
  let fit_predict := fun (_ : list (list float * Z)) (_ : list float) =>
                       (1, fhalf) in
  let round := fun (x : float) (_ : nat) => x in
  List.nth_error (df_train df) 0 = Some (row "09:15" 100, 1) /\
  List.nth_error (df_train df) 1 = Some (row "09:16" 101, 0) /\
  List.length (df_train df) = 2%nat /\
  train_and_predict fit_predict round df = None /\
  (* fifty-one rising bars: the classifier sees fifty rows labelled 1 *)
  let rising := List.map (fun c => row "09:15" (Z.of_nat c)) (List.seq 100 50) in
  let count_ups := fun (X_y : list (list float * Z)) (_ : list float) =>
                     (Z.of_nat (List.length X_y)
                      - List.fold_right Z.add 0 (List.map snd X_y) + 1,
                      fhalf) in
  option_map pred_signal
    (train_and_predict count_ups round (rising ++ [row "10:05" 150])%list)
    = Some "BUY"%string /\
  option_map pred_timestamp
    (train_and_predict count_ups round (rising ++ [row "10:05" 150])%list)
    = Some "10:05"%string.
Proof.
  cbv zeta.
  destruct (labels_and_training_guard
              (fun (_ : list (list float * Z)) (_ : list float) => (1, fhalf))
              (fun (x : float) (_ : nat) => x)
              [bar of_Z "09:15" 100; bar of_Z "09:16" 101; bar of_Z "09:17" 101])
    as (Hlabel & _ & Hlen & Hguard & _).
  split; [exact (Hlabel 0%nat _ _ eq_refl eq_refl)|].
  split; [exact (Hlabel 1%nat _ _ eq_refl eq_refl)|].
  split; [exact Hlen|].
  split; [apply Hguard; rewrite Hlen; simpl; lia|].
  set (rising := List.map (fun c => bar of_Z "09:15" (Z.of_nat c))
                   (List.seq 100 50)).
  set (count_ups := fun (X_y : list (list float * Z)) (_ : list float) =>
                      (Z.of_nat (List.length X_y)
                       - List.fold_right Z.add 0 (List.map snd X_y) + 1,
                       fhalf)).
  destruct (labels_and_training_guard count_ups
              (fun (x : float) (_ : nat) => x)
              (rising ++ [bar of_Z "10:05" 150])%list)
    as (_ & _ & _ & _ & Htrain).
  destruct (Htrain rising (bar of_Z "10:05" 150) eq_refl) as [_ E].
  { unfold rising. rewrite List.length_map, List.length_seq. lia. }
  rewrite E. split; vm_compute; reflexivity.
Defined.

End QuantScenarios.

(** * Further properties *)

(** ** The execution engine: what a pass can write *)

Section ExecutionWrites.

Import ExecutionEngine PassEffects.

Context {num : Type} {NUM : PyNum num}.

Implicit Types (db : TradingDB num) (sig : option Signal) (sg : Signal).

(** the three ways an order ends *)
Lemma execute_buy_cases b pos p t db :
  execute_buy b pos p t db = (Ok (b, pos, false), db) \/
  (exists e, execute_buy b pos p t db = (Raise e, db) /\
             (num_floordiv b p = Raise e \/
              (exists q, num_int q = Raise e) \/
              (exists z, num_of_int z = Raise e))) \/
  (exists q qty fqty,
      num_le b p = false /\ num_floordiv b p = Ok q /\
      num_int q = Ok qty /\ num_of_int qty = Ok fqty /\
      execute_buy b pos p t db =
        (Ok (num_sub b (num_mul fqty p), pos + qty, true),
         after_trade db "BUY" p qty (num_sub b (num_mul fqty p)) (pos + qty) t)).
Proof.
  destruct (num_le b p) eqn:Hle.
  { left. now apply execute_buy_skip. }
  right.
  destruct (num_floordiv b p) as [q|e] eqn:Hq.
  2:{ left. exists e. split; [|now left].
      unfold execute_buy, bind, lift. now rewrite Hle, Hq. }
  destruct (num_int q) as [qty|e] eqn:Hi.
  2:{ left. exists e. split; [|right; left; now exists q].
      unfold execute_buy, bind, lift. now rewrite Hle, Hq, Hi. }
  destruct (num_of_int qty) as [fqty|e] eqn:Hf.
  2:{ left. exists e. split; [|right; right; now exists qty].
      unfold execute_buy, bind, lift. now rewrite Hle, Hq, Hi, Hf. }
  right. exists q, qty, fqty. repeat (split; [reflexivity || assumption|]).
  exact (execute_buy_fill b pos p t db q qty fqty Hle Hq Hi Hf).
Qed.

Lemma execute_sell_cases b pos p t db :
  execute_sell b pos p t db = (Ok (b, pos, false), db) \/
  (exists e, execute_sell b pos p t db = (Raise e, db) /\
             num_of_int pos = Raise e) \/
  (exists fpos,
      0 < pos /\ num_of_int pos = Ok fpos /\
      execute_sell b pos p t db =
        (Ok (num_add b (num_mul fpos p), 0, true),
         after_trade db "SELL" p pos (num_add b (num_mul fpos p)) 0 t)).
Proof.
  destruct (Z.le_gt_cases pos 0) as [Hpos|Hpos].
  { left. now apply execute_sell_skip. }
  right. destruct (num_of_int pos) as [fpos|e] eqn:Hf.
  - right. exists fpos. repeat (split; [reflexivity || assumption|]).
    exact (execute_sell_fill b pos p t db fpos Hpos Hf).
  - left. exists e. split; [|reflexivity].
    unfold execute_sell, bind, lift.
    destruct (Z.leb_spec pos 0); [lia|]. now rewrite Hf.
Qed.

Lemma run_cycle_effect sig db : PassEffect sig db (run_cycle sig db).
Proof.
  assert (Hq : forall r, (forall e, r <> ERROR e) -> PassEffect sig db (r, db)).
  { intros r Hr. apply pass_quiet. intros e He. now apply Hr in He. }
  destruct sig as [sg|];
    [|rewrite run_cycle_no_signal; apply Hq; discriminate].
  destruct (latest_price db) as [p|] eqn:Hp;
    [|rewrite run_cycle_no_price; [apply Hq; discriminate | now rewrite Hp]].
  destruct (num_truthy p) eqn:Ht;
    [|rewrite run_cycle_no_price; [apply Hq; discriminate | now rewrite Hp]].
  destruct (option_string_eqb (timestamp sg) (last_trade_time (portfolio db)))
    eqn:Hs.
  { apply option_string_eqb_eq in Hs.
    rewrite (run_cycle_stale sg db p Hp Ht Hs). apply Hq; discriminate. }
  assert (Hfresh : timestamp sg <> last_trade_time (portfolio db)).
  { intros E. apply option_string_eqb_eq in E. congruence. }
  destruct (String.eqb_spec
              (PyStr.upper (status_action (manager_status db))) "PAUSE")
    as [Hm|Hgo].
  { rewrite (run_cycle_gated sg db p Hp Ht Hs Hm). apply Hq; discriminate. }
  rewrite (run_cycle_acting sg db p Hp Ht Hfresh Hgo).
  set (b := balance (portfolio db)). set (pos := positions (portfolio db)).
  assert (Hsell :
    PassEffect (Some sg) db
      (if (option_string_eqb (signal sg) (Some "SELL"%string) && (0 <? pos))%bool
       then settle (execute_sell b pos p (timestamp sg) db)
       else (ACTING, db))).
  { destruct (option_string_eqb (signal sg) (Some "SELL"%string)) eqn:Hsig;
      cbn [andb]; [|apply Hq; discriminate].
    apply option_string_eqb_eq in Hsig.
    destruct (Z.ltb_spec 0 pos) as [Hpos|Hpos]; [|apply Hq; discriminate].
    destruct (execute_sell_cases b pos p (timestamp sg) db)
      as [E|[(e & E & He)|(fpos & _ & Hf & E)]]; rewrite E; cbn [settle].
    - apply Hq; discriminate.
    - apply pass_quiet. intros e' He'. injection He' as <-.
      exists p. repeat (split; [assumption|]). right; right. now exists pos.
    - now apply (pass_sell _ _ sg p fpos). }
  destruct (option_string_eqb (signal sg) (Some "BUY"%string)) eqn:Hsig;
    cbn [andb]; [|exact Hsell].
  apply option_string_eqb_eq in Hsig.
  destruct (num_lt p b) eqn:Hlt; [|exact Hsell].
  destruct (execute_buy_cases b pos p (timestamp sg) db)
    as [E|[(e & E & He)|(q & qty & fqty & Hle & Hq' & Hi & Hf & E)]];
    rewrite E; cbn [settle].
  - apply Hq; discriminate.
  - apply pass_quiet. intros e' He'. injection He' as <-.
    exists p. now repeat (split; [assumption|]).
  - now apply (pass_buy _ _ sg p q qty fqty).
Qed.

(** X1: a pass of the execution engine writes to the portfolio row and
    the trade log only: the price table and the manager's status come out
    as they went in, whatever the signal. *)
Theorem pass_leaves_prices_and_gate_alone sig db :
  market_data (snd (run_cycle sig db)) = market_data db /\
  manager_status (snd (run_cycle sig db)) = manager_status db.
Proof.
  destruct (run_cycle_effect sig db); now split.
Qed.

(** X5: a signal whose decision is neither BUY nor SELL, or that carries
    no decision at all, never makes the engine write. *)
Theorem unknown_decision_writes_nothing sg db :
  signal sg <> Some "BUY"%string -> signal sg <> Some "SELL"%string ->
  snd (run_cycle (Some sg) db) = db.
Proof.
  intros Hb Hs.
  destruct (run_cycle_effect (Some sg) db)
    as [r _|sg0 p q qty fqty Hsg Hsig|sg0 p fpos Hsg Hsig].
  - reflexivity.
  - injection Hsg as <-. contradiction.
  - injection Hsg as <-. contradiction.
Qed.

End ExecutionWrites.

(** ** The execution engine in binary64: division by zero *)

Section Binary64Errors.

Import Binary64 ExecutionEngine PassEffects.

Lemma float_floor_div_raises (x y : float) (e : exn) :
  float_floor_div x y = Raise e -> is_zero y = true /\ e = ZeroDivisionError.
Proof.
  unfold float_floor_div. destruct (is_zero y).
  - intros H. injection H as <-. now split.
  - repeat match goal with
           | |- context [if ?c then _ else _] => destruct c
           end; discriminate.
Qed.

Lemma float_int_raises (x : float) (e : exn) :
  float_int x = Raise e -> e = ValueError \/ e = OverflowError.
Proof.
  destruct x as [s|s| |s m ex]; simpl; intros H; try discriminate.
  - injection H as <-. now right.
  - injection H as <-. now left.
  - destruct (0 <=? ex); discriminate.
Qed.

Lemma float_of_int_raises (z : Z) (e : exn) :
  float_of_int z = Raise e -> e = OverflowError.
Proof.
  unfold float_of_int. destruct (of_Z z); intros H; try discriminate.
  now injection H as <-.
Qed.

(** X8: the price check at the head of a pass rules out a division by
    zero.  In binary64 a pass never ends in ZeroDivisionError, because
    [execute_buy] is reached only with a price that is not zero; called
    on its own with a zero price and a positive balance, [execute_buy]
    does raise it, before it writes anything. *)
Theorem pass_never_divides_by_zero :
  (forall (sig : option Signal) (db : TradingDB float),
      fst (run_cycle sig db) <> ERROR ZeroDivisionError) /\
  (forall (b zero : float) (pos : Z) (t : option string) (db : TradingDB float),
      is_zero zero = true -> SFleb b zero = false ->
      execute_buy b pos zero t db = (Raise ZeroDivisionError, db)).
Proof.
  split.
  - intros sig db H.
    destruct (run_cycle_effect sig db) as [r Herr| |]; try discriminate.
    cbn [fst] in H.
    destruct (Herr _ H) as (p & _ & Ht & [Hd|[(q & Hi)|(z & Hf)]]).
    + apply float_floor_div_raises in Hd. destruct Hd as [Hz _].
      simpl in Ht. rewrite Hz in Ht. discriminate.
    + apply float_int_raises in Hi. destruct Hi; discriminate.
    + apply float_of_int_raises in Hf. discriminate.
  - intros b zero pos t db Hz Hle.
    unfold execute_buy, bind, lift. cbn [num_le num_floordiv PyNum_binary64].
    rewrite Hle. unfold float_floor_div. rewrite Hz. reflexivity.
Qed.

End Binary64Errors.

(** ** The risk manager: what an evaluation can return *)

Section ManagerReturns.

Import Json GeminiManager.

Variable cfg : Config.

Implicit Types (st : Rotation) (msg text : string) (gemini : Endpoint).

Lemma parse_response_action text :
  fst (parse_response text) = "CONTINUE"%string \/
  fst (parse_response text) = "PAUSE"%string.
Proof.
  unfold parse_response.
  destruct (search_braces text) as [m|]; [|now left].
  destruct (loads _) as [[| | | | |data]|e]; try (now left).
  destruct (dict_get "action" data) as [[| | |a| |]|]; try (now left).
  destruct (PyStr.mem (PyStr.upper a) ["CONTINUE"; "PAUSE"]%string) eqn:Hmem;
    [|now left].
  unfold PyStr.mem in Hmem. cbn [existsb] in Hmem. cbn [fst].
  destruct (String.eqb_spec (PyStr.upper a) "CONTINUE"); [now left|].
  destruct (String.eqb_spec (PyStr.upper a) "PAUSE"); [now right|].
  discriminate.
Qed.

(** X9: the verdict of an evaluation is always CONTINUE or PAUSE, and it
    is what [parse_response] makes of the text the last attempt received
    when a request was answered, and CONTINUE when none was.  So the
    verdict is PAUSE only when the answer received parses to PAUSE: every
    failure path -- exhausted quota, used-up attempts, unparsable answer
    -- resolves to CONTINUE. *)
Theorem evaluation_fails_open gemini st :
  let s := get_command cfg gemini st in
  let received text :=
    exists l,
      tried s = (l ++ [here (final s)])%list /\
      attempt cfg gemini (List.length l) (final s) = Response text in
  exists a r,
    returned s = Ok (a, r) /\
    (a = "CONTINUE"%string \/ a = "PAUSE"%string) /\
    (answered s = false -> a = "CONTINUE"%string) /\
    (answered s = true ->
     exists text, received text /\ parse_response text = (a, r)) /\
    (a = "PAUSE"%string ->
     answered s = true /\
     exists text, received text /\ parse_response text = ("PAUSE"%string, r)).
Proof.
  cbv zeta. unfold get_command.
  destruct (Nat.eq_dec (n_keys cfg * n_models cfg) 0) as [E|E].
  { rewrite E. simpl. exists "CONTINUE"%string, (JStr "Failed").
    split; [reflexivity|]. split; [now left|]. split; [reflexivity|].
    split; discriminate. }
  assert (Hk : n_keys cfg <> 0%nat) by lia.
  assert (Hm : n_models cfg <> 0%nat) by lia.
  set (n := (n_keys cfg * n_models cfg)%nat).
  assert (Hyes : answered (sweep cfg gemini n 0 st) = true ->
            exists text,
              (exists l,
                  tried (sweep cfg gemini n 0 st)
                    = (l ++ [here (final (sweep cfg gemini n 0 st))])%list /\
                  attempt cfg gemini (List.length l)
                    (final (sweep cfg gemini n 0 st)) = Response text) /\
              returned (sweep cfg gemini n 0 st) = Ok (parse_response text)).
  { intros Hans.
    destruct (sweep_answered cfg Hk Hm gemini n 0%nat st Hans)
      as (l & text & Ht & Hat & Hr).
    exists text. split; [exists l; auto | exact Hr]. }
  destruct (answered (sweep cfg gemini n 0 st)) eqn:Hans.
  - destruct (Hyes eq_refl) as (text & Hrec & Hr).
    destruct (parse_response text) as [a r] eqn:Hp.
    exists a, r. split; [exact Hr|].
    pose proof (parse_response_action text) as Ha. rewrite Hp in Ha.
    split; [exact Ha|]. split; [discriminate|].
    split; [intros _; exists text; auto|].
    intros ->. split; [reflexivity|]. exists text. auto.
  - destruct (sweep_unanswered_reason cfg Hk Hm gemini n 0%nat st Hans)
      as (r0 & Hr0 & _).
    exists "CONTINUE"%string, (JStr r0). split; [exact Hr0|].
    split; [now left|]. split; [reflexivity|]. split; discriminate.
Qed.

(** X10: the rotation never leaves the lists.  From indices within range,
    every endpoint an evaluation tries is within range -- so
    [configure_gemini] finds its key and its model -- and so is the
    rotation the evaluation leaves behind. *)
Theorem rotation_stays_in_range gemini st :
  (current_api_idx st < n_keys cfg)%nat ->
  (current_model_idx st < n_models cfg)%nat ->
  let s := get_command cfg gemini st in
  List.Forall
    (fun e => (fst e < n_keys cfg)%nat /\ (snd e < n_models cfg)%nat /\
              exists k m,
                configure_gemini cfg
                  {| current_api_idx := fst e; current_model_idx := snd e |}
                = Ok (k, m))
    (tried s) /\
  (current_api_idx (final s) < n_keys cfg)%nat /\
  (current_model_idx (final s) < n_models cfg)%nat.
Proof.
  intros Ha Hm. cbv zeta. unfold get_command.
  generalize (n_keys cfg * n_models cfg)%nat as n.
  generalize 0%nat as i.
  intros i n. revert i st Ha Hm.
  assert (Hconf : forall st,
             (current_api_idx st < n_keys cfg)%nat ->
             (current_model_idx st < n_models cfg)%nat ->
             exists k m, configure_gemini cfg st = Ok (k, m)).
  { intros st Ha Hm. unfold configure_gemini, n_keys, n_models in *.
    destruct (nth_error (GEMINI_API_KEYS cfg) (current_api_idx st)) eqn:E1;
      [|apply nth_error_None in E1; lia].
    destruct (nth_error (GEMINI_MODELS cfg) (current_model_idx st)) eqn:E2;
      [|apply nth_error_None in E2; lia].
    eauto. }
  induction n as [|n IH]; intros i st Ha Hm; simpl.
  - auto.
  - assert (Hhere : (fst (here st) < n_keys cfg)%nat /\
                    (snd (here st) < n_models cfg)%nat /\
                    exists k m,
                      configure_gemini cfg
                        {| current_api_idx := fst (here st);
                           current_model_idx := snd (here st) |} = Ok (k, m)).
    { split; [exact Ha|]. split; [exact Hm|]. destruct st. now apply Hconf. }
    destruct (attempt cfg gemini i st) as [text|msg]; simpl.
    + auto.
    + destruct (on_exception cfg st msg) as [[st'|r']|e] eqn:Hh; simpl; auto.
      assert (Hin : (current_api_idx st' < n_keys cfg)%nat /\
                    (current_model_idx st' < n_models cfg)%nat).
      { assert (Hk0 : n_keys cfg <> 0%nat) by lia.
        assert (Hm0 : n_models cfg <> 0%nat) by lia.
        rewrite (on_exception_cases cfg st msg Hk0 Hm0) in Hh.
        assert (Hnm : (current_api_idx (next_model cfg st) < n_keys cfg)%nat /\
                      (current_model_idx (next_model cfg st) < n_models cfg)%nat).
        { simpl. split; [exact Ha | now apply Nat.mod_upper_bound]. }
        destruct (is_not_found msg); [now injection Hh as <-|].
        destruct (is_rate_limit msg); [|now injection Hh as <-].
        destruct (Nat.ltb _ _); [now injection Hh as <-|].
        destruct (Nat.ltb_spec (current_api_idx st) (n_keys cfg - 1));
          [|discriminate].
        injection Hh as <-. simpl. split; [|lia].
        now apply Nat.mod_upper_bound. }
      destruct Hin as [Ha' Hm'].
      destruct (IH (S i) st' Ha' Hm') as (Htr & Hfa & Hfm).
      auto.
Qed.

Lemma lower_upper_ascii (c : ascii) :
  PyStr.lower_ascii (PyStr.upper_ascii c) = PyStr.lower_ascii c.
Proof. destruct c as [[] [] [] [] [] [] [] []]; reflexivity. Qed.

Lemma lower_lower_ascii (c : ascii) :
  PyStr.lower_ascii (PyStr.lower_ascii c) = PyStr.lower_ascii c.
Proof. destruct c as [[] [] [] [] [] [] [] []]; reflexivity. Qed.

Lemma lower_upper (s : string) :
  List.forallb (fun c => (nat_of_ascii c <? 128)%nat)
               (list_ascii_of_string s) = true ->
  PyStr.lower (PyStr.upper s) = PyStr.lower s.
Proof.
  intros H. rewrite (upper_ascii_string s H). clear H.
  induction s as [|c s IH]; [reflexivity|].
  unfold PyStr.lower in *. cbn [PyStr.map_string].
  now rewrite lower_upper_ascii, IH.
Qed.

Lemma lower_lower (s : string) : PyStr.lower (PyStr.lower s) = PyStr.lower s.
Proof.
  induction s as [|c s IH]; [reflexivity|].
  unfold PyStr.lower in *. cbn [PyStr.map_string].
  now rewrite lower_lower_ascii, IH.
Qed.

(** X11: the classification of a failure does not depend on the case of
    the letters of its message, so neither does the move of the rotation:
    a message of ASCII characters, put in upper case or in lower case, is
    handled as the message itself. *)
Theorem failure_class_ignores_case st msg :
  List.forallb (fun c => (nat_of_ascii c <? 128)%nat)
               (list_ascii_of_string msg) = true ->
  is_not_found (PyStr.upper msg) = is_not_found msg /\
  is_rate_limit (PyStr.upper msg) = is_rate_limit msg /\
  is_not_found (PyStr.lower msg) = is_not_found msg /\
  is_rate_limit (PyStr.lower msg) = is_rate_limit msg /\
  on_exception cfg st (PyStr.upper msg) = on_exception cfg st msg /\
  on_exception cfg st (PyStr.lower msg) = on_exception cfg st msg.
Proof.
  intros Hascii.
  assert (H1 : is_not_found (PyStr.upper msg) = is_not_found msg)
    by (unfold is_not_found; now rewrite lower_upper).
  assert (H2 : is_rate_limit (PyStr.upper msg) = is_rate_limit msg)
    by (unfold is_rate_limit; now rewrite lower_upper).
  assert (H3 : is_not_found (PyStr.lower msg) = is_not_found msg)
    by (unfold is_not_found; now rewrite lower_lower).
  assert (H4 : is_rate_limit (PyStr.lower msg) = is_rate_limit msg)
    by (unfold is_rate_limit; now rewrite lower_lower).
  repeat (split; [assumption|]).
  unfold on_exception. now rewrite H1, H2, H3, H4.
Qed.

End ManagerReturns.

(** ** The risk manager: a sweep under quota errors *)

Section QuotaSweep.

Import Json GeminiManager.

Variable cfg : Config.
Hypothesis Hk : n_keys cfg <> 0%nat.
Hypothesis Hm : n_models cfg <> 0%nat.

Local Abbreviation nk := (n_keys cfg).
Local Abbreviation nm := (n_models cfg).

(** the endpoint number [f], counting model by model, credential by
    credential *)
Let nth_endpoint (f : nat) : Rotation :=
  {| current_api_idx := f / nm; current_model_idx := f mod nm |}.

Lemma succ_same_credential (f : nat) :
  (f mod nm < nm - 1)%nat ->
  (S f / nm = f / nm /\ S f mod nm = f mod nm + 1)%nat.
Proof.
  intros H. pose proof (Nat.div_mod_eq f nm) as E.
  assert (E' : (S f = nm * (f / nm) + (f mod nm + 1))%nat) by lia.
  split.
  - symmetry. apply (Nat.div_unique (S f) nm (f / nm) (f mod nm + 1)); lia.
  - symmetry. apply (Nat.mod_unique (S f) nm (f / nm) (f mod nm + 1)); lia.
Qed.

Lemma succ_next_credential (f : nat) :
  (nm - 1 <= f mod nm)%nat ->
  (S f / nm = f / nm + 1 /\ S f mod nm = 0)%nat.
Proof.
  intros H. pose proof (Nat.div_mod_eq f nm) as E.
  pose proof (Nat.mod_upper_bound f nm Hm) as Hlt.
  assert (E' : (S f = nm * (f / nm + 1) + 0)%nat) by nia.
  split.
  - symmetry. apply (Nat.div_unique (S f) nm (f / nm + 1) 0); lia.
  - symmetry. apply (Nat.mod_unique (S f) nm (f / nm + 1) 0); lia.
Qed.

Lemma endpoint_in_range (f : nat) :
  (f < nk * nm)%nat -> (f / nm < nk /\ f mod nm < nm)%nat.
Proof.
  intros H. split.
  - apply Nat.Div0.div_lt_upper_bound. lia.
  - now apply Nat.mod_upper_bound.
Qed.

Lemma quota_step (f : nat) (msg : string) :
  (f < nk * nm)%nat ->
  is_not_found msg = false -> is_rate_limit msg = true ->
  on_exception cfg (nth_endpoint f) msg =
    if Nat.ltb (S f) (nk * nm) then Ok (Retry (nth_endpoint (S f)))
    else Ok (Stop ("CONTINUE", JStr "All APIs exhausted")%string).
Proof.
  intros Hf H1 H2. rewrite (on_exception_cases cfg _ msg Hk Hm), H1, H2.
  destruct (endpoint_in_range f Hf) as [Ha Hmo].
  pose proof (Nat.div_mod_eq f nm) as E.
  cbn [nth_endpoint current_api_idx current_model_idx].
  destruct (Nat.ltb_spec (f mod nm) (nm - 1)) as [Hlast|Hlast].
  - destruct (succ_same_credential f Hlast) as [Ed Em].
    destruct (Nat.ltb_spec (S f) (nk * nm)); [|nia].
    unfold next_model, nth_endpoint.
    cbn [current_api_idx current_model_idx].
    rewrite Ed, Em. f_equal. f_equal. f_equal.
    apply Nat.mod_small. lia.
  - destruct (succ_next_credential f Hlast) as [Ed Em].
    destruct (Nat.ltb_spec (f / nm) (nk - 1)) as [Hcred|Hcred].
    + destruct (Nat.ltb_spec (S f) (nk * nm)); [|nia].
      unfold next_api, nth_endpoint.
      cbn [current_api_idx current_model_idx].
      rewrite Ed, Em. f_equal. f_equal. f_equal.
      apply Nat.mod_small. lia.
    + destruct (Nat.ltb_spec (S f) (nk * nm)); [nia | reflexivity].
Qed.

Variable gemini : Endpoint.
Hypothesis Hquota :
  forall i k m, exists msg,
    gemini i k m = Failure msg /\
    is_not_found msg = false /\ is_rate_limit msg = true.

Lemma quota_attempt (i f : nat) :
  (f < nk * nm)%nat ->
  exists msg, attempt cfg gemini i (nth_endpoint f) = Failure msg /\
              is_not_found msg = false /\ is_rate_limit msg = true.
Proof.
  intros Hf. destruct (endpoint_in_range f Hf) as [Ha Hmo].
  unfold attempt, configure_gemini.
  cbn [nth_endpoint current_api_idx current_model_idx].
  destruct (nth_error (GEMINI_API_KEYS cfg) (f / nm)) eqn:E1;
    [|apply nth_error_None in E1; unfold n_keys, n_models in *; lia].
  destruct (nth_error (GEMINI_MODELS cfg) (f mod nm)) eqn:E2;
    [|apply nth_error_None in E2; unfold n_keys, n_models in *; lia].
  apply Hquota.
Qed.

Lemma quota_sweep_from : forall n i f,
  (f < nk * nm)%nat -> (nk * nm - f <= n)%nat ->
  let s := sweep cfg gemini n i (nth_endpoint f) in
  tried s = List.map (fun j => here (nth_endpoint j)) (List.seq f (nk * nm - f)) /\
  returned s = Ok ("CONTINUE", JStr "All APIs exhausted")%string /\
  answered s = false /\
  final s = nth_endpoint (nk * nm - 1).
Proof.
  induction n as [|n IH]; intros i f Hf Hn; [lia|].
  cbn zeta. simpl.
  destruct (quota_attempt i f Hf) as (msg & -> & H1 & H2).
  rewrite (quota_step f msg Hf H1 H2).
  destruct (Nat.ltb_spec (S f) (nk * nm)) as [Hmore|Hdone].
  - assert (Hn' : (nk * nm - S f <= n)%nat) by lia.
    destruct (IH (S i) (S f) Hmore Hn') as (Ht & Hr & Ha & Hfin).
    simpl. rewrite Ht, Hr, Ha, Hfin.
    replace (nk * nm - f)%nat with (S (nk * nm - S f)) by lia.
    now repeat split.
  - simpl. replace (nk * nm - f)%nat with 1%nat by lia.
    replace (nk * nm - 1)%nat with f by lia. now repeat split.
Qed.

Lemma nth_endpoint_injective (j j' : nat) :
  here (nth_endpoint j) = here (nth_endpoint j') -> j = j'.
Proof.
  unfold here. cbn [nth_endpoint current_api_idx current_model_idx].
  intros H. injection H as Hd Hmo.
  rewrite (Nat.div_mod_eq j nm), (Nat.div_mod_eq j' nm). now rewrite Hd, Hmo.
Qed.

Lemma NoDup_map_injective {A B : Type} (f : A -> B) (l : list A) :
  (forall x y, f x = f y -> x = y) -> List.NoDup l -> List.NoDup (List.map f l).
Proof.
  intros Hinj. induction 1 as [|x l Hx Hl IH]; simpl; constructor; [|exact IH].
  intros Hin. apply List.in_map_iff in Hin. destruct Hin as (y & E & Hy).
  apply Hinj in E. now subst y.
Qed.

(** X12: one full sweep of the pool.  When every request fails with a
    quota error, an evaluation that starts from the first endpoint tries
    every (credential, model) pair exactly once, model by model and
    credential by credential, and returns (CONTINUE, "All APIs
    exhausted") at the last one.  The rotation then stays at that last
    endpoint: the next evaluation starts there and, under the same
    errors, gives up after that single attempt without trying any other
    endpoint. *)
Theorem quota_sweep_visits_every_endpoint_once :
  let s := get_command cfg gemini initial in
  let last_endpoint :=
    {| current_api_idx := nk - 1; current_model_idx := nm - 1 |} in
  tried s = List.map (fun j => (j / nm, j mod nm)%nat) (List.seq 0 (nk * nm)) /\
  List.NoDup (tried s) /\
  (forall a m, (a < nk)%nat -> (m < nm)%nat -> List.In (a, m) (tried s)) /\
  returned s = Ok ("CONTINUE", JStr "All APIs exhausted")%string /\
  final s = last_endpoint /\
  tried (get_command cfg gemini (final s)) = [(nk - 1, nm - 1)%nat] /\
  returned (get_command cfg gemini (final s)) =
    Ok ("CONTINUE", JStr "All APIs exhausted")%string /\
  final (get_command cfg gemini (final s)) = last_endpoint.
Proof.
  cbv zeta.
  assert (Hpos : (0 < nk * nm)%nat) by nia.
  assert (H0 : initial = nth_endpoint 0).
  { unfold initial, nth_endpoint.
    now rewrite Nat.Div0.div_0_l, Nat.Div0.mod_0_l. }
  assert (Hlast : nth_endpoint (nk * nm - 1) =
                  {| current_api_idx := nk - 1; current_model_idx := nm - 1 |}).
  { unfold nth_endpoint. f_equal.
    - symmetry. apply (Nat.div_unique _ nm (nk - 1) (nm - 1)); nia.
    - symmetry. apply (Nat.mod_unique _ nm (nk - 1) (nm - 1)); nia. }
  unfold get_command.
  destruct (quota_sweep_from (nk * nm) 0 0 Hpos) as (Ht & Hr & _ & Hf); [lia|].
  rewrite <- H0 in Ht, Hr, Hf. rewrite Nat.sub_0_r in Ht.
  rewrite Hf, Hlast in *.
  change (fun j => here (nth_endpoint j))
    with (fun j => (j / nm, j mod nm)%nat) in Ht.
  split; [exact Ht|]. rewrite Ht.
  split.
  { apply NoDup_map_injective; [|apply List.seq_NoDup].
    intros j j' E. now apply nth_endpoint_injective. }
  split.
  { intros a m Ha Hmo. apply List.in_map_iff. exists (a * nm + m)%nat.
    split; [|apply List.in_seq; nia].
    f_equal.
    - symmetry. apply (Nat.div_unique _ nm a m); lia.
    - symmetry. apply (Nat.mod_unique _ nm a m); lia. }
  split; [exact Hr|]. split; [reflexivity|].
  assert (Hl : (nk * nm - 1 < nk * nm)%nat) by lia.
  destruct (quota_sweep_from (nk * nm) 0 (nk * nm - 1) Hl)
    as (Ht2 & Hr2 & _ & Hf2); [lia|].
  rewrite Hlast in Ht2, Hr2, Hf2.
  replace (nk * nm - (nk * nm - 1))%nat with 1%nat in Ht2 by lia.
  cbn [List.seq List.map] in Ht2.
  change (here (nth_endpoint (nk * nm - 1)))
    with (current_api_idx (nth_endpoint (nk * nm - 1)),
          current_model_idx (nth_endpoint (nk * nm - 1))) in Ht2.
  rewrite Hlast in Ht2. cbn [current_api_idx current_model_idx] in Ht2.
  now repeat split.
Qed.

End QuotaSweep.

(** ** The risk manager: the brace group of a response *)

Section BraceGroup.

Import Json GeminiManager.

Implicit Types (s body pre post m : string).

(** the characters of a string *)
Let chars := list_ascii_of_string.

Lemma until_close_sound s : forall body,
  until_close s = Some body ->
  ~ List.In close_brace (chars body) /\
  exists post, s = (body ++ String close_brace post)%string.
Proof.
  induction s as [|c r IH]; intros body; simpl; [discriminate|].
  destruct (Ascii.eqb_spec c close_brace) as [->|Hc].
  - intros H. injection H as <-. split; [intros []|]. now exists r.
  - destruct (until_close r) as [b|]; [|discriminate].
    intros H. injection H as <-.
    destruct (IH b eq_refl) as [Hno (post & ->)]. split.
    + simpl. intros [E|Hin]; [now apply Hc | now apply Hno].
    + now exists post.
Qed.

Lemma until_close_complete body : forall post,
  ~ List.In close_brace (chars body) ->
  until_close (body ++ String close_brace post) = Some body.
Proof.
  induction body as [|c b IH]; intros post Hno; simpl.
  - reflexivity.
  - destruct (Ascii.eqb_spec c close_brace) as [->|Hc].
    + exfalso. apply Hno. now left.
    + rewrite IH; [reflexivity|]. intros Hin. apply Hno. now right.
Qed.

Lemma search_braces_sound s : forall m,
  search_braces s = Some m ->
  exists pre body post,
    s = (pre ++ m ++ post)%string /\
    m = String open_brace (body ++ String close_brace EmptyString) /\
    body <> EmptyString /\
    ~ List.In close_brace (chars body).
Proof.
  induction s as [|c r IH]; intros m; simpl; [discriminate|].
  assert (Hskip : search_braces r = Some m ->
                  exists pre body post,
                    String c r = (pre ++ m ++ post)%string /\
                    m = String open_brace (body ++ String close_brace EmptyString) /\
                    body <> EmptyString /\
                    ~ List.In close_brace (chars body)).
  { intros H. destruct (IH m H) as (pre & body & post & -> & Hm & Hne & Hno).
    exists (String c pre), body, post. now repeat split. }
  destruct (Ascii.eqb_spec c open_brace) as [->|Hc]; [|exact Hskip].
  destruct (until_close r) as [[|b body]|] eqn:Hu; try exact Hskip.
  intros H. injection H as <-.
  destruct (until_close_sound r _ Hu) as [Hno (post & ->)].
  exists EmptyString, (String b body), post. cbn [String.append].
  repeat split; try assumption; try discriminate.
  f_equal. f_equal.
  clear. induction body as [|x body IH]; simpl; [reflexivity|].
  now rewrite IH.
Qed.

Lemma search_braces_complete pre : forall body post,
  body <> EmptyString ->
  ~ List.In close_brace (chars body) ->
  search_braces (pre ++ String open_brace (body ++ String close_brace post))
    <> None.
Proof.
  induction pre as [|c pre IH]; intros body post Hne Hno; cbn [String.append].
  - simpl. rewrite (until_close_complete body post Hno).
    destruct body; [contradiction | discriminate].
  - simpl. specialize (IH body post Hne Hno).
    destruct (Ascii.eqb c open_brace); [|exact IH].
    destruct (until_close _) as [[|? ?]|]; try exact IH. discriminate.
Qed.

Lemma search_braces_needs_open s :
  ~ List.In open_brace (chars s) -> search_braces s = None.
Proof.
  induction s as [|c r IH]; simpl; [reflexivity|]. intros Hno.
  destruct (Ascii.eqb_spec c open_brace) as [->|Hc].
  - exfalso. apply Hno. now left.
  - apply IH. intros Hin. apply Hno. now right.
Qed.

Lemma until_close_needs_close s :
  ~ List.In close_brace (chars s) -> until_close s = None.
Proof.
  induction s as [|c r IH]; simpl; [reflexivity|]. intros Hno.
  destruct (Ascii.eqb_spec c close_brace) as [->|Hc].
  - exfalso. apply Hno. now left.
  - rewrite IH; [reflexivity|]. intros Hin. apply Hno. now right.
Qed.

Lemma search_braces_needs_close s :
  ~ List.In close_brace (chars s) -> search_braces s = None.
Proof.
  induction s as [|c r IH]; simpl; [reflexivity|]. intros Hno.
  assert (Hr : ~ List.In close_brace (chars r))
    by (intros Hin; apply Hno; now right).
  rewrite (until_close_needs_close r Hr), (IH Hr).
  now destruct (Ascii.eqb c open_brace).
Qed.

(** X13: what [parse_response] takes for the JSON of a response.  The
    search finds a group exactly when the text holds an opening brace,
    then one or more characters other than a closing brace, then a
    closing brace; the group it returns is such a piece of the text.  A
    text without an opening brace, or without a closing brace, is
    answered with the fallback, without any JSON decoding. *)
Theorem brace_group_is_found_iff_present text :
  (forall m,
      search_braces text = Some m ->
      exists pre body post,
        text = (pre ++ m ++ post)%string /\
        m = String open_brace (body ++ String close_brace EmptyString) /\
        body <> EmptyString /\
        ~ List.In close_brace (list_ascii_of_string body)) /\
  (forall pre body post,
      text = (pre ++ String open_brace (body ++ String close_brace post))%string ->
      body <> EmptyString ->
      ~ List.In close_brace (list_ascii_of_string body) ->
      exists m, search_braces text = Some m) /\
  (~ List.In open_brace (list_ascii_of_string text) \/
   ~ List.In close_brace (list_ascii_of_string text) ->
   search_braces text = None /\ parse_response text = fallback).
Proof.
  split; [|split].
  - apply search_braces_sound.
  - intros pre body post -> Hne Hno.
    pose proof (search_braces_complete pre body post Hne Hno) as H.
    destruct (search_braces _) as [m|]; [now exists m | contradiction].
  - intros H.
    assert (E : search_braces text = None).
    { destruct H; [now apply search_braces_needs_open
                  | now apply search_braces_needs_close]. }
    split; [exact E|]. unfold parse_response. now rewrite E.
Qed.

End BraceGroup.

(** ** The database client *)

Section DbClientProperties.

Import DbClient.

Context {num : Type} {NUM : PyNum num}.
Variable INITIAL_BALANCE : num.

Implicit Types (t : Tables num).

Lemma newest_is_suffix {A : Type} (limit : Z) (rows : list A) :
  0 <= limit ->
  newest limit rows = List.skipn (List.length rows - Z.to_nat limit) rows.
Proof.
  intros H. unfold newest, sql_limit.
  destruct (Z.ltb_spec limit 0); [lia|].
  now rewrite List.firstn_rev, List.rev_involutive.
Qed.

Lemma newest_unbounded {A : Type} (limit : Z) (rows : list A) :
  limit < 0 -> newest limit rows = rows.
Proof.
  intros H. unfold newest, sql_limit.
  destruct (Z.ltb_spec limit 0); [|lia]. apply List.rev_involutive.
Qed.

Lemma newest_last {A : Type} (limit : Z) (rows : list A) (x d : A) :
  1 <= limit -> List.last (newest limit (rows ++ [x])) d = x.
Proof.
  intros H. rewrite newest_is_suffix by lia.
  rewrite List.length_app. cbn [List.length].
  rewrite List.skipn_app.
  replace (List.length rows + 1 - Z.to_nat limit - List.length rows)%nat
    with 0%nat by lia.
  cbn [List.skipn]. apply List.last_last.
Qed.

Lemma newest_one {A : Type} (rows : list A) (x : A) :
  newest 1 (rows ++ [x]) = [x].
Proof.
  unfold newest, sql_limit. cbn [Z.ltb Z.compare].
  now rewrite List.rev_unit.
Qed.

Lemma filter_true {A : Type} (l : list A) : List.filter (fun _ => true) l = l.
Proof. induction l as [|x l IH]; simpl; [reflexivity | now rewrite IH]. Qed.



(** X16: [init_db] only fills what is missing.  Running it again changes
    nothing, a portfolio row and a status row that exist are kept, the
    other tables are not touched, and what [get_portfolio] and
    [get_manager_status] report is the same before and after: starting a
    service never resets the portfolio. *)
Theorem init_db_only_fills_what_is_missing now now' t :
  init_db INITIAL_BALANCE now' (init_db INITIAL_BALANCE now t)
    = init_db INITIAL_BALANCE now t /\
  (forall row, portfolio t = Some row ->
               portfolio (init_db INITIAL_BALANCE now t) = Some row) /\
  (forall row, manager_status t = Some row ->
               manager_status (init_db INITIAL_BALANCE now t) = Some row) /\
  market_data (init_db INITIAL_BALANCE now t) = market_data t /\
  trade_logs (init_db INITIAL_BALANCE now t) = trade_logs t /\
  get_portfolio INITIAL_BALANCE (init_db INITIAL_BALANCE now t)
    = get_portfolio INITIAL_BALANCE t /\
  get_manager_status (init_db INITIAL_BALANCE now t) = get_manager_status t.
Proof.
  unfold init_db, get_portfolio, get_manager_status.
  destruct t as [md tl [pf|] [ms|]]; cbn; repeat split; congruence.
Qed.


End DbClientProperties.

(** ** The two models of the execution engine *)

Section PassRefinement.

Import Json ExecutionEngine ExecutionPass.

Context {num : Type} {NUM : PyNum num}.
Variable INITIAL_BALANCE : num.
Variable text_column : json -> option (option string).

Lemma eq_text_typed v (last : option string) :
  is_text v = true -> eq_text v last = option_string_eqb (text_of v) last.
Proof. destruct v, last; try discriminate; reflexivity. Qed.

Lemma eq_word_typed v w :
  eq_word v w = option_string_eqb (text_of v) (Some w).
Proof. destruct v; reflexivity. Qed.

Lemma bind_text_typed v :
  is_text v = true -> DbClient.bind_text text_column v = Some (text_of v).
Proof. destruct v; try discriminate; reflexivity. Qed.

Lemma current_price_view (t : DbClient.Tables num) :
  current_price no_fault t =
    List.last (List.map Some (List.map DbClient.md_price (DbClient.market_data t)))
              None.
Proof.
  unfold current_price, latest_rows, DbClient.get_latest_prices.
  cbn [get_latest_prices_fails no_fault].
  change (List.filter (DbClient.symbol_filter None) (DbClient.market_data t))
    with (List.filter (fun _ : DbClient.MarketRow num => true)
            (DbClient.market_data t)).
  rewrite filter_true.
  destruct (DbClient.market_data t) as [|r l _] using List.rev_ind;
    [reflexivity|].
  rewrite newest_one, !List.map_app. cbn [List.map].
  now rewrite List.last_last.
Qed.

Lemma engine_view_cases (t : DbClient.Tables num) db :
  DbClient.engine_view t = Some db ->
  exists pf ms,
    DbClient.portfolio t = Some pf /\ DbClient.manager_status t = Some ms /\
    db = {| market_data := List.map DbClient.md_price (DbClient.market_data t);
            trade_logs := List.map DbClient.tl_trade (DbClient.trade_logs t);
            portfolio := pf;
            manager_status := {| status_action := DbClient.ms_action ms;
                                 status_reason := DbClient.ms_reason ms |} |}.
Proof.
  unfold DbClient.engine_view.
  destruct (DbClient.portfolio t) as [pf|]; [|discriminate].
  destruct (DbClient.manager_status t) as [ms|]; [|discriminate].
  intros E. injection E as <-. now exists pf, ms.
Qed.

(** the two writes of an order, seen from [ExecutionEngine] *)
Lemma after_order_view now (t : DbClient.Tables num) db action p qty nb np v :
  DbClient.engine_view t = Some db ->
  is_text v = true ->
  DbClient.engine_view
    (after_order exact_column text_column no_fault now t action p qty nb np v)
  = Some (after_trade db action p qty nb np (text_of v)).
Proof.
  intros Hview Hv.
  destruct (engine_view_cases t db Hview) as (pf & ms & Hpf & Hms & ->).
  unfold after_order, ExecutionPass.update_portfolio, ExecutionPass.log_trade,
    DbClient.update_portfolio, DbClient.log_trade, exact_column.
  cbn [log_trade_fails update_portfolio_fails no_fault snd DbClient.portfolio].
  rewrite Hpf, (bind_text_typed v Hv).
  unfold DbClient.engine_view, after_trade.
  cbn [DbClient.portfolio DbClient.manager_status DbClient.market_data
       DbClient.trade_logs market_data trade_logs portfolio manager_status].
  rewrite Hms, List.map_app. reflexivity.
Qed.

Lemma execute_buy_view now b pos p v (t : DbClient.Tables num) db :
  DbClient.engine_view t = Some db ->
  is_text v = true ->
  fst (ExecutionPass.execute_buy exact_column text_column no_fault now
         b pos p v t)
    = fst (ExecutionEngine.execute_buy b pos p (text_of v) db) /\
  DbClient.engine_view
    (snd (ExecutionPass.execute_buy exact_column text_column no_fault now
            b pos p v t))
    = Some (snd (ExecutionEngine.execute_buy b pos p (text_of v) db)).
Proof.
  intros Hview Hv.
  unfold ExecutionPass.execute_buy, ExecutionEngine.execute_buy,
    ExecutionPass.bind, ExecutionEngine.bind, ExecutionPass.lift,
    ExecutionEngine.lift, ExecutionPass.ret, ExecutionEngine.ret.
  destruct (num_le b p); [now split|].
  destruct (num_floordiv b p) as [q|e]; [|now split].
  destruct (num_int q) as [qty|e]; [|now split].
  destruct (num_of_int qty) as [fqty|e]; [|now split].
  split; [reflexivity|].
  exact (after_order_view now t db "BUY" p qty _ _ v Hview Hv).
Qed.

Lemma execute_sell_view now b pos p v (t : DbClient.Tables num) db :
  DbClient.engine_view t = Some db ->
  is_text v = true ->
  fst (ExecutionPass.execute_sell exact_column text_column no_fault now
         b pos p v t)
    = fst (ExecutionEngine.execute_sell b pos p (text_of v) db) /\
  DbClient.engine_view
    (snd (ExecutionPass.execute_sell exact_column text_column no_fault now
            b pos p v t))
    = Some (snd (ExecutionEngine.execute_sell b pos p (text_of v) db)).
Proof.
  intros Hview Hv.
  unfold ExecutionPass.execute_sell, ExecutionEngine.execute_sell,
    ExecutionPass.bind, ExecutionEngine.bind, ExecutionPass.lift,
    ExecutionEngine.lift, ExecutionPass.ret, ExecutionEngine.ret.
  destruct (pos <=? 0); [now split|].
  destruct (num_of_int pos) as [fpos|e]; [|now split].
  split; [reflexivity|].
  exact (after_order_view now t db "SELL" p pos _ _ v Hview Hv).
Qed.

(** the end of the pass after an order, in both modules *)
Lemma finish_view p c
    (new : result (num * Z * bool) * DbClient.Tables num)
    (old : result (num * Z * bool) * TradingDB num) :
  fst new = fst old ->
  DbClient.engine_view (snd new) = Some (snd old) ->
  DbClient.engine_view (snd (finish p c new)) = Some (snd (settle old)) /\
  (fst (finish p c new) = fst (settle old) \/
   fst (settle old) = ACTING /\
   exists e b pos,
     status_line b pos p c = Raise e /\ fst (finish p c new) = ERROR e).
Proof.
  destruct new as [r' t'], old as [r db']. cbn [fst snd]. intros -> Hv.
  unfold finish, settle. destruct r as [[[b pos] fl]|e]; [|now split; [|left]].
  destruct (status_line b pos p c) as [u|e] eqn:Hline; cbn [fst snd].
  - now split; [|left].
  - split; [exact Hv|]. right. split; [reflexivity|]. now exists e, b, pos.
Qed.


End PassRefinement.

(** ** The quant engine: warming up the data *)

Section WarmupProperties.

Import QuantData.

Context {num : Type} {NUM : PyNum num}.
Variable MIN_TRAINING_ROWS : Z.

Implicit Types (x y : Candle num) (l hist d : list (Candle num)).

(** earlier than, by [Datetime] *)
Let earlier x y : Prop := Datetime x < Datetime y.

Lemma in_insert_by_time x l y :
  List.In y (insert_by_time x l) <-> y = x \/ List.In y l.
Proof.
  induction l as [|z r IH]; simpl.
  - intuition.
  - destruct (Datetime x <=? Datetime z); simpl; [intuition|].
    rewrite IH. intuition.
Qed.

Lemma in_sort_values l y : List.In y (sort_values l) <-> List.In y l.
Proof.
  induction l as [|x r IH]; simpl; [reflexivity|].
  rewrite in_insert_by_time, IH. intuition.
Qed.

Lemma insert_keeps_strict_order x l :
  StronglySorted earlier l ->
  (forall y, List.In y l -> Datetime y <> Datetime x) ->
  StronglySorted earlier (insert_by_time x l).
Proof.
  induction 1 as [|z r Hs IH Hz]; intros Hnew; simpl.
  - constructor; constructor.
  - destruct (Z.leb_spec (Datetime x) (Datetime z)) as [Hle|Hgt].
    + assert (Hxz : earlier x z).
      { unfold earlier. specialize (Hnew z (or_introl eq_refl)). lia. }
      constructor; [now constructor|].
      constructor; [exact Hxz|].
      eapply List.Forall_impl; [|exact Hz].
      intros a Ha. unfold earlier in *. lia.
    + constructor.
      * apply IH. intros y Hy. apply Hnew. now right.
      * apply List.Forall_forall. intros a Ha.
        apply in_insert_by_time in Ha. destruct Ha as [->|Ha].
        -- exact Hgt.
        -- rewrite List.Forall_forall in Hz. now apply Hz.
Qed.

Lemma sort_values_strict l :
  List.NoDup (List.map (@Datetime num) l) ->
  StronglySorted earlier (sort_values l).
Proof.
  induction l as [|x r IH]; simpl; intros Hnd; [constructor|].
  inversion Hnd as [|? ? Hx Hr]; subst.
  apply insert_keeps_strict_order; [now apply IH|].
  intros y Hy E. apply Hx. rewrite <- E.
  apply List.in_map, in_sort_values, Hy.
Qed.

Lemma existsb_same_time x r :
  List.existsb (fun y => Datetime y =? Datetime x) r = false <->
  List.Forall (fun y => Datetime y <> Datetime x) r.
Proof.
  induction r as [|z r IH]; simpl.
  - split; [constructor | reflexivity].
  - rewrite Bool.orb_false_iff, IH, Z.eqb_neq. split.
    + intros [H1 H2]. now constructor.
    + intros H. inversion H. now split.
Qed.

Lemma in_drop_duplicates_last l : forall x,
  List.In x (drop_duplicates_last l) <->
  exists l1 l2, l = (l1 ++ x :: l2)%list /\
                List.Forall (fun y => Datetime y <> Datetime x) l2.
Proof.
  induction l as [|z r IH]; intros x; simpl.
  - split; [intros [] | intros (l1 & l2 & E & _); now destruct l1].
  - destruct (List.existsb (fun y => Datetime y =? Datetime z) r) eqn:Hex.
    + rewrite IH. split.
      * intros (l1 & l2 & -> & Hl2). now exists (z :: l1), l2.
      * intros (l1 & l2 & E & Hl2). destruct l1 as [|a l1].
        -- simpl in E. injection E as -> ->.
           apply existsb_same_time in Hl2. congruence.
        -- simpl in E. injection E as -> ->. now exists l1, l2.
    + simpl. rewrite IH. split.
      * intros [->|(l1 & l2 & -> & Hl2)].
        -- exists [], r. split; [reflexivity | now apply existsb_same_time].
        -- now exists (z :: l1), l2.
      * intros (l1 & l2 & E & Hl2). destruct l1 as [|a l1].
        -- simpl in E. injection E as -> ->. now left.
        -- simpl in E. injection E as -> ->. right. now exists l1, l2.
Qed.

Lemma drop_duplicates_last_incl l x :
  List.In x (drop_duplicates_last l) -> List.In x l.
Proof.
  intros H. apply in_drop_duplicates_last in H.
  destruct H as (l1 & l2 & -> & _). apply List.in_elt.
Qed.

Lemma drop_duplicates_last_distinct l :
  List.NoDup (List.map (@Datetime num) (drop_duplicates_last l)).
Proof.
  induction l as [|z r IH]; simpl; [constructor|].
  destruct (List.existsb (fun y => Datetime y =? Datetime z) r) eqn:Hex;
    [exact IH|].
  simpl. constructor; [|exact IH].
  intros Hin. apply List.in_map_iff in Hin. destruct Hin as (y & E & Hy).
  apply drop_duplicates_last_incl in Hy.
  apply existsb_same_time in Hex. rewrite List.Forall_forall in Hex.
  now apply (Hex y Hy).
Qed.

Lemma drop_duplicates_last_covers l : forall y,
  List.In y l ->
  exists x, List.In x (drop_duplicates_last l) /\ Datetime x = Datetime y.
Proof.
  induction l as [|z r IH]; intros y; simpl; [intros []|].
  assert (Hr : List.In y r ->
               exists x,
                 List.In x (if List.existsb (fun a => Datetime a =? Datetime z) r
                            then drop_duplicates_last r
                            else z :: drop_duplicates_last r)
                 /\ Datetime x = Datetime y).
  { intros Hy. destruct (IH y Hy) as (x & Hx & E). exists x.
    split; [|exact E]. destruct (List.existsb _ r); [exact Hx | now right]. }
  intros [->|Hy]; [|now apply Hr].
  destruct (List.existsb (fun a => Datetime a =? Datetime y) r) eqn:Hex.
  - apply List.existsb_exists in Hex. destruct Hex as (a & Ha & E).
    apply Z.eqb_eq in E. destruct (IH a Ha) as (x & Hx & E').
    exists x. split; [exact Hx | congruence].
  - exists y. split; [now left | reflexivity].
Qed.

(** X21: when [warmup_data] merges the download with the live rows, the
    result is in strictly increasing order of [Datetime] -- sorted, and
    with no instant twice -- and it holds exactly the instants of the
    download and of the live rows. *)
Theorem warmup_merge_is_sorted_without_duplicates h hist z d :
  Z.of_nat (List.length (z :: d)) < MIN_TRAINING_ROWS ->
  exists merged,
    warmup_data MIN_TRAINING_ROWS (Ok (h :: hist)) (Some (z :: d)) = Some merged /\
    StronglySorted (fun x y => Datetime x < Datetime y) merged /\
    List.NoDup (List.map (@Datetime num) merged) /\
    (forall t, List.In t (List.map (@Datetime num) merged) <->
               List.In t (List.map (@Datetime num) ((h :: hist) ++ z :: d))).
Proof.
  intros Hlen.
  set (l := ((h :: hist) ++ z :: d)%list).
  exists (sort_values (drop_duplicates_last l)). split.
  { unfold warmup_data.
    destruct (Z.leb_spec MIN_TRAINING_ROWS (Z.of_nat (List.length (z :: d))));
      [lia | reflexivity]. }
  assert (Hs : StronglySorted earlier (sort_values (drop_duplicates_last l)))
    by apply sort_values_strict, drop_duplicates_last_distinct.
  split; [exact Hs|]. split.
  - clear -Hs. induction Hs as [|a r Hr IH Ha]; simpl; constructor; [|exact IH].
    intros Hin. apply List.in_map_iff in Hin. destruct Hin as (y & E & Hy).
    rewrite List.Forall_forall in Ha. specialize (Ha y Hy).
    unfold earlier in Ha. lia.
  - intros t. rewrite !List.in_map_iff. split.
    + intros (x & E & Hx). exists x. split; [exact E|].
      apply (proj1 (in_sort_values _ _)) in Hx.
      now apply drop_duplicates_last_incl.
    + intros (y & E & Hy).
      destruct (drop_duplicates_last_covers l y Hy) as (x & Hx & E').
      exists x. split; [congruence | now apply in_sort_values].
Qed.

(** X22: in that merge the latest row of an instant wins, and the live
    rows come after the download.  A row is in the result exactly when no
    later row of download-then-live has its instant; so a live row stays
    unless a later live row has its instant, and a downloaded row stays
    only if no live row has its instant. *)
Theorem warmup_merge_keeps_the_latest_row h hist z d merged :
  warmup_data MIN_TRAINING_ROWS (Ok (h :: hist)) (Some (z :: d)) = Some merged ->
  Z.of_nat (List.length (z :: d)) < MIN_TRAINING_ROWS ->
  (forall x,
      List.In x merged <->
      exists l1 l2,
        ((h :: hist) ++ z :: d = l1 ++ x :: l2)%list /\
        List.Forall (fun y => Datetime y <> Datetime x) l2) /\
  (forall d1 x d2,
      (z :: d = d1 ++ x :: d2)%list ->
      List.Forall (fun y => Datetime y <> Datetime x) d2 ->
      List.In x merged) /\
  (forall x,
      List.In x merged ->
      List.In x (z :: d) \/
      List.In x (h :: hist) /\
      List.Forall (fun y => Datetime y <> Datetime x) (z :: d)).
Proof.
  intros Hw Hlen. unfold warmup_data in Hw.
  destruct (Z.leb_spec MIN_TRAINING_ROWS (Z.of_nat (List.length (z :: d))));
    [lia|].
  injection Hw as <-.
  assert (Hiff : forall x,
             List.In x (sort_values (drop_duplicates_last ((h :: hist) ++ z :: d))) <->
             exists l1 l2,
               ((h :: hist) ++ z :: d = l1 ++ x :: l2)%list /\
               List.Forall (fun y => Datetime y <> Datetime x) l2).
  { intros x. rewrite in_sort_values. apply in_drop_duplicates_last. }
  split; [exact Hiff|]. split.
  - intros d1 x d2 E Hd2. apply Hiff.
    exists ((h :: hist) ++ d1)%list, d2. split; [|exact Hd2].
    rewrite E. now rewrite <- List.app_assoc.
  - intros x Hx. apply Hiff in Hx. destruct Hx as (l1 & l2 & E & Hl2).
    apply List.app_eq_app in E.
    destruct E as (l' & [[E1 E2]|[E1 E2]]).
    + destruct l' as [|a l'].
      * simpl in E2. left. rewrite <- E2. now left.
      * simpl in E2. injection E2 as Ea E2. subst a l2. right. split.
        -- rewrite E1. apply List.in_elt.
        -- apply List.Forall_app in Hl2. apply Hl2.
    + left. rewrite E2. apply List.in_elt.
Qed.

End WarmupProperties.

(** ** The quant engine: the prediction and the signal file *)

Section PredictionProperties.

Import QuantEngine.

Context {num : Type} {NUM : PyNum num}.
Variable fit_predict : list (list num * Z) -> list num -> Z * num.
Variable round : num -> nat -> num.

Lemma last_some_inv {A : Type} (l : list A) (a : A) :
  List.last (List.map Some l) None = Some a ->
  exists front, l = (front ++ [a])%list.
Proof.
  destruct l as [|b l'] using List.rev_ind; [discriminate|].
  rewrite List.map_app. change (List.map Some [b]) with [Some b].
  rewrite List.last_last. intros E. injection E as ->.
  now exists l'.
Qed.

Lemma target_is_binary (closes : list num) :
  List.Forall (fun z => z = 0 \/ z = 1) (target closes).
Proof.
  induction closes as [|c rest IH]; simpl; constructor; [|exact IH].
  destruct rest as [|next rest']; [now left|].
  destruct (num_lt c next); [now right | now left].
Qed.

Lemma in_removelast {A : Type} (l : list A) (a : A) :
  List.In a (List.removelast l) -> List.In a l.
Proof.
  induction l as [|b l IH]; [intros []|].
  destruct l as [|c l']; [intros []|].
  change (List.removelast (b :: c :: l'))
    with (b :: List.removelast (c :: l')).
  intros [->|H]; [now left | right; now apply IH].
Qed.

Lemma df_train_is_binary (df : list (@Row num)) :
  List.Forall (fun rz => snd rz = 0 \/ snd rz = 1) (df_train df).
Proof.
  apply List.Forall_forall. intros [r z] Hin. unfold df_train in Hin.
  apply in_removelast, List.in_combine_r in Hin.
  pose proof (target_is_binary (List.map Close df)) as Hb.
  rewrite List.Forall_forall in Hb. exact (Hb z Hin).
Qed.

(** what a prediction is made of *)
Lemma train_and_predict_some (df : list (@Row num)) s :
  train_and_predict fit_predict round df = Some s ->
  exists front latest,
    df = (front ++ [latest])%list /\
    (50 <= List.length front)%nat /\
    List.map fst (df_train df) = front /\
    s = {| pred_timestamp := Datetime latest;
           pred_signal :=
             if fst (fit_predict
                       (List.map (fun r => (features (fst r), snd r)) (df_train df))
                       (features latest)) =? 1
             then "BUY" else "SELL";
           pred_confidence :=
             round (snd (fit_predict
                           (List.map (fun r => (features (fst r), snd r)) (df_train df))
                           (features latest))) 4;
           pred_rsi := round (RSI latest) 2 |}.
Proof.
  unfold train_and_predict.
  destruct (Nat.ltb_spec (List.length (df_train df)) 50) as [|Hge];
    [discriminate|].
  destruct (List.last (List.map Some df) None) as [latest|] eqn:Hlast;
    [|discriminate].
  destruct (last_some_inv _ _ Hlast) as (front & ->).
  destruct (fit_predict _ _) as [pred proba] eqn:Hfp.
  intros E. injection E as <-.
  exists front, latest.
  rewrite length_df_train, List.length_app in Hge. simpl in Hge.
  split; [reflexivity|]. split; [lia|]. split; [|now rewrite Hfp].
  unfold df_train.
  rewrite List.removelast_firstn_len, <- List.firstn_map, map_fst_labelled.
  rewrite length_labelled, List.length_app. simpl.
  replace (Nat.pred (List.length front + 1)) with (List.length front) by lia.
  rewrite List.firstn_app, List.firstn_all, Nat.sub_diag. simpl.
  apply List.app_nil_r.
Qed.

(** X23: a prediction is about the last row and is learnt from the rows
    before it.  When [train_and_predict] returns a prediction, the
    dataframe has a last row after at least 50 others; the time stamp and
    the RSI of the prediction are that row's; the classifier was fitted
    on exactly the other rows, each labelled 0 or 1, and asked about the
    last row; and the signal is BUY when it answered 1, SELL otherwise. *)
Theorem prediction_is_for_the_last_row (df : list (@Row num)) s :
  train_and_predict fit_predict round df = Some s ->
  exists front latest,
    df = (front ++ [latest])%list /\
    (50 <= List.length front)%nat /\
    List.map fst (df_train df) = front /\
    List.Forall (fun rz => snd rz = 0 \/ snd rz = 1) (df_train df) /\
    pred_timestamp s = Datetime latest /\
    pred_rsi s = round (RSI latest) 2 /\
    (let answer :=
       fit_predict (List.map (fun r => (features (fst r), snd r)) (df_train df))
                   (features latest) in
     pred_confidence s = round (snd answer) 4 /\
     (fst answer = 1 -> pred_signal s = "BUY") /\
     (fst answer <> 1 -> pred_signal s = "SELL")).
Proof.
  intros H. destruct (train_and_predict_some df s H)
    as (front & latest & Hdf & Hlen & Htrain & ->).
  exists front, latest.
  split; [exact Hdf|]. split; [exact Hlen|]. split; [exact Htrain|].
  split; [apply df_train_is_binary|].
  split; [reflexivity|]. split; [reflexivity|].
  cbv zeta. cbn [pred_confidence pred_signal].
  split; [reflexivity|]. split; intros Ha.
  - now rewrite Ha.
  - apply Z.eqb_neq in Ha. now rewrite Ha.
Qed.

End PredictionProperties.

Section SignalFileProperties.

Import QuantData.

Context {num : Type} {NUM : PyNum num}.
Variable SYMBOL : string.
Variable MIN_TRAINING_ROWS : Z.
Variable engineer_features :
  list (Candle num) -> result (list (@QuantEngine.Row num)).
Variable fit_predict : list (list num * Z) -> list num -> Z * num.
Variable round : num -> nat -> num.


(** X25: a pass of the quant engine leaves the signal file as it was, or
    overwrites it with a prediction for the last engineered row: that
    happens only when the table has rows of the symbol, the warmed-up
    series has 50 rows or more, and feature engineering succeeds with 51
    rows or more. *)
Theorem signal_file_changes_only_on_a_prediction
    (t : DbClient.Tables num) (history : result (list (Candle num)))
    (file : option (@QuantEngine.Prediction num)) :
  cycle SYMBOL MIN_TRAINING_ROWS engineer_features fit_predict round
        t history file = file \/
  exists loaded df front latest s,
    load_market_data SYMBOL t = Some loaded /\
    warmup_data MIN_TRAINING_ROWS history (Some loaded) = Some df /\
    (50 <= List.length df)%nat /\
    engineer_features df = Ok (front ++ [latest])%list /\
    (50 <= List.length front)%nat /\
    cycle SYMBOL MIN_TRAINING_ROWS engineer_features fit_predict round
          t history file = Some s /\
    QuantEngine.pred_timestamp s = QuantEngine.Datetime latest /\
    (QuantEngine.pred_signal s = "BUY" \/ QuantEngine.pred_signal s = "SELL").
Proof.
  unfold cycle.
  destruct (load_market_data SYMBOL t) as [loaded|] eqn:Hload; [|now left].
  destruct (warmup_data MIN_TRAINING_ROWS history (Some loaded)) as [df|]
    eqn:Hwarm; [|now left].
  destruct (Nat.ltb_spec (List.length df) 50) as [|Hdf]; [now left|].
  destruct (engineer_features df) as [feats|e] eqn:Hfe; [|now left].
  destruct (Nat.ltb (List.length feats) 50); [now left|].
  destruct (QuantEngine.train_and_predict fit_predict round feats) as [s|] eqn:Hp;
    [|now left].
  right.
  destruct (train_and_predict_some fit_predict round feats s Hp)
    as (front & latest & -> & Hlen & _ & Hs).
  exists loaded, df, front, latest, s.
  repeat (split; [reflexivity || assumption|]).
  rewrite Hs. cbn [QuantEngine.pred_timestamp QuantEngine.pred_signal].
  split; [reflexivity|].
  destruct (_ =? 1); [now left | now right].
Qed.

End SignalFileProperties.

(** ** The market feeder *)

Section FeederProperties.

Import DbClient.

Context {num : Type} {NUM : PyNum num}.
Variable SYMBOL : string.

Lemma newest_snoc {A : Type} (limit : Z) (rows : list A) (x : A) :
  1 <= limit ->
  newest limit (rows ++ [x]) = (newest (limit - 1) rows ++ [x])%list.
Proof.
  intros H. rewrite !newest_is_suffix by lia.
  rewrite List.length_app. cbn [List.length].
  rewrite List.skipn_app.
  replace (List.length rows + 1 - Z.to_nat limit)%nat
    with (List.length rows - Z.to_nat (limit - 1))%nat by lia.
  replace (List.length rows - Z.to_nat (limit - 1) - List.length rows)%nat
    with 0%nat by lia.
  reflexivity.
Qed.


End FeederProperties.

(** ** Instances of the further properties *)

Section FurtherExecutionScenarios.

Import Exact Binary64 ExecutionEngine.

Lemma unknown_decision_writes_nothing_witness :
  let hold := {| signal := Some "HOLD"%string;
                 timestamp := Some "2024-01-02 09:16:00"%string |} in
  let db : TradingDB float :=
    snapshot (of_Z 100) (of_Z 100000) 5 None "CONTINUE" in
  snd (run_cycle (Some hold) db) = db.
Proof.
  cbv zeta. apply unknown_decision_writes_nothing; discriminate.
Defined.


End FurtherExecutionScenarios.

Section FurtherManagerScenarios.

Import Json GeminiManager.

Lemma rotation_stays_in_range_witness :
  let s := get_command config (always_failing "503 Service Unavailable")
             initial in
  (current_api_idx (final s) < n_keys config)%nat /\
  (current_model_idx (final s) < n_models config)%nat.
Proof.
  cbv zeta.
  assert (Ha : (current_api_idx initial < n_keys config)%nat)
    by (vm_compute; lia).
  assert (Hm : (current_model_idx initial < n_models config)%nat)
    by (vm_compute; lia).
  exact (proj2 (rotation_stays_in_range config
                  (always_failing "503 Service Unavailable") initial Ha Hm)).
Defined.

Lemma failure_class_ignores_case_witness :
  is_rate_limit "429 RESOURCE_EXHAUSTED" = is_rate_limit "429 Resource_Exhausted" /\
  on_exception config initial "429 RESOURCE_EXHAUSTED" =
    on_exception config initial "429 Resource_Exhausted".
Proof.
  destruct (failure_class_ignores_case config initial "429 Resource_Exhausted"
              eq_refl) as (_ & Hr & _ & _ & Ho & _).
  exact (conj Hr Ho).
Defined.

Lemma quota_sweep_visits_every_endpoint_once_witness :
  let s := get_command config (always_failing "429 quota exceeded") initial in
  tried s = [(0, 0); (0, 1); (0, 2); (1, 0); (1, 1); (1, 2)]%nat /\
  List.NoDup (tried s) /\
  tried (get_command config (always_failing "429 quota exceeded") (final s))
    = [(1, 2)]%nat.
Proof.
  cbv zeta.
  destruct (quota_sweep_visits_every_endpoint_once config
              config_has_keys config_has_models
              (always_failing "429 quota exceeded"))
    as (Ht & Hnd & _ & _ & _ & Hagain & _).
  - intros i k m. exists "429 quota exceeded"%string. now repeat split.
  - exact (conj Ht (conj Hnd Hagain)).
Defined.

End FurtherManagerScenarios.

Section FurtherDataScenarios.

Import Binary64 DbClient.




End FurtherDataScenarios.

Section FurtherQuantScenarios.

Import Binary64 QuantData.

Lemma warmup_merge_is_sorted_without_duplicates_witness :
  exists merged,
    warmup_data 200 (Ok [flat of_Z 1 100; flat of_Z 2 101])
                (Some [flat of_Z 2 105; flat of_Z 3 106]) = Some merged /\
    StronglySorted (fun x y => Datetime x < Datetime y) merged /\
    List.NoDup (List.map (@Datetime float) merged).
Proof.
  destruct (warmup_merge_is_sorted_without_duplicates 200
              (flat of_Z 1 100) [flat of_Z 2 101]
              (flat of_Z 2 105) [flat of_Z 3 106])
    as (merged & Hw & Hs & Hnd & _).
  - reflexivity.
  - exists merged. exact (conj Hw (conj Hs Hnd)).
Defined.

Lemma warmup_merge_keeps_the_latest_row_witness :
  let merged := [flat of_Z 1 100; flat of_Z 2 105; flat of_Z 3 106] in
  warmup_data 200 (Ok [flat of_Z 1 100; flat of_Z 2 101])
              (Some [flat of_Z 2 105; flat of_Z 3 106]) = Some merged /\
  List.In (flat of_Z 2 105) merged.
Proof.
  cbv zeta.
  assert (Hw : warmup_data 200 (Ok [flat of_Z 1 100; flat of_Z 2 101])
                 (Some [flat of_Z 2 105; flat of_Z 3 106])
               = Some [flat of_Z 1 100; flat of_Z 2 105; flat of_Z 3 106])
    by reflexivity.
  split; [exact Hw|].
  destruct (warmup_merge_keeps_the_latest_row 200
              (flat of_Z 1 100) [flat of_Z 2 101]
              (flat of_Z 2 105) [flat of_Z 3 106] _ Hw)
    as (_ & Hlive & _).
  - reflexivity.
  - apply (Hlive [] (flat of_Z 2 105) [flat of_Z 3 106] eq_refl).
    apply List.Forall_cons; [cbn; discriminate | apply List.Forall_nil].
Defined.

Lemma prediction_is_for_the_last_row_witness :
  let df := List.map (fun c => QuantEngine.bar of_Z "09:15" (Z.of_nat c))
                     (List.seq 0 51) in
  let fit_predict := fun (_ : list (list float * Z)) (_ : list float) =>
                       (1, fhalf) in
  let round := fun (x : float) (_ : nat) => x in
  exists front latest,
    df = (front ++ [latest])%list /\ (50 <= List.length front)%nat /\
    QuantEngine.Datetime latest = "09:15"%string.
Proof.
  cbv zeta.
  destruct (prediction_is_for_the_last_row
              (fun (_ : list (list float * Z)) (_ : list float) => (1, fhalf))
              (fun (x : float) (_ : nat) => x)
              (List.map (fun c => QuantEngine.bar of_Z "09:15" (Z.of_nat c))
                        (List.seq 0 51))
              {| QuantEngine.pred_timestamp := "09:15";
                 QuantEngine.pred_signal := "BUY";
                 QuantEngine.pred_confidence := fhalf;
                 QuantEngine.pred_rsi := of_Z 50 |})
    as (front & latest & Hdf & Hlen & _ & _ & Hts & _).
  - vm_compute. reflexivity.
  - exists front, latest. split; [exact Hdf|]. split; [exact Hlen|].
    now rewrite <- Hts.
Defined.

End FurtherQuantScenarios.
